(** * Arena: bouncing-ball and "futbol" simulations

    A shallow embedding of the simulation core of [bouncing_ball.py] and of
    the programs collected in [bouncingball2.py] (the double pendulum,
    futbol 1.1 to 1.6 and futbol 2.1), with the properties of the
    specification and further properties of the code stated over it.

    Conventions of the embedding.
    - Python numbers are idealised as real numbers: [float] arithmetic is
      read as exact arithmetic on [R], [math.hypot] as the Euclidean norm,
      [math.atan2] as the two-argument arctangent.  Integer bookkeeping
      (frame counters, scores, minutes) is kept in [Z], with [//] as [Z.div].
    - A division whose divisor is zero raises [ZeroDivisionError]; functions
      that divide return a [result].  An [IndexError] of a list operation is
      the [None] of an [option].
    - Module-level variables mutated by a main loop are gathered in a record
      that the loop body transforms; objects compared with [==] (identity) are
      referred to by the slot that holds them.
    - [random] calls read an oracle, indexed by the number of calls made so
      far; drawing, fonts and [pygame.time.delay] are left out. *)

From Stdlib Require Import Reals Lra Psatz ZArith Lia List String Bool.
From Stdlib Require Import Permutation.
Import ListNotations.

Local Open Scope R_scope.

(** ** Numbers, errors *)

Inductive result (A : Type) : Type :=
| Ok (a : A)
| ZeroDivisionError.
Arguments Ok {A} a.
Arguments ZeroDivisionError {A}.

Definition bind {A B : Type} (m : result A) (k : A -> result B) : result B :=
  match m with
  | Ok a => k a
  | ZeroDivisionError => ZeroDivisionError
  end.

Notation "x <- m ;; k" := (bind m (fun x => k))
  (at level 61, m at next level, right associativity).
Notation "' pat <- m ;; k" := (bind m (fun x => match x with pat => k end))
  (at level 61, pat pattern, m at next level, right associativity).

(** [a / b] on Python floats. *)
Definition pydiv (a b : R) : result R :=
  if Req_dec_T b 0 then ZeroDivisionError else Ok (a / b).

(** [math.hypot]. *)
Definition hypot (a b : R) : R := sqrt (a * a + b * b).

(** [math.atan2 (y, x)], with the value 0 at the origin. *)
Definition atan2 (y x : R) : R :=
  if Rlt_dec 0 x then atan (y / x)
  else if Rlt_dec x 0 then
         if Rle_dec 0 y then atan (y / x) + PI else atan (y / x) - PI
       else if Rlt_dec 0 y then PI / 2
            else if Rlt_dec y 0 then - (PI / 2)
                 else 0.

(** [a % m] on floats, for a positive modulus: the result has the sign of
    [m]. *)
Definition pymod (a m : R) : R := a - m * IZR (Int_part (a / m)).

(** A body of the circular-arena programs: the fields of [Ball] that the
    simulation reads and writes. *)
Record Ball : Type := mkBall {
  x : R;
  y : R;
  vx : R;
  vy : R;
  radius : R
}.

(** ** bouncing_ball.py *)

Module BouncingBall.

Definition WINDOW_WIDTH : Z := 800.
Definition WINDOW_HEIGHT : Z := 600.
Definition BALL_RADIUS : R := 25.
Definition GRAVITY : R := 5 / 10.
Definition BOUNCE_FACTOR : R := 95 / 100.
Definition CAGE_WIDTH : Z := 500.
Definition CAGE_HEIGHT : Z := 400.
Definition CAGE_X : Z := (WINDOW_WIDTH - CAGE_WIDTH) / 2.
Definition CAGE_Y : Z := (WINDOW_HEIGHT - CAGE_HEIGHT) / 2.

(** [pygame.Rect (left, top, width, height)] and its derived edges. *)
Record Rect : Type := mkRect {
  left : Z;
  top : Z;
  width : Z;
  height : Z
}.
Definition right (r : Rect) : Z := (left r + width r)%Z.
Definition bottom (r : Rect) : Z := (top r + height r)%Z.
Definition centerx (r : Rect) : Z := (left r + width r / 2)%Z.
Definition centery (r : Rect) : Z := (top r + height r / 2)%Z.

Definition cage_rect : Rect := mkRect CAGE_X CAGE_Y CAGE_WIDTH CAGE_HEIGHT.

(** The local variables of [main] that the loop updates. *)
Record State : Type := mkState {
  ball_x : R;
  ball_y : R;
  vel_x : R;
  vel_y : R
}.

Definition init : State :=
  mkState (IZR (centerx cage_rect)) (IZR (centery cage_rect)) 5 0.

(** Physics logic: gravity, then the position update. *)
Definition physics (s : State) : State :=
  let vel_y1 := vel_y s + GRAVITY in
  mkState (ball_x s + vel_x s) (ball_y s + vel_y1) (vel_x s) vel_y1.

(** The four wall checks, in source order, against an arbitrary cage and
    ball radius. *)
Definition floor_check (c : Rect) (rad : R) (s : State) : State :=
  if Rgt_dec (ball_y s + rad) (IZR (bottom c))
  then mkState (ball_x s) (IZR (bottom c) - rad) (vel_x s)
               (- vel_y s * BOUNCE_FACTOR)
  else s.

Definition ceiling_check (c : Rect) (rad : R) (s : State) : State :=
  if Rlt_dec (ball_y s - rad) (IZR (top c))
  then mkState (ball_x s) (IZR (top c) + rad) (vel_x s)
               (- vel_y s * BOUNCE_FACTOR)
  else s.

Definition right_check (c : Rect) (rad : R) (s : State) : State :=
  if Rgt_dec (ball_x s + rad) (IZR (right c))
  then mkState (IZR (right c) - rad) (ball_y s)
               (- vel_x s * BOUNCE_FACTOR) (vel_y s)
  else s.

Definition left_check (c : Rect) (rad : R) (s : State) : State :=
  if Rlt_dec (ball_x s - rad) (IZR (left c))
  then mkState (IZR (left c) + rad) (ball_y s)
               (- vel_x s * BOUNCE_FACTOR) (vel_y s)
  else s.

Definition cage_collision (c : Rect) (rad : R) (s : State) : State :=
  left_check c rad (right_check c rad (ceiling_check c rad (floor_check c rad s))).

(** One iteration of the main loop (state part). *)
Definition tick (s : State) : State :=
  cage_collision cage_rect BALL_RADIUS (physics s).

Fixpoint run (n : nat) (s : State) : State :=
  match n with
  | O => s
  | S k => run k (tick s)
  end.

Definition in_cage (c : Rect) (rad : R) (s : State) : Prop :=
  IZR (left c) + rad <= ball_x s <= IZR (right c) - rad /\
  IZR (top c) + rad <= ball_y s <= IZR (bottom c) - rad.

End BouncingBall.

(** ** Double pendulum (the first program of bouncingball2.py) *)

Module Pendulum.

Definition m1 : R := 1.
Definition m2 : R := 1.
Definition L1 : R := 1.
Definition L2 : R := 1.
Definition g : R := 981 / 100.
Definition history_len : nat := 100.

(** The state handed to [odeint]: [theta1, omega1, theta2, omega2]. *)
Definition State : Type := (R * R * R * R)%type.

(** [derivs (state, t)]; the time argument is not used. *)
Definition derivs (state : State) : State :=
  let '(theta1, w1, theta2, w2) := state in
  let delta := theta2 - theta1 in
  let den1 := (m1 + m2) * L1 - m2 * L1 * cos delta * cos delta in
  let den2 := (L2 / L1) * den1 in
  let dw1dt := (m2 * L1 * w1 * w1 * sin delta * cos delta +
                m2 * g * sin theta2 * cos delta +
                m2 * L2 * w2 * w2 * sin delta -
                (m1 + m2) * g * sin theta1) / den1 in
  let dw2dt := (- m2 * L2 * w2 * w2 * sin delta * cos delta +
                (m1 + m2) * g * sin theta1 * cos delta -
                (m1 + m2) * L1 * w1 * w1 * sin delta -
                (m1 + m2) * g * sin theta2) / den2 in
  (w1, dw1dt, w2, dw2dt).

(** Positions of the two bobs for given angles: one entry of the arrays
    [x1], [y1], [x2], [y2]. *)
Definition x1 (theta1 : R) : R := L1 * sin theta1.
Definition y1 (theta1 : R) : R := - L1 * cos theta1.
Definition x2 (theta1 theta2 : R) : R := x1 theta1 + L2 * sin theta2.
Definition y2 (theta1 theta2 : R) : R := y1 theta1 - L2 * cos theta2.

(** The arrays [x2] and [y2] computed from the rows of [solution]. *)
Definition x2s (solution : list State) : list R :=
  map (fun st => let '(theta1, _, theta2, _) := st in x2 theta1 theta2) solution.
Definition y2s (solution : list State) : list R :=
  map (fun st => let '(theta1, _, theta2, _) := st in y2 theta1 theta2) solution.

(** [l.pop (0)]: [None] stands for the [IndexError] on an empty list. *)
Definition pop0 (l : list R) : option (list R) :=
  match l with
  | [] => None
  | _ :: t => Some t
  end.

(** [animate (i)] on the history lists [(history_x, history_y)]; [None]
    stands for an [IndexError], of the array access or of [pop]. *)
Definition animate (solution : list State) (i : nat)
    (history : list R * list R) : option (list R * list R) :=
  match nth_error (x2s solution) i, nth_error (y2s solution) i with
  | Some x2i, Some y2i =>
      let '(history_x, history_y) :=
        if Nat.eqb i 0 then ([], []) else history in
      let history_x := history_x ++ [x2i] in
      let history_y := history_y ++ [y2i] in
      if Nat.ltb history_len (List.length history_x) then
        match pop0 history_x, pop0 history_y with
        | Some hx, Some hy => Some (hx, hy)
        | _, _ => None
        end
      else Some (history_x, history_y)
  | _, _ => None
  end.

(** The calls [animate (0)], ..., [animate (n - 1)] that the animation makes
    for its first [n] frames. *)
Fixpoint frames (solution : list State) (n : nat)
    (history : list R * list R) : option (list R * list R) :=
  match n with
  | O => Some history
  | S k =>
      match frames solution k history with
      | Some h => animate solution k h
      | None => None
      end
  end.

End Pendulum.

(** ** Circular arena: operations shared by the futbol variants

    The variants repeat the same functions with drifting constants; each
    function body is written once here, over its module-level constants, and
    instantiated in the module of each variant. *)

Definition set_pos (b : Ball) (x' y' : R) : Ball :=
  mkBall x' y' (vx b) (vy b) (radius b).
Definition set_vel (b : Ball) (vx' vy' : R) : Ball :=
  mkBall (x b) (y b) vx' vy' (radius b).

(** Distance of a body from a point, [math.hypot (b.x - cx, b.y - cy)]. *)
Definition dist_to (b : Ball) (cx cy : R) : R := hypot (x b - cx) (y b - cy).

(** [Ball.move] of futbol 1.1, 1.2: [x += vx; y += vy]. *)
Definition move_plain (self : Ball) : Ball :=
  set_pos self (x self + vx self) (y self + vy self).

(** [Ball.move] of futbol 1.3, 1.4: gravity, friction, position. *)
Definition move_with (GRAVITY FRICTION : R) (self : Ball) : Ball :=
  let vy1 := vy self + GRAVITY in
  let vx2 := vx self * FRICTION in
  let vy2 := vy1 * FRICTION in
  mkBall (x self + vx2) (y self + vy2) vx2 vy2 (radius self).

(** [Ball.collide_wall] of futbol 1.2: the velocity is reflected whenever
    the wall test holds; no damping factor. *)
Definition collide_wall_plain (self : Ball) (cx cy radius_ : R)
    : result (Ball * bool) :=
  let dx := x self - cx in
  let dy := y self - cy in
  let dist := hypot dx dy in
  if Rge_dec (dist + radius self) radius_ then
    nx <- pydiv dx dist ;;
    ny <- pydiv dy dist ;;
    let dot := vx self * nx + vy self * ny in
    let vx' := vx self - 2 * dot * nx in
    let vy' := vy self - 2 * dot * ny in
    let overlap := (dist + radius self) - radius_ in
    Ok (mkBall (x self - nx * overlap) (y self - ny * overlap) vx' vy'
               (radius self), true)
  else Ok (self, false).

(** [Ball.collide_wall] of futbol 1.3: as in 1.2, with the reflected
    velocity scaled by [BOUNCE_DAMPING]. *)
Definition collide_wall_always (BOUNCE_DAMPING : R) (self : Ball)
    (cx cy radius_ : R) : result (Ball * bool) :=
  let dx := x self - cx in
  let dy := y self - cy in
  let dist := hypot dx dy in
  if Rge_dec (dist + radius self) radius_ then
    nx <- pydiv dx dist ;;
    ny <- pydiv dy dist ;;
    let dot := vx self * nx + vy self * ny in
    let vx' := (vx self - 2 * dot * nx) * BOUNCE_DAMPING in
    let vy' := (vy self - 2 * dot * ny) * BOUNCE_DAMPING in
    let overlap := (dist + radius self) - radius_ in
    Ok (mkBall (x self - nx * overlap) (y self - ny * overlap) vx' vy'
               (radius self), true)
  else Ok (self, false).

(** [Ball.collide_wall] of futbol 1.4: the reflection sits under
    [if dot > 0]. *)
Definition collide_wall_gated (BOUNCE_DAMPING : R) (self : Ball)
    (cx cy radius_ : R) : result (Ball * bool) :=
  let dx := x self - cx in
  let dy := y self - cy in
  let dist := hypot dx dy in
  if Rge_dec (dist + radius self) radius_ then
    nx <- pydiv dx dist ;;
    ny <- pydiv dy dist ;;
    let dot := vx self * nx + vy self * ny in
    let self1 :=
      if Rgt_dec dot 0
      then set_vel self ((vx self - 2 * dot * nx) * BOUNCE_DAMPING)
                        ((vy self - 2 * dot * ny) * BOUNCE_DAMPING)
      else self in
    let overlap := (dist + radius self) - radius_ in
    Ok (set_pos self1 (x self1 - nx * overlap) (y self1 - ny * overlap), true)
  else Ok (self, false).

(** [check_ball_collision] of futbol 1.1: returns early, before the
    separation, when [speed_normal < 0]. *)
Definition check_ball_collision (b1 b2 : Ball) : result (Ball * Ball) :=
  let dx := x b2 - x b1 in
  let dy := y b2 - y b1 in
  let dist := hypot dx dy in
  if Rlt_dec dist (radius b1 + radius b2) then
    nx <- pydiv dx dist ;;
    ny <- pydiv dy dist ;;
    let dvx := vx b1 - vx b2 in
    let dvy := vy b1 - vy b2 in
    let speed_normal := dvx * nx + dvy * ny in
    if Rlt_dec speed_normal 0 then Ok (b1, b2)
    else
      let impulse := speed_normal in
      let overlap := (radius b1 + radius b2) - dist in
      Ok (mkBall (x b1 - nx * overlap / 2) (y b1 - ny * overlap / 2)
                 (vx b1 - impulse * nx) (vy b1 - impulse * ny) (radius b1),
          mkBall (x b2 + nx * overlap / 2) (y b2 + ny * overlap / 2)
                 (vx b2 + impulse * nx) (vy b2 + impulse * ny) (radius b2))
  else Ok (b1, b2).

(** [check_collision] of futbol 1.2: returns early when [impulse > 0]. *)
Definition check_collision (b1 b2 : Ball) : result (Ball * Ball) :=
  let dx := x b2 - x b1 in
  let dy := y b2 - y b1 in
  let dist := hypot dx dy in
  if Rlt_dec dist (radius b1 + radius b2) then
    nx <- pydiv dx dist ;;
    ny <- pydiv dy dist ;;
    let dvx := vx b1 - vx b2 in
    let dvy := vy b1 - vy b2 in
    let impulse := dvx * nx + dvy * ny in
    if Rgt_dec impulse 0 then Ok (b1, b2)
    else
      let overlap := (radius b1 + radius b2) - dist in
      Ok (mkBall (x b1 - nx * overlap * (5 / 10)) (y b1 - ny * overlap * (5 / 10))
                 (vx b1 - impulse * nx) (vy b1 - impulse * ny) (radius b1),
          mkBall (x b2 + nx * overlap * (5 / 10)) (y b2 + ny * overlap * (5 / 10))
                 (vx b2 + impulse * nx) (vy b2 + impulse * ny) (radius b2))
  else Ok (b1, b2).

(** [resolve_collisions] of futbol 1.3, 1.4: a zero distance is replaced by
    0.1, the pair is separated first, the impulse is skipped when
    [vel_normal > 0]. *)
Definition resolve_collisions_with (ELASTICITY : R) (b1 b2 : Ball)
    : result (Ball * Ball) :=
  let dx := x b2 - x b1 in
  let dy := y b2 - y b1 in
  let dist := hypot dx dy in
  if Rlt_dec dist (radius b1 + radius b2) then
    let dist := if Req_dec_T dist 0 then 1 / 10 else dist in
    nx <- pydiv dx dist ;;
    ny <- pydiv dy dist ;;
    let overlap := (radius b1 + radius b2) - dist in
    let b1 := set_pos b1 (x b1 - nx * overlap * (5 / 10))
                         (y b1 - ny * overlap * (5 / 10)) in
    let b2 := set_pos b2 (x b2 + nx * overlap * (5 / 10))
                         (y b2 + ny * overlap * (5 / 10)) in
    let dvx := vx b1 - vx b2 in
    let dvy := vy b1 - vy b2 in
    let vel_normal := dvx * nx + dvy * ny in
    if Rgt_dec vel_normal 0 then Ok (b1, b2)
    else
      let j := - (1 + ELASTICITY) * vel_normal / 2 in
      Ok (set_vel b1 (vx b1 + j * nx) (vy b1 + j * ny),
          set_vel b2 (vx b2 - j * nx) (vy b2 - j * ny))
  else Ok (b1, b2).

(** The angle normalisation of the goal test:
    [while diff > math.pi: diff = abs (diff - 2 * math.pi)].
    [wrap_loop] runs the loop for at most [fuel] iterations; [wrap] runs it
    with the number of iterations that [diff] can need. *)
Fixpoint wrap_loop (fuel : nat) (diff : R) : option R :=
  match fuel with
  | O => None
  | S k =>
      if Rgt_dec diff PI then wrap_loop k (Rabs (diff - 2 * PI)) else Some diff
  end.

Definition wrap_fuel (diff : R) : nat :=
  S (Z.to_nat (up (diff / (2 * PI)))).

Definition wrap (diff : R) : R :=
  match wrap_loop (wrap_fuel diff) diff with
  | Some r => r
  | None => diff
  end.

(** futbol 1.1, 1.2: [diff = abs (ball_angle - goal_angle)] and the loop. *)
Definition angle_diff (ball_ang goal_angle : R) : R :=
  wrap (Rabs (ball_ang - goal_angle)).

(** futbol 1.3, 1.4: both angles are first reduced modulo [2 * pi]. *)
Definition angle_diff_norm (ball_ang goal_angle : R) : R :=
  let goal_n := pymod goal_angle (2 * PI) in
  let ball_n := pymod ball_ang (2 * PI) in
  wrap (Rabs (ball_n - goal_n)).

(** ** Match clock and pitch state of futbol 1.2 to 1.4 *)

(** The time-management variables of the main loop.  [state] is the Python
    string itself. *)
Record Clock : Type := mkClock {
  state : string;
  frame_counter : Z;
  added_time_1 : Z;
  added_time_2 : Z;
  display_added_time : bool;
  sim_minute : Z
}.

(** [state in ["FIRST_HALF", "SECOND_HALF"]]. *)
Definition playing (st : string) : bool :=
  existsb (String.eqb st) ["FIRST_HALF"; "SECOND_HALF"]%string.

(** The body of [if state in ["FIRST_HALF", "SECOND_HALF"]:] that manages
    the timer.  [HT] is the string that the variant assigns to [state] when
    the first half ends. *)
Definition timer_logic (FRAMES_PER_SIM_MINUTE : Z) (HT : string) (c : Clock)
    : Clock :=
  let frame_counter' := (frame_counter c + 1)%Z in
  let total_mins_played := (frame_counter' / FRAMES_PER_SIM_MINUTE)%Z in
  if (state c =? "FIRST_HALF")%string then
    let sim_minute' := total_mins_played in
    if (45 <=? sim_minute')%Z then
      if (45 + added_time_1 c <=? sim_minute')%Z
      then mkClock HT frame_counter' (added_time_1 c) (added_time_2 c)
                   true sim_minute'
      else mkClock (state c) frame_counter' (added_time_1 c) (added_time_2 c)
                   true sim_minute'
    else mkClock (state c) frame_counter' (added_time_1 c) (added_time_2 c)
                 false sim_minute'
  else if (state c =? "SECOND_HALF")%string then
    let sim_minute' := (45 + total_mins_played)%Z in
    if (90 <=? sim_minute')%Z then
      if (90 + added_time_2 c <=? sim_minute')%Z
      then mkClock "FULLTIME" frame_counter' (added_time_1 c) (added_time_2 c)
                   true sim_minute'
      else mkClock (state c) frame_counter' (added_time_1 c) (added_time_2 c)
                   true sim_minute'
    else mkClock (state c) frame_counter' (added_time_1 c) (added_time_2 c)
                 false sim_minute'
  else mkClock (state c) frame_counter' (added_time_1 c) (added_time_2 c)
               (display_added_time c) (sim_minute c).

(** The clock part of the block [if state == "HALFTIME":] that ends every
    iteration (the kick-off respawn of 1.3 and 1.4 in the same block acts on
    the balls only). *)
Definition halftime_transition (c : Clock) : Clock :=
  if (state c =? "HALFTIME")%string
  then mkClock "SECOND_HALF" 0 (added_time_1 c) (added_time_2 c) false
               (sim_minute c)
  else c.

(** The random source: the outcome of the [n]-th [random] call. [choice]
    selects the second element of a two-element list when it is [true];
    [random_unit] is the value of [random.random ()]. *)
Record Oracle : Type := mkOracle {
  choice : nat -> bool;
  random_unit : nat -> R
}.

(** [random.choice ([-s, s])] at call [n]. *)
Definition choice_pm (o : Oracle) (n : nat) (s : R) : R :=
  if choice o n then s else - s.

(** [random.uniform (a, b)] at call [n]. *)
Definition uniform (o : Oracle) (n : nat) (a b : R) : R :=
  a + (b - a) * random_unit o n.

(** The two ball objects are told apart by the variable that holds them. *)
Inductive Slot : Type := B1 | B2.

(** Balls, score and goal variables of the main loop; [calls] counts the
    [random] calls made so far. *)
Record Pitch : Type := mkPitch {
  ball1 : Ball;
  ball2 : Ball;
  score1 : Z;
  score2 : Z;
  goal_angle : R;
  goal_rotating : bool;
  calls : nat
}.

Definition ball_of (b : Slot) (p : Pitch) : Ball :=
  match b with B1 => ball1 p | B2 => ball2 p end.

Definition set_balls (p : Pitch) (b1 b2 : Ball) : Pitch :=
  mkPitch b1 b2 (score1 p) (score2 p) (goal_angle p) (goal_rotating p) (calls p).

(** [if goal_rotating: goal_angle = (goal_angle + goal_rot_speed) % (2 * pi)]. *)
Definition rotate_goal (goal_rot_speed : R) (p : Pitch) : Pitch :=
  if goal_rotating p
  then mkPitch (ball1 p) (ball2 p) (score1 p) (score2 p)
               (pymod (goal_angle p + goal_rot_speed) (2 * PI))
               (goal_rotating p) (calls p)
  else p.

(** ** futbol 1.1 *)

Module Futbol11.
Definition ARENA_RADIUS : R := 220.
Definition BALL_RADIUS : R := 30.
Definition move := move_plain.
Definition check_ball_collision := check_ball_collision.
End Futbol11.

(** ** futbol 1.2 *)

Module Futbol12.

Definition WIDTH : Z := 600.
Definition HEIGHT : Z := 800.
Definition FRAMES_PER_SIM_MINUTE : Z := 30.
Definition ARENA_RADIUS : R := 260.
Definition BALL_RADIUS : R := 30.
Definition GOAL_WIDTH_RADIANS : R := 35 / 100.
Definition SPEED : R := 45 / 10.
Definition center_x : R := IZR (WIDTH / 2).
Definition center_y : R := IZR (HEIGHT / 2).
Definition goal_rot_speed : R := 15 / 1000.

Definition move := move_plain.
Definition collide_wall := collide_wall_plain.
Definition check_collision := check_collision.

(** [Ball (x, y, ...)]: two [random.choice] calls for the velocity. *)
Definition new_ball (o : Oracle) (n : nat) (x0 y0 : R) : Ball :=
  mkBall x0 y0 (choice_pm o n SPEED) (choice_pm o (n + 1) SPEED) BALL_RADIUS.

Definition init_pitch (o : Oracle) : Pitch :=
  mkPitch (new_ball o 0 (center_x - 60) center_y)
          (new_ball o 2 (center_x + 60) center_y)
          0 0 (PI / 2) false 4.

Definition init_clock (a1 a2 : Z) : Clock :=
  mkClock "FIRST_HALF" 0 a1 a2 false 0.

(** 1. Timer logic. *)
Definition timer (c : Clock) : Clock :=
  if playing (state c) then timer_logic FRAMES_PER_SIM_MINUTE "HALFTIME" c
  else c.

(** The block under [# GOAL!], reached for the ball in slot [b]. *)
Definition goal (o : Oracle) (b : Slot) (p : Pitch) : Pitch :=
  let score1' := match b with B1 => (score1 p + 1)%Z | B2 => score1 p end in
  let score2' := match b with B1 => score2 p | B2 => (score2 p + 1)%Z end in
  let rotating' :=
    if (1 <=? score1' + score2')%Z then true else goal_rotating p in
  let n := calls p in
  mkPitch
    (mkBall (center_x - 60) center_y
            (choice_pm o n SPEED) (choice_pm o (n + 1) SPEED)
            (radius (ball1 p)))
    (mkBall (center_x + 60) center_y
            (choice_pm o (n + 2) SPEED) (choice_pm o (n + 3) SPEED)
            (radius (ball2 p)))
    score1' score2' (PI / 2) rotating' (n + 4).

(** The body of the goal-detection loop for the ball in slot [b]. *)
Definition goal_check (o : Oracle) (b : Slot) (p : Pitch) : Pitch :=
  let bb := ball_of b p in
  let dist := hypot (x bb - center_x) (y bb - center_y) in
  if Rgt_dec dist (ARENA_RADIUS - radius bb - 5) then
    let ball_ang := atan2 (y bb - center_y) (x bb - center_x) in
    let diff := angle_diff ball_ang (goal_angle p) in
    if Rlt_dec diff (GOAL_WIDTH_RADIANS / 2) then goal o b p else p
  else p.

(** The goal condition: near the wall and within the half-width of the
    goal. *)
Definition in_goal (b : Slot) (p : Pitch) : Prop :=
  let bb := ball_of b p in
  hypot (x bb - center_x) (y bb - center_y) > ARENA_RADIUS - radius bb - 5 /\
  angle_diff (atan2 (y bb - center_y) (x bb - center_x)) (goal_angle p)
    < GOAL_WIDTH_RADIANS / 2.

(** [for b in [ball1, ball2]: ...] *)
Definition goal_detection (o : Oracle) (p : Pitch) : Pitch :=
  fold_left (fun q b => goal_check o b q) [B1; B2] p.

(** [b.move (); b.collide_wall (center_x, center_y, ARENA_RADIUS)] *)
Definition move_and_collide (b : Ball) : result Ball :=
  '(b', _) <- collide_wall (move b) center_x center_y ARENA_RADIUS ;;
  Ok b'.

(** The physics block up to the goal detection: wall pass, then the
    pairwise check. *)
Definition collisions (p : Pitch) : result Pitch :=
  b1 <- move_and_collide (ball1 p) ;;
  b2 <- move_and_collide (ball2 p) ;;
  '(b1', b2') <- check_collision b1 b2 ;;
  Ok (set_balls p b1' b2').

(** 2. Physics (only while playing). *)
Definition physics (o : Oracle) (c : Clock) (p : Pitch) : result Pitch :=
  if playing (state c) then
    p1 <- collisions (rotate_goal goal_rot_speed p) ;;
    Ok (goal_detection o p1)
  else Ok p.

(** The logic part of one iteration of the main loop. *)
Definition tick (o : Oracle) (w : Clock * Pitch) : result (Clock * Pitch) :=
  let c1 := timer (fst w) in
  p1 <- physics o c1 (snd w) ;;
  Ok (halftime_transition c1, p1).

(** The clock alone: what [tick] does to the time-management variables. *)
Definition clock_tick (c : Clock) : Clock := halftime_transition (timer c).

Fixpoint clock_run (n : nat) (c : Clock) : Clock :=
  match n with
  | O => c
  | S k => clock_run k (clock_tick c)
  end.

End Futbol12.

(** ** Random spawn (futbol 1.3, 1.4) *)

(** The integer source: [randint d n a b] is the outcome of the [n]-th
    [random] call when it is [random.randint (a, b)]. *)
Record Dice : Type := mkDice {
  randint : nat -> Z -> Z -> Z
}.

(** [get_random_spawn (cx, cy, r_limit)], started after [n] [random] calls.
    [fuel] bounds the number of passes of its [while True:] loop; [None]
    says that the loop has not returned within that many passes.  The
    result carries the number of [random] calls made. *)
Fixpoint get_random_spawn_with (BALL_RADIUS : R) (fuel : nat) (d : Dice)
    (n : nat) (cx cy : Z) (r_limit : R) : option (Z * Z * nat) :=
  match fuel with
  | O => None
  | S k =>
      let rx := randint d n (cx - 150) (cx + 150) in
      let ry := randint d (n + 1) (cy - 200) (cy + 50) in
      let dist := hypot (IZR (rx - cx)) (IZR (ry - cy)) in
      if Rlt_dec dist (r_limit - BALL_RADIUS - 10)
      then Some (rx, ry, (n + 2)%nat)
      else get_random_spawn_with BALL_RADIUS k d (n + 2) cx cy r_limit
  end.

(** ** futbol 1.3 *)

Module Futbol13.

Definition ARENA_RADIUS : R := 260.
Definition BALL_RADIUS : R := 30.
Definition GOAL_WIDTH_RADIANS : R := 35 / 100.
Definition GRAVITY : R := 5 / 1000.
Definition BOUNCE_DAMPING : R := 995 / 1000.
Definition FRICTION : R := 995 / 1000.
Definition ELASTICITY : R := 95 / 100.
Definition FRAMES_PER_SIM_MINUTE : Z := 30.

Definition move := move_with GRAVITY FRICTION.
Definition collide_wall := collide_wall_always BOUNCE_DAMPING.
Definition resolve_collisions := resolve_collisions_with ELASTICITY.

(** The timer logic and the closing [if state == "HALFTIME":] block. *)
Definition clock_tick (c : Clock) : Clock :=
  halftime_transition
    (if playing (state c) then timer_logic FRAMES_PER_SIM_MINUTE "HALFTIME" c
     else c).

Definition WIDTH : Z := 600.
Definition HEIGHT : Z := 800.
Definition center_x : Z := (WIDTH / 2)%Z.
Definition center_y : Z := (HEIGHT / 2)%Z.

Definition get_random_spawn := get_random_spawn_with BALL_RADIUS.

(** The block under [# GOAL!], reached for the ball in slot [b]; the goal
    angle is left as it is.  [None] when a spawn has not returned. *)
Definition goal (fuel : nat) (o : Oracle) (d : Dice) (b : Slot) (p : Pitch)
  : option Pitch :=
  let score1' := match b with B1 => (score1 p + 1)%Z | B2 => score1 p end in
  let score2' := match b with B1 => score2 p | B2 => (score2 p + 1)%Z end in
  let rotating' :=
    if (1 <=? score1' + score2')%Z then true else goal_rotating p in
  match get_random_spawn fuel d (calls p) center_x center_y ARENA_RADIUS with
  | None => None
  | Some (rx1, ry1, n1) =>
      match get_random_spawn fuel d n1 center_x center_y ARENA_RADIUS with
      | None => None
      | Some (rx2, ry2, n2) =>
          Some (mkPitch
                  (mkBall (IZR rx1) (IZR ry1)
                          (uniform o n2 (-6) 6) (uniform o (n2 + 1) (-6) 6)
                          (radius (ball1 p)))
                  (mkBall (IZR rx2) (IZR ry2)
                          (uniform o (n2 + 2) (-6) 6)
                          (uniform o (n2 + 3) (-6) 6)
                          (radius (ball2 p)))
                  score1' score2' (goal_angle p) rotating' (n2 + 4))
      end
  end.

(** The goal condition of the loop: near the wall and within the
    half-width of the goal. *)
Definition in_goal (b : Slot) (p : Pitch) : Prop :=
  let bb := ball_of b p in
  hypot (x bb - IZR center_x) (y bb - IZR center_y)
    > ARENA_RADIUS - radius bb - 10 /\
  angle_diff_norm (atan2 (y bb - IZR center_y) (x bb - IZR center_x))
                  (goal_angle p)
    < GOAL_WIDTH_RADIANS / 2.

(** The body of the goal-detection loop for the ball in slot [b]. *)
Definition goal_check (fuel : nat) (o : Oracle) (d : Dice) (b : Slot)
    (p : Pitch) : option Pitch :=
  let bb := ball_of b p in
  let dist := hypot (x bb - IZR center_x) (y bb - IZR center_y) in
  if Rgt_dec dist (ARENA_RADIUS - radius bb - 10) then
    let ball_ang := atan2 (y bb - IZR center_y) (x bb - IZR center_x) in
    let diff := angle_diff_norm ball_ang (goal_angle p) in
    if Rlt_dec diff (GOAL_WIDTH_RADIANS / 2) then goal fuel o d b p
    else Some p
  else Some p.

(** [for b in [ball1, ball2]: ...] *)
Definition goal_detection (fuel : nat) (o : Oracle) (d : Dice) (p : Pitch)
  : option Pitch :=
  match goal_check fuel o d B1 p with
  | None => None
  | Some p1 => goal_check fuel o d B2 p1
  end.

End Futbol13.

(** ** futbol 1.4 *)

Module Futbol14.

Definition WIDTH : Z := 600.
Definition HEIGHT : Z := 800.
Definition FRAMES_PER_SIM_MINUTE : Z := 30.
Definition ARENA_RADIUS : R := 260.
Definition BALL_RADIUS : R := 40.
Definition GOAL_WIDTH_RADIANS : R := 30 / 100.
Definition SPEED : R := 55 / 10.
Definition GRAVITY : R := 0.
Definition BOUNCE_DAMPING : R := 9995 / 10000.
Definition FRICTION : R := 9999 / 10000.
Definition ELASTICITY : R := 999999999999 / 1000000000000.
Definition center_x : R := IZR (WIDTH / 2).
Definition center_y : R := IZR (HEIGHT / 2).
Definition goal_rot_speed : R := 15 / 1000.

Definition move := move_with GRAVITY FRICTION.
Definition collide_wall := collide_wall_gated BOUNCE_DAMPING.
Definition resolve_collisions := resolve_collisions_with ELASTICITY.

(** The label of a goal, [f"{sim_minute}'"] or [f"{sim_minute}+'"]: the
    minute and whether the [+] is printed. *)
Record TimeMark : Type := mkTimeMark {
  minute : Z;
  plus : bool
}.

(** The variables of the main loop. *)
Record World : Type := mkWorld {
  clock : Clock;
  pitch : Pitch;
  goll_timer : Z;
  goal_events_1 : list TimeMark;
  goal_events_2 : list TimeMark
}.

(** The string assigned to [state] when the first half ends. *)
Definition HALF_LABEL : string := "Devre arasÄ±".

Definition init_clock (a1 a2 : Z) : Clock :=
  mkClock "FIRST_HALF" 0 a1 a2 false 0.

Definition timer (c : Clock) : Clock :=
  timer_logic FRAMES_PER_SIM_MINUTE HALF_LABEL c.

(** One pass of the solver loop. *)
Definition solver_pass (bb : Ball * Ball) : result (Ball * Ball) :=
  '(b1, _) <- collide_wall (fst bb) center_x center_y ARENA_RADIUS ;;
  '(b2, _) <- collide_wall (snd bb) center_x center_y ARENA_RADIUS ;;
  resolve_collisions b1 b2.

(** [for _ in range (n): ...] *)
Fixpoint solver (n : nat) (bb : Ball * Ball) : result (Ball * Ball) :=
  match n with
  | O => Ok bb
  | S k => bb' <- solver_pass bb ;; solver k bb'
  end.

(** [random.choice ([-SPEED, SPEED]) * random.uniform (0.8, 1.2)], two
    calls. *)
Definition tempo (o : Oracle) (n : nat) : R :=
  choice_pm o n SPEED * uniform o (n + 1) (8 / 10) (12 / 10).

(** The block under [# GOAL!], reached for the ball in slot [b]. *)
Definition goal (o : Oracle) (b : Slot) (w : World) : World :=
  let p := pitch w in
  let time_mark :=
    mkTimeMark (sim_minute (clock w)) (display_added_time (clock w)) in
  let score1' := match b with B1 => (score1 p + 1)%Z | B2 => score1 p end in
  let score2' := match b with B1 => score2 p | B2 => (score2 p + 1)%Z end in
  let events1 :=
    match b with
    | B1 => (goal_events_1 w ++ [time_mark])%list
    | B2 => goal_events_1 w
    end in
  let events2 :=
    match b with
    | B1 => goal_events_2 w
    | B2 => (goal_events_2 w ++ [time_mark])%list
    end in
  let b1 :=
    match b with
    | B1 => set_pos (ball1 p) center_x center_y
    | B2 => ball1 p
    end in
  let b2 :=
    match b with
    | B1 => ball2 p
    | B2 => set_pos (ball2 p) center_x center_y
    end in
  let rotating' :=
    if (1 <=? score1' + score2')%Z then true else goal_rotating p in
  let n := calls p in
  mkWorld (clock w)
    (mkPitch (set_vel b1 (tempo o n) (tempo o (n + 2)))
             (set_vel b2 (tempo o (n + 4)) (tempo o (n + 6)))
             score1' score2' (goal_angle p) rotating' (n + 8))
    90 events1 events2.

(** The body of the goal-detection loop for the ball in slot [b]. *)
Definition goal_check (o : Oracle) (b : Slot) (w : World) : World :=
  let p := pitch w in
  let bb := ball_of b p in
  let dist := hypot (x bb - center_x) (y bb - center_y) in
  if Rgt_dec dist (ARENA_RADIUS - radius bb - 10) then
    let ball_ang := atan2 (y bb - center_y) (x bb - center_x) in
    let diff := angle_diff_norm ball_ang (goal_angle p) in
    if Rlt_dec diff (GOAL_WIDTH_RADIANS / 2) then goal o b w else w
  else w.

(** The goal condition: near the wall and within the half-width of the
    goal. *)
Definition in_goal (b : Slot) (w : World) : Prop :=
  let bb := ball_of b (pitch w) in
  hypot (x bb - center_x) (y bb - center_y) > ARENA_RADIUS - radius bb - 10 /\
  angle_diff_norm (atan2 (y bb - center_y) (x bb - center_x))
                  (goal_angle (pitch w))
    < GOAL_WIDTH_RADIANS / 2.

(** [for b in [ball1, ball2]: ...] *)
Definition goal_detection (o : Oracle) (w : World) : World :=
  fold_left (fun v b => goal_check o b v) [B1; B2] w.

(** The physics part of the [if state in [...]] block: goal rotation,
    [goll_timer], moves, solver loop, goal detection. *)
Definition physics (o : Oracle) (w : World) : result World :=
  let p := rotate_goal goal_rot_speed (pitch w) in
  let goll_timer' :=
    if (0 <? goll_timer w)%Z then (goll_timer w - 1)%Z else goll_timer w in
  let b1 := move (ball1 p) in
  let b2 := move (ball2 p) in
  '(b1', b2') <- solver 8 (b1, b2) ;;
  Ok (goal_detection o
        (mkWorld (clock w) (set_balls p b1' b2') goll_timer'
                 (goal_events_1 w) (goal_events_2 w))).

Definition get_random_spawn := get_random_spawn_with BALL_RADIUS.

(** The block [if state == "HALFTIME":] once entered: the clock of the
    second half and the kick-off respawn, two [get_random_spawn] calls whose
    points become the positions of the two balls.  [None] when a spawn has
    not returned within [fuel] passes. *)
Definition kickoff (fuel : nat) (d : Dice) (w : World) : option World :=
  let p := pitch w in
  match get_random_spawn fuel d (calls p) (WIDTH / 2)%Z (HEIGHT / 2)%Z
                         ARENA_RADIUS with
  | None => None
  | Some (rx1, ry1, n1) =>
      match get_random_spawn fuel d n1 (WIDTH / 2)%Z (HEIGHT / 2)%Z
                             ARENA_RADIUS with
      | None => None
      | Some (rx2, ry2, n2) =>
          Some (mkWorld
                  (mkClock "SECOND_HALF" 0 (added_time_1 (clock w))
                           (added_time_2 (clock w)) false
                           (sim_minute (clock w)))
                  (mkPitch (set_pos (ball1 p) (IZR rx1) (IZR ry1))
                           (set_pos (ball2 p) (IZR rx2) (IZR ry2))
                           (score1 p) (score2 p) (goal_angle p)
                           (goal_rotating p) n2)
                  (goll_timer w) (goal_events_1 w) (goal_events_2 w))
      end
  end.

(** The logic part of one iteration of the main loop; the timer and the
    physics share one [if state in ["FIRST_HALF", "SECOND_HALF"]:], and the
    block [if state == "HALFTIME":] closes the iteration.  [None] when a
    spawn loop of that block has not returned within [fuel] passes. *)
Definition tick (fuel : nat) (o : Oracle) (d : Dice) (w : World)
  : option (result World) :=
  match (if playing (state (clock w))
         then physics o (mkWorld (timer (clock w)) (pitch w) (goll_timer w)
                                 (goal_events_1 w) (goal_events_2 w))
         else Ok w) with
  | ZeroDivisionError => Some ZeroDivisionError
  | Ok w1 =>
      if (state (clock w1) =? "HALFTIME")%string
      then option_map Ok (kickoff fuel d w1)
      else Some (Ok w1)
  end.

(** The clock alone: what [tick] does to the time-management variables. *)
Definition clock_tick (c : Clock) : Clock :=
  halftime_transition (if playing (state c) then timer c else c).

Fixpoint clock_run (n : nat) (c : Clock) : Clock :=
  match n with
  | O => c
  | S k => clock_run k (clock_tick c)
  end.

End Futbol14.

(** ** Wall check and pair response of the marble programs

    [check_wall_collision] of futbol 1.5, 1.6 and 2.1 has one body, up to
    the factor applied to the reflected velocity; the normal is taken from
    the angle of the centre offset, so nothing is divided. *)
Definition check_wall_collision_with (LOSS : R) (self : Ball)
    (center_x center_y arena_radius : R) : Ball :=
  let dx := x self - center_x in
  let dy := y self - center_y in
  let dist := hypot dx dy in
  if Rgt_dec (dist + radius self) arena_radius then
    let angle := atan2 dy dx in
    let overlap := (dist + radius self) - arena_radius in
    let x1 := x self - cos angle * overlap in
    let y1 := y self - sin angle * overlap in
    let nx := cos angle in
    let ny := sin angle in
    let dot := vx self * nx + vy self * ny in
    let vx1 := vx self - 2 * dot * nx in
    let vy1 := vy self - 2 * dot * ny in
    mkBall x1 y1 (vx1 * LOSS) (vy1 * LOSS) (radius self)
  else self.

(** The body of the marble-to-marble loop of futbol 1.5 for one pair: push
    apart by half the overlap each, then exchange the velocities. *)
Definition exchange_collision (o1 o2 : Ball) : Ball * Ball :=
  let dx := x o2 - x o1 in
  let dy := y o2 - y o1 in
  let dist := hypot dx dy in
  if Rlt_dec dist (radius o1 + radius o2) then
    let angle := atan2 dy dx in
    let overlap := (radius o1 + radius o2 - dist) / 2 in
    (mkBall (x o1 - cos angle * overlap) (y o1 - sin angle * overlap)
            (vx o2) (vy o2) (radius o1),
     mkBall (x o2 + cos angle * overlap) (y o2 + sin angle * overlap)
            (vx o1) (vy o1) (radius o2))
  else (o1, o2).

(** ** futbol 1.5 *)

Module Futbol15.

Record Marble : Type := mkMarble {
  x : R;
  y : R;
  radius : R;
  vx : R;
  vy : R;
  is_ball : bool;
  mass : R
}.

(** [Marble.move]: position first, then friction. *)
Definition move (self : Marble) : Marble :=
  let x1 := x self + vx self in
  let y1 := y self + vy self in
  mkMarble x1 y1 (radius self)
           (vx self * (995 / 1000)) (vy self * (995 / 1000))
           (is_ball self) (mass self).

Definition WIDTH : Z := 600.
Definition HEIGHT : Z := 900.
Definition ARENA_RADIUS : R := 280.
Definition MARBLE_RADIUS : R := 35.
Definition BALL_RADIUS : R := 20.

(** The fields of a marble that the wall check and the pair loop read and
    write, and their write-back. *)
Definition body (m : Marble) : Ball :=
  mkBall (x m) (y m) (vx m) (vy m) (radius m).

Definition with_body (m : Marble) (b : Ball) : Marble :=
  match b with
  | mkBall x1 y1 vx1 vy1 _ =>
      mkMarble x1 y1 (radius m) vx1 vy1 (is_ball m) (mass m)
  end.

Definition check_wall_collision (self : Marble)
    (center_x center_y arena_radius : R) : Marble :=
  with_body self
    (check_wall_collision_with (9 / 10) (body self)
       center_x center_y arena_radius).

(** One pair [(o1, o2)] of the marble-to-marble loop. *)
Definition collide (o1 o2 : Marble) : Marble * Marble :=
  let '(b1, b2) := exchange_collision (body o1) (body o2) in
  (with_body o1 b1, with_body o2 b2).

(** [objects = [team1, team2, ball]]; the loop visits the pairs
    [(0, 1)], [(0, 2)], [(1, 2)] in this order. *)
Definition marble_collisions (objects : Marble * Marble * Marble)
  : Marble * Marble * Marble :=
  let '(team1, team2, ball) := objects in
  let '(team1, team2) := collide team1 team2 in
  let '(team1, ball) := collide team1 ball in
  let '(team2, ball) := collide team2 ball in
  (team1, team2, ball).

End Futbol15.

(** ** futbol 1.6 *)

Module Futbol16.

Definition WIDTH : Z := 600.
Definition HEIGHT : Z := 900.
Definition ARENA_RADIUS : R := 280.
Definition MARBLE_RADIUS : R := 30.

(** A marble has the fields of [Ball]; its initial velocity components are
    drawn from [[-8, -6, 6, 8]] and are arguments here. *)
Definition new_marble (x0 y0 vx0 vy0 : R) : Ball :=
  mkBall x0 y0 vx0 vy0 MARBLE_RADIUS.

Definition move := move_plain.
Definition check_wall_collision := check_wall_collision_with (95 / 100).

Definition cx : R := IZR (WIDTH / 2).
Definition cy : R := IZR (HEIGHT / 2).

(** Physics logic of the main loop, for the two marbles. *)
Definition tick (mm : Ball * Ball) : Ball * Ball :=
  let '(marble1, marble2) := mm in
  (check_wall_collision (move marble1) cx cy ARENA_RADIUS,
   check_wall_collision (move marble2) cx cy ARENA_RADIUS).

Fixpoint run (n : nat) (mm : Ball * Ball) : Ball * Ball :=
  match n with
  | O => mm
  | S k => run k (tick mm)
  end.

End Futbol16.

(** ** futbol 2.1 *)

Module Futbol21.

Definition WIDTH : Z := 540.
Definition HEIGHT : Z := 960.
Definition FRICTION : R := 995 / 1000.
Definition ELASTICITY : R := 8 / 10.
Definition PLAYER_SPEED : R := 2 / 10.
Definition MAX_SPEED : R := 12.
Definition CENTER : Z * Z := ((WIDTH / 2)%Z, (HEIGHT / 2)%Z).
Definition ARENA_RADIUS : R := 250.
Definition GOAL_WIDTH : Z := 100.
Definition BALL_RADIUS : R := 15.
Definition PLAYER_RADIUS : R := 30.

Record PhysicsObject : Type := mkObject {
  x : R;
  y : R;
  vx : R;
  vy : R;
  radius : R;
  mass : R
}.

(** [PhysicsObject (x, y, radius, mass, ...)]: the velocity components are
    the [random.choice ([-5, 5])] calls [n] and [n + 1]. *)
Definition new_object (o : Oracle) (n : nat) (x0 y0 radius0 mass0 : R)
  : PhysicsObject :=
  mkObject x0 y0 (choice_pm o n 5) (choice_pm o (S n) 5) radius0 mass0.

(** [PhysicsObject.move]: position first, then friction. *)
Definition move (self : PhysicsObject) : PhysicsObject :=
  mkObject (x self + vx self) (y self + vy self)
           (vx self * FRICTION) (vy self * FRICTION)
           (radius self) (mass self).

Definition body (p : PhysicsObject) : Ball :=
  mkBall (x p) (y p) (vx p) (vy p) (radius p).

Definition with_body (p : PhysicsObject) (b : Ball) : PhysicsObject :=
  match b with
  | mkBall x1 y1 vx1 vy1 _ => mkObject x1 y1 vx1 vy1 (radius p) (mass p)
  end.

Definition check_wall_collision (self : PhysicsObject) : PhysicsObject :=
  with_body self
    (check_wall_collision_with ELASTICITY (body self)
       (IZR (fst CENTER)) (IZR (snd CENTER)) ARENA_RADIUS).

(** The attributes of [FootballSim] that the loop updates; [players] is
    [[p1, p2]] and holds the same objects as the two attributes.  [calls]
    counts the [random] calls made so far. *)
Record FootballSim : Type := mkSim {
  ball : PhysicsObject;
  p1 : PhysicsObject;
  p2 : PhysicsObject;
  score_team1 : Z;
  score_team2 : Z;
  match_time : Z;
  goal_timer : Z;
  calls : nat
}.

(** The three objects that [reset_positions] creates, in the order of
    their [random] calls, the first being call [n]. *)
Definition kickoff (o : Oracle) (n : nat)
  : PhysicsObject * PhysicsObject * PhysicsObject :=
  let cx := IZR (fst CENTER) in
  let cy := IZR (snd CENTER) in
  (new_object o n cx cy BALL_RADIUS 1,
   new_object o (n + 2) cx (cy - 100) PLAYER_RADIUS 5,
   new_object o (n + 4) cx (cy + 100) PLAYER_RADIUS 5).

Definition reset_positions (o : Oracle) (s : FootballSim) : FootballSim :=
  let '(b, q1, q2) := kickoff o (calls s) in
  mkSim b q1 q2 (score_team1 s) (score_team2 s) (match_time s) (goal_timer s)
        (calls s + 6).

(** [FootballSim.__init__], from the count [n] of earlier [random] calls. *)
Definition init (o : Oracle) (n : nat) : FootballSim :=
  let '(b, q1, q2) := kickoff o n in
  mkSim b q1 q2 0 0 0 0 (n + 6).

(** The body of the loop of [handle_collisions] for the player [p]. *)
Definition collide_player (b p : PhysicsObject)
  : result (PhysicsObject * PhysicsObject) :=
  let dx := x b - x p in
  let dy := y b - y p in
  let dist := hypot dx dy in
  if Rlt_dec dist (radius b + radius p) then
    let angle := atan2 dy dx in
    let overlap := (radius b + radius p) - dist in
    let bx := x b + cos angle * overlap in
    let by_ := y b + sin angle * overlap in
    nx <- pydiv dx dist ;;
    ny <- pydiv dy dist ;;
    let dvx := vx b - vx p in
    let dvy := vy b - vy p in
    let impact_speed := dvx * nx + dvy * ny in
    if Rgt_dec impact_speed 0
    then Ok (mkObject bx by_ (vx b) (vy b) (radius b) (mass b), p)
    else
      impulse <- pydiv (2 * impact_speed) (mass b + mass p) ;;
      Ok (mkObject bx by_
                   (vx b - impulse * mass p * nx)
                   (vy b - impulse * mass p * ny)
                   (radius b) (mass b),
          mkObject (x p) (y p)
                   (vx p + impulse * mass b * nx)
                   (vy p + impulse * mass b * ny)
                   (radius p) (mass p))
  else Ok (b, p).

Definition handle_collisions (s : FootballSim) : result FootballSim :=
  '(b1, q1) <- collide_player (ball s) (p1 s) ;;
  '(b2, q2) <- collide_player b1 (p2 s) ;;
  Ok (mkSim b2 q1 q2 (score_team1 s) (score_team2 s) (match_time s)
            (goal_timer s) (calls s)).

(** The body of the loop of [ai_movement] for the player [p]. *)
Definition accelerate (b p : PhysicsObject) : result PhysicsObject :=
  let dx := x b - x p in
  let dy := y b - y p in
  let angle := atan2 dy dx in
  let vx1 := vx p + cos angle * PLAYER_SPEED in
  let vy1 := vy p + sin angle * PLAYER_SPEED in
  let speed := hypot vx1 vy1 in
  if Rgt_dec speed MAX_SPEED then
    scale <- pydiv MAX_SPEED speed ;;
    Ok (mkObject (x p) (y p) (vx1 * scale) (vy1 * scale) (radius p) (mass p))
  else Ok (mkObject (x p) (y p) vx1 vy1 (radius p) (mass p)).

Definition ai_movement (s : FootballSim) : result FootballSim :=
  q1 <- accelerate (ball s) (p1 s) ;;
  q2 <- accelerate (ball s) (p2 s) ;;
  Ok (mkSim (ball s) q1 q2 (score_team1 s) (score_team2 s) (match_time s)
            (goal_timer s) (calls s)).

Definition trigger_goal (o : Oracle) (s : FootballSim) : FootballSim :=
  reset_positions o
    (mkSim (ball s) (p1 s) (p2 s) (score_team1 s) (score_team2 s)
           (match_time s) 60 (calls s)).

Definition in_goal_width (s : FootballSim) : bool :=
  if Rlt_dec (Rabs (x (ball s) - IZR (fst CENTER))) (IZR (GOAL_WIDTH / 2))
  then true else false.

Definition check_goal (o : Oracle) (s : FootballSim) : FootballSim :=
  if Rlt_dec (y (ball s)) (IZR (snd CENTER) - ARENA_RADIUS + BALL_RADIUS + 5)
  then
    if in_goal_width s
    then trigger_goal o
           (mkSim (ball s) (p1 s) (p2 s) (score_team1 s)
                  (score_team2 s + 1) (match_time s) (goal_timer s) (calls s))
    else s
  else if Rgt_dec (y (ball s))
                  (IZR (snd CENTER) + ARENA_RADIUS - BALL_RADIUS - 5)
  then
    if in_goal_width s
    then trigger_goal o
           (mkSim (ball s) (p1 s) (p2 s) (score_team1 s + 1)
                  (score_team2 s) (match_time s) (goal_timer s) (calls s))
    else s
  else s.

(** "Physics & Logic" of one iteration of [run]. *)
Definition step (o : Oracle) (s : FootballSim) : result FootballSim :=
  if (0 <? goal_timer s)%Z
  then Ok (mkSim (ball s) (p1 s) (p2 s) (score_team1 s) (score_team2 s)
                 (match_time s) (goal_timer s - 1) (calls s))
  else
    s1 <- ai_movement s ;;
    let s2 := mkSim (check_wall_collision (move (ball s1)))
                    (check_wall_collision (move (p1 s1)))
                    (check_wall_collision (move (p2 s1)))
                    (score_team1 s1) (score_team2 s1) (match_time s1)
                    (goal_timer s1) (calls s1) in
    s3 <- handle_collisions s2 ;;
    let s4 := check_goal o s3 in
    Ok (mkSim (ball s4) (p1 s4) (p2 s4) (score_team1 s4) (score_team2 s4)
              (match_time s4 + 1) (goal_timer s4) (calls s4)).

Fixpoint run (o : Oracle) (n : nat) (s : FootballSim) : result FootballSim :=
  match n with
  | O => Ok s
  | S k => s1 <- step o s ;; run o k s1
  end.

End Futbol21.

(** ** Kinematic vocabulary of the specification *)

(** Squared distance between the centres of two bodies after both have
    drifted for a time [t] at their current velocities. *)
Definition gap_sq (b1 b2 : Ball) (t : R) : R :=
  ((x b2 + t * vx b2) - (x b1 + t * vx b1)) ^ 2 +
  ((y b2 + t * vy b2) - (y b1 + t * vy b1)) ^ 2.

(** The pair is closing (diverging) when the centre distance decreases
    (increases) over every short enough time. *)
Definition closing (b1 b2 : Ball) : Prop :=
  exists t0, 0 < t0 /\ forall t, 0 < t < t0 -> gap_sq b1 b2 t < gap_sq b1 b2 0.

Definition diverging (b1 b2 : Ball) : Prop :=
  exists t0, 0 < t0 /\ forall t, 0 < t < t0 -> gap_sq b1 b2 0 < gap_sq b1 b2 t.

(** The quantity the pairwise functions test, with [n] not yet normalised:
    [(v1 - v2) . (p2 - p1)]. *)
Definition approach (b1 b2 : Ball) : R :=
  (vx b1 - vx b2) * (x b2 - x b1) + (vy b1 - vy b2) * (y b2 - y b1).

(** A body is contained in the arena of centre [(cx, cy)] and radius [R_]
    up to [slack] when its far edge is at most [slack] beyond the wall. *)
Definition contained (slack cx cy R_ : R) (b : Ball) : Prop :=
  dist_to b cx cy + radius b <= R_ + slack.



(** Position of a clock state in the chain FirstHalf -> HalfTime ->
    SecondHalf -> FullTime; [None] for any other string. *)
Definition chain_rank (st : string) : option nat :=
  if (st =? "FIRST_HALF")%string then Some 0%nat
  else if (st =? "HALFTIME")%string then Some 1%nat
  else if (st =? "SECOND_HALF")%string then Some 2%nat
  else if (st =? "FULLTIME")%string then Some 3%nat
  else None.

(** An assignment to [state] follows the chain when both states are on it
    and the new one is the old one or its successor. *)
Definition chain_step (st st' : string) : Prop :=
  match chain_rank st, chain_rank st' with
  | Some i, Some j => j = i \/ j = S i
  | _, _ => False
  end.

(** [st'] is not behind [st] on the chain. *)
Definition chain_le (st st' : string) : Prop :=
  match chain_rank st, chain_rank st' with
  | Some i, Some j => (i <= j)%nat
  | _, _ => False
  end.

(** Squared speed of a body; twice its kinetic energy for unit mass. *)
Definition speed_sq (b : Ball) : R := vx b * vx b + vy b * vy b.

(** Velocity of a body along the direction from [(cx, cy)] to its centre,
    times the distance: positive when the body moves away from that point. *)
Definition outward (b : Ball) (cx cy : R) : R :=
  vx b * (x b - cx) + vy b * (y b - cy).

(** Distance between the centres of two bodies. *)
Definition gap (b1 b2 : Ball) : R := hypot (x b2 - x b1) (y b2 - y b1).



(** The tally of each team equals the number of its recorded goal events
    (futbol 1.4). *)
Definition tally_matches (w : Futbol14.World) : Prop :=
  score1 (Futbol14.pitch w) = Z.of_nat (List.length (Futbol14.goal_events_1 w)) /\
  score2 (Futbol14.pitch w) = Z.of_nat (List.length (Futbol14.goal_events_2 w)).

(** The goal rotates exactly when a goal has been scored; scores are not
    negative. *)
Definition rotates_once_scored (p : Pitch) : Prop :=
  (0 <= score1 p)%Z /\ (0 <= score2 p)%Z /\
  (goal_rotating p = true <-> (1 <= score1 p + score2 p)%Z).


(** Momentum and (twice the) kinetic energy of the three bodies of futbol
    2.1, each weighted by its mass. *)
Definition momentum_x (s : Futbol21.FootballSim) : R :=
  Futbol21.mass (Futbol21.ball s) * Futbol21.vx (Futbol21.ball s)
  + Futbol21.mass (Futbol21.p1 s) * Futbol21.vx (Futbol21.p1 s)
  + Futbol21.mass (Futbol21.p2 s) * Futbol21.vx (Futbol21.p2 s).

Definition momentum_y (s : Futbol21.FootballSim) : R :=
  Futbol21.mass (Futbol21.ball s) * Futbol21.vy (Futbol21.ball s)
  + Futbol21.mass (Futbol21.p1 s) * Futbol21.vy (Futbol21.p1 s)
  + Futbol21.mass (Futbol21.p2 s) * Futbol21.vy (Futbol21.p2 s).

Definition live_force (p : Futbol21.PhysicsObject) : R :=
  Futbol21.mass p * speed_sq (Futbol21.body p).

Definition kinetic (s : Futbol21.FootballSim) : R :=
  live_force (Futbol21.ball s) + live_force (Futbol21.p1 s)
  + live_force (Futbol21.p2 s).

(** Velocity of the ball relative to a player along the offset from the
    player to the ball, times their distance: [impact_speed * dist]. *)
Definition impact (b p : Futbol21.PhysicsObject) : R :=
  (Futbol21.vx b - Futbol21.vx p) * (Futbol21.x b - Futbol21.x p)
  + (Futbol21.vy b - Futbol21.vy p) * (Futbol21.y b - Futbol21.y p).

(** The velocity of the player [p] of futbol 2.1 once [ai_movement] has
    added the acceleration towards the ball [b], before the cap. *)
Definition chased (b p : Futbol21.PhysicsObject) : R * R :=
  let angle :=
    atan2 (Futbol21.y b - Futbol21.y p) (Futbol21.x b - Futbol21.x p) in
  (Futbol21.vx p + cos angle * Futbol21.PLAYER_SPEED,
   Futbol21.vy p + sin angle * Futbol21.PLAYER_SPEED).

(** The player [q] has the velocity that the cap of [ai_movement] makes of
    [chased b p]: that velocity when its length is at most [MAX_SPEED], and
    otherwise that velocity times [MAX_SPEED / speed], a factor below 1. *)
Definition capped (b p q : Futbol21.PhysicsObject) : Prop :=
  let u := fst (chased b p) in
  let v := snd (chased b p) in
  (hypot u v <= Futbol21.MAX_SPEED ->
   Futbol21.vx q = u /\ Futbol21.vy q = v) /\
  (Futbol21.MAX_SPEED < hypot u v ->
   0 < Futbol21.MAX_SPEED / hypot u v < 1 /\
   Futbol21.vx q = u * (Futbol21.MAX_SPEED / hypot u v) /\
   Futbol21.vy q = v * (Futbol21.MAX_SPEED / hypot u v)).

(** The velocity of a marble of futbol 1.5. *)
Definition velocity (m : Futbol15.Marble) : R * R :=
  (Futbol15.vx m, Futbol15.vy m).

(** The simulation [s] with its goal timer set to [t]. *)
Definition with_goal_timer (s : Futbol21.FootballSim) (t : Z)
  : Futbol21.FootballSim :=
  Futbol21.mkSim (Futbol21.ball s) (Futbol21.p1 s) (Futbol21.p2 s)
                 (Futbol21.score_team1 s) (Futbol21.score_team2 s)
                 (Futbol21.match_time s) t (Futbol21.calls s).

(** The last [k] elements of a list, all of it when it is shorter. *)
Definition last_points (k : nat) (l : list R) : list R :=
  skipn (List.length l - k) l.

(** Mechanical energy of the double pendulum in the state
    [(theta1, w1, theta2, w2)]: the kinetic energy of the two bobs, whose
    velocities are the time derivatives of the positions [x1, y1, x2, y2],
    and their potential energy [m g y]. *)
Definition energy (state : Pendulum.State) : R :=
  let '(theta1, w1, theta2, w2) := state in
  let v1x := Pendulum.L1 * cos theta1 * w1 in
  let v1y := Pendulum.L1 * sin theta1 * w1 in
  let v2x := v1x + Pendulum.L2 * cos theta2 * w2 in
  let v2y := v1y + Pendulum.L2 * sin theta2 * w2 in
  1 / 2 * Pendulum.m1 * (v1x * v1x + v1y * v1y)
  + 1 / 2 * Pendulum.m2 * (v2x * v2x + v2y * v2y)
  + Pendulum.m1 * Pendulum.g * Pendulum.y1 theta1
  + Pendulum.m2 * Pendulum.g * Pendulum.y2 theta1 theta2.

(** The state reached from [state] by following [derivs] for a time [h] at
    constant rate. *)
Definition advance (state : Pendulum.State) (h : R) : Pendulum.State :=
  let '(theta1, w1, theta2, w2) := state in
  let '(d1, d2, d3, d4) := Pendulum.derivs state in
  (theta1 + h * d1, w1 + h * d2, theta2 + h * d3, w2 + h * d4).

(** The [k]-th point that [get_random_spawn] draws when it starts after [n]
    [random] calls, and the test that ends its loop. *)
Definition spawn_attempt (d : Dice) (n : nat) (cx cy : Z) (k : nat) : Z * Z :=
  (randint d (n + 2 * k) (cx - 150) (cx + 150),
   randint d (n + 2 * k + 1) (cy - 200) (cy + 50)).

Definition spawn_accepts (BALL_RADIUS : R) (cx cy : Z) (r_limit : R)
    (pt : Z * Z) : Prop :=
  hypot (IZR (fst pt - cx)) (IZR (snd pt - cy)) < r_limit - BALL_RADIUS - 10.

(** ** Sample states *)

(** An oracle: every [random.choice] takes the second element, every
    [random.random ()] is 0.5. *)
Definition sample_oracle : Oracle := mkOracle (fun _ => true) (fun _ => 5 / 10).

(** Futbol 1.4, first half: both balls at rest on the same point, touching
    the wall in the middle of the goal, which is at its initial angle. *)
Definition stacked_world : Futbol14.World :=
  Futbol14.mkWorld (Futbol14.init_clock 1 2)
    (mkPitch (mkBall 300 620 0 0 40) (mkBall 300 620 0 0 40) 0 0 (PI / 2)
             false 4)
    0 [] [].






(** Futbol 1.2: two overlapping balls on the horizontal through the centre,
    moving apart at the usual speed; after their move they are 29 apart and
    the outer one is 1 short of the wall. *)
Definition squeezed_pitch : Pitch :=
  mkPitch (mkBall (1009 / 2) 400 (- (9 / 2)) 0 30)
          (mkBall (1049 / 2) 400 (9 / 2) 0 30) 0 0 (PI / 2) false 4.

(** [squeezed_pitch] after one pass of the physics block of futbol 1.2. *)
Definition squeezed_after : Pitch :=
  mkPitch (mkBall (969 / 2) 400 (9 / 2) 0 30)
          (mkBall (1089 / 2) 400 (- (9 / 2)) 0 30) 0 0 (PI / 2) false 4.

(** Futbol 1.2: the first ball in the mouth of the goal, the second at its
    kick-off position. *)
Definition goal_mouth_pitch : Pitch :=
  mkPitch (mkBall 300 630 0 (45 / 10) 30) (mkBall 360 400 (45 / 10) 0 30)
          0 0 (PI / 2) false 4.

(** Futbol 2.1: the ball overlaps the first player from below and moves
    towards it; the second player is far away. *)
Definition tackle_sim : Futbol21.FootballSim :=
  Futbol21.mkSim (Futbol21.mkObject 270 440 0 (- 5) 15 1)
                 (Futbol21.mkObject 270 400 0 5 30 5)
                 (Futbol21.mkObject 270 580 5 5 30 5)
                 0 0 0 0 6.

(** [tackle_sim] after [handle_collisions]. *)
Definition tackle_after : Futbol21.FootballSim :=
  Futbol21.mkSim (Futbol21.mkObject 270 445 0 (35 / 3) 15 1)
                 (Futbol21.mkObject 270 400 0 (5 / 3) 30 5)
                 (Futbol21.mkObject 270 580 5 5 30 5)
                 0 0 0 0 6.

(** A dice for [random.randint (a, b)]: an even call gives the middle of
    the range, an odd call its upper end. *)
Definition sample_dice : Dice :=
  mkDice (fun n a b => if Nat.even n then ((a + b) / 2)%Z else b).

(** A dice whose first point falls outside the spawn disc: of the first
    four calls, the first and the fourth give the upper end and the other
    two the lower end. *)
Definition far_dice : Dice :=
  mkDice (fun n a b =>
            match n with
            | 0%nat => b
            | 1%nat => a
            | 2%nat => a
            | _ => b
            end).

(** Futbol 1.3: the first ball in the mouth of the goal, the second at the
    centre. *)
Definition goal_mouth13 : Pitch :=
  mkPitch (mkBall 300 630 0 1 30) (mkBall 300 400 0 0 30)
          0 0 (PI / 2) false 4.

(** * Properties *)

(** ** Arithmetic of the embedding *)

Lemma pydiv_ok (a b : R) : b <> 0 -> pydiv a b = Ok (a / b).
Proof.
  intros Hb. unfold pydiv. destruct (Req_dec_T b 0); [contradiction | reflexivity].
Qed.

Lemma pydiv_zero (a : R) : pydiv a 0 = ZeroDivisionError.
Proof.
  unfold pydiv. destruct (Req_dec_T 0 0) as [_ | H]; [reflexivity | now elim H].
Qed.

Lemma sum_sq_nonneg (a b : R) : 0 <= a * a + b * b.
Proof. nra. Qed.

Lemma hypot_nonneg (a b : R) : 0 <= hypot a b.
Proof. apply sqrt_pos. Qed.

Lemma hypot_sq (a b : R) : hypot a b * hypot a b = a * a + b * b.
Proof. apply sqrt_sqrt, sum_sq_nonneg. Qed.

Lemma hypot_unique (a b d : R) : 0 <= d -> d * d = a * a + b * b -> hypot a b = d.
Proof.
  intros Hd Hsq. unfold hypot. rewrite <- Hsq. now apply sqrt_square.
Qed.

Lemma hypot_axis_x (a : R) : hypot a 0 = Rabs a.
Proof.
  apply hypot_unique; [apply Rabs_pos |].
  unfold Rabs. destruct (Rcase_abs a); ring.
Qed.

Lemma hypot_axis_y (a : R) : hypot 0 a = Rabs a.
Proof.
  apply hypot_unique; [apply Rabs_pos |].
  unfold Rabs. destruct (Rcase_abs a); ring.
Qed.

Lemma hypot_zero (a b : R) : hypot a b = 0 -> a = 0 /\ b = 0.
Proof.
  intros H. pose proof (hypot_sq a b) as Hs. rewrite H in Hs. split; nra.
Qed.

Lemma hypot_scale (k a b : R) : hypot (k * a) (k * b) = Rabs k * hypot a b.
Proof.
  apply hypot_unique.
  - apply Rmult_le_pos; [apply Rabs_pos | apply hypot_nonneg].
  - pose proof (hypot_sq a b) as Hs.
    replace (Rabs k * hypot a b * (Rabs k * hypot a b))
      with ((Rabs k * Rabs k) * (hypot a b * hypot a b)) by ring.
    rewrite Hs. replace (Rabs k * Rabs k) with (k * k).
    + ring.
    + unfold Rabs. destruct (Rcase_abs k); ring.
Qed.

Lemma hypot_triangle (a b c d : R) :
  hypot (a + c) (b + d) <= hypot a b + hypot c d.
Proof.
  pose proof (hypot_nonneg a b) as H1. pose proof (hypot_nonneg c d) as H2.
  pose proof (hypot_sq a b) as S1. pose proof (hypot_sq c d) as S2.
  pose proof (hypot_nonneg (a + c) (b + d)) as H3.
  pose proof (hypot_sq (a + c) (b + d)) as S3.
  assert (Hcs : a * c + b * d <= hypot a b * hypot c d).
  { destruct (Rle_dec (a * c + b * d) 0) as [Hn | Hp].
    - apply Rle_trans with 0; [exact Hn | now apply Rmult_le_pos].
    - apply Rnot_le_lt in Hp.
      apply Rsqr_incr_0_var; [| now apply Rmult_le_pos].
      unfold Rsqr.
      replace (hypot a b * hypot c d * (hypot a b * hypot c d))
        with ((hypot a b * hypot a b) * (hypot c d * hypot c d)) by ring.
      rewrite S1, S2.
      pose proof (Rle_0_sqr (a * d - b * c)) as Hq. unfold Rsqr in Hq. nra. }
  apply Rsqr_incr_0_var; [| lra].
  unfold Rsqr. nra.
Qed.

(** Case analysis on the comparisons of a function body, closing the
    branches that the arithmetic context rules out. *)
Ltac split_tests :=
  repeat match goal with
    | |- context [Rge_dec ?a ?b] => destruct (Rge_dec a b); try (exfalso; lra)
    | |- context [Rgt_dec ?a ?b] => destruct (Rgt_dec a b); try (exfalso; lra)
    | |- context [Rlt_dec ?a ?b] => destruct (Rlt_dec a b); try (exfalso; lra)
    | |- context [Rle_dec ?a ?b] => destruct (Rle_dec a b); try (exfalso; lra)
    | |- context [Req_dec_T ?a ?b] => destruct (Req_dec_T a b); try (exfalso; lra)
    end.

Lemma ball_eq (a b : Ball) :
  x a = x b -> y a = y b -> vx a = vx b -> vy a = vy b -> radius a = radius b ->
  a = b.
Proof.
  destruct a, b; simpl; intros; subst; reflexivity.
Qed.

(** ** bouncing_ball.py: the cage *)

Section Cage.
Import BouncingBall.
Variables (c : Rect) (rad : R).
Hypothesis wide : IZR (left c) + rad <= IZR (right c) - rad.
Hypothesis tall : IZR (top c) + rad <= IZR (bottom c) - rad.

(** Floor then ceiling leave the ordinate between the two bounds, and the
    side checks do not touch it. *)
Lemma vertical_checks_bound (s : State) :
  IZR (top c) + rad <= ball_y (ceiling_check c rad (floor_check c rad s))
    <= IZR (bottom c) - rad.
Proof.
  unfold ceiling_check, floor_check.
  destruct (Rgt_dec (ball_y s + rad) (IZR (bottom c))); simpl;
    match goal with |- context [Rlt_dec ?a ?b] => destruct (Rlt_dec a b) end;
    simpl; lra.
Qed.

Lemma side_checks_keep_y (s : State) :
  ball_y (left_check c rad (right_check c rad s)) = ball_y s.
Proof.
  unfold left_check, right_check.
  destruct (Rgt_dec (ball_x s + rad) (IZR (right c))); simpl;
    match goal with |- context [Rlt_dec ?a ?b] => destruct (Rlt_dec a b) end;
    reflexivity.
Qed.

Lemma side_checks_bound (s : State) :
  IZR (left c) + rad <= ball_x (left_check c rad (right_check c rad s))
    <= IZR (right c) - rad.
Proof.
  unfold left_check, right_check.
  destruct (Rgt_dec (ball_x s + rad) (IZR (right c))); simpl;
    match goal with |- context [Rlt_dec ?a ?b] => destruct (Rlt_dec a b) end;
    simpl; lra.
Qed.

Lemma cage_collision_in_cage (s : State) : in_cage c rad (cage_collision c rad s).
Proof.
  unfold in_cage, cage_collision. split.
  - apply side_checks_bound.
  - rewrite side_checks_keep_y. apply vertical_checks_bound.
Qed.
End Cage.

Lemma cage_edges :
  IZR (BouncingBall.left BouncingBall.cage_rect) = 150 /\
  IZR (BouncingBall.right BouncingBall.cage_rect) = 650 /\
  IZR (BouncingBall.top BouncingBall.cage_rect) = 100 /\
  IZR (BouncingBall.bottom BouncingBall.cage_rect) = 500.
Proof. repeat split. Qed.

(** C10. In [bouncing_ball.py], after the four wall checks of any tick the
    centre of the ball lies in [cage.left + BALL_RADIUS, cage.right -
    BALL_RADIUS] horizontally and in [cage.top + BALL_RADIUS, cage.bottom -
    BALL_RADIUS] vertically, that is in [175, 625] x [125, 475]; this holds
    from any state, hence at every tick of a run. *)
Theorem cage_containment (s : BouncingBall.State) :
  BouncingBall.in_cage BouncingBall.cage_rect BouncingBall.BALL_RADIUS
                       (BouncingBall.tick s) /\
  (175 <= BouncingBall.ball_x (BouncingBall.tick s) <= 625 /\
   125 <= BouncingBall.ball_y (BouncingBall.tick s) <= 475) /\
  forall n, BouncingBall.in_cage BouncingBall.cage_rect BouncingBall.BALL_RADIUS
                                 (BouncingBall.run (S n) s).
Proof.
  destruct cage_edges as (El & Er & Et & Eb).
  assert (Hall : forall t, BouncingBall.in_cage BouncingBall.cage_rect
                   BouncingBall.BALL_RADIUS (BouncingBall.tick t)).
  { intros t. unfold BouncingBall.tick. apply cage_collision_in_cage;
      rewrite ?El, ?Er, ?Et, ?Eb; unfold BouncingBall.BALL_RADIUS; lra. }
  split; [apply Hall | split].
  - destruct (Hall s) as [Hx Hy]. rewrite El, Er in Hx. rewrite Et, Eb in Hy.
    unfold BouncingBall.BALL_RADIUS in Hx, Hy. lra.
  - intros n. revert s. induction n as [| n IH]; intros s.
    + simpl. apply Hall.
    + change (BouncingBall.run (S (S n)) s)
        with (BouncingBall.run (S n) (BouncingBall.tick s)). apply IH.
Qed.

(** ** Body.move *)

Lemma move_with_eq (g f : R) (b : Ball) :
  move_with g f b =
  mkBall (x b + vx b * f) (y b + (vy b + g) * f) (vx b * f) ((vy b + g) * f)
         (radius b).
Proof. reflexivity. Qed.

(** C8, as stated, fails on [Marble.move] of futbol 1.5: the position is
    advanced by the velocity held before the friction factor is applied, so
    the new abscissa is not the old one plus the resulting velocity. *)
Lemma marble_move_counterexample :
  let m := Futbol15.mkMarble 0 0 35 8 8 false 3 in
  Futbol15.x (Futbol15.move m) = 8 /\
  Futbol15.x (Futbol15.move m)
    <> Futbol15.x m + Futbol15.vx (Futbol15.move m).
Proof.
  simpl. split; lra.
Qed.

(** C8, amended. [Ball.move] of futbol 1.3 and 1.4 adds gravity to [vy],
    multiplies both velocity components by the friction factor and then adds
    the resulting velocity to the position; gravity 0 leaves [vy] to friction
    alone and friction 1 leaves the velocity to gravity alone.  [Marble.move]
    of futbol 1.5 has no gravity, adds the current velocity to the position
    first and applies its friction 0.995 afterwards. *)
Theorem move_composition (g f : R) (b : Ball) (m : Futbol15.Marble) :
  (vy (move_with g f b) = (vy b + g) * f /\
   vx (move_with g f b) = vx b * f /\
   x (move_with g f b) = x b + vx (move_with g f b) /\
   y (move_with g f b) = y b + vy (move_with g f b) /\
   radius (move_with g f b) = radius b) /\
  (vx (move_with 0 f b) = vx b * f /\ vy (move_with 0 f b) = vy b * f) /\
  (vx (move_with g 1 b) = vx b /\ vy (move_with g 1 b) = vy b + g /\
   x (move_with g 1 b) = x b + vx b /\ y (move_with g 1 b) = y b + (vy b + g)) /\
  (Futbol13.move b = move_with (5 / 1000) (995 / 1000) b /\
   Futbol14.move b = move_with 0 (9999 / 10000) b) /\
  (Futbol15.x (Futbol15.move m) = Futbol15.x m + Futbol15.vx m /\
   Futbol15.y (Futbol15.move m) = Futbol15.y m + Futbol15.vy m /\
   Futbol15.vx (Futbol15.move m) = Futbol15.vx m * (995 / 1000) /\
   Futbol15.vy (Futbol15.move m) = Futbol15.vy m * (995 / 1000)).
Proof.
  rewrite !move_with_eq. simpl.
  repeat split; try reflexivity; try ring.
Qed.

(** ** Wall collision *)

(** What [collide_wall] of futbol 1.4 returns for a body on or past the
    wall and off the centre: the position is corrected along the normal, the
    velocity is reflected and damped exactly when [dot > 0]. *)
Lemma collide_wall_gated_touching (D : R) (b : Ball) (cx cy R_ : R) :
  let dx := x b - cx in
  let dy := y b - cy in
  let dist := hypot dx dy in
  let nx := dx / dist in
  let ny := dy / dist in
  let dot := vx b * nx + vy b * ny in
  let overlap := dist + radius b - R_ in
  dist + radius b >= R_ -> dist <> 0 ->
  collide_wall_gated D b cx cy R_ =
  Ok (mkBall (x b - nx * overlap) (y b - ny * overlap)
             (if Rgt_dec dot 0 then (vx b - 2 * dot * nx) * D else vx b)
             (if Rgt_dec dot 0 then (vy b - 2 * dot * ny) * D else vy b)
             (radius b), true).
Proof.
  intros dx dy dist nx ny dot overlap Htouch Hd.
  unfold collide_wall_gated. fold dx dy dist.
  destruct (Rge_dec (dist + radius b) R_) as [_ | Hn]; [| contradiction].
  rewrite !pydiv_ok by exact Hd. simpl. fold nx ny dot overlap.
  destruct (Rgt_dec dot 0); reflexivity.
Qed.

(** The gate of futbol 1.4: under the wall test the velocity changes only
    through the reflection, which is applied if and only if [dot > 0]; an
    inward-moving body keeps its velocity. *)
Lemma collide_wall_gated_iff (D : R) (b b' : Ball) (cx cy R_ : R) (hit : bool) :
  let dx := x b - cx in
  let dy := y b - cy in
  let dist := hypot dx dy in
  let dot := vx b * (dx / dist) + vy b * (dy / dist) in
  dist + radius b >= R_ ->
  collide_wall_gated D b cx cy R_ = Ok (b', hit) ->
  (dot > 0 -> vx b' = (vx b - 2 * dot * (dx / dist)) * D /\
              vy b' = (vy b - 2 * dot * (dy / dist)) * D) /\
  (~ dot > 0 -> vx b' = vx b /\ vy b' = vy b).
Proof.
  intros dx dy dist dot Htouch Hres.
  destruct (Req_dec_T dist 0) as [Hz | Hnz].
  - unfold collide_wall_gated in Hres. fold dx dy dist in Hres.
    destruct (Rge_dec (dist + radius b) R_); [| contradiction].
    rewrite Hz, pydiv_zero in Hres. discriminate.
  - pose proof (collide_wall_gated_touching D b cx cy R_ Htouch Hnz) as E.
    fold dx dy dist in E. rewrite E in Hres. injection Hres as Hb _. subst b'.
    simpl. fold dot. destruct (Rgt_dec dot 0); split; intros; tauto.
Qed.

(** C2 on futbol 1.3 and 1.2, which reflect without the gate.  A body of
    radius 30 at distance 230 from the centre (300, 400) of the arena of
    radius 260 touches the wall; its velocity (-1, 0) points inward.
    [collide_wall] of 1.3 returns it with velocity (0.995, 0) and that of 1.2
    with velocity (1, 0), now pointing outward; the gated [collide_wall] of
    1.4 leaves the velocity of such a body as it is. *)
Theorem collide_wall_reflects_inward_body :
  Futbol13.collide_wall (mkBall 530 400 (-1) 0 30) 300 400 260
    = Ok (mkBall 530 400 (995 / 1000) 0 30, true) /\
  Futbol12.collide_wall (mkBall 530 400 (-1) 0 30) 300 400 260
    = Ok (mkBall 530 400 1 0 30, true) /\
  Futbol14.collide_wall (mkBall 530 400 (-1) 0 30) 300 400 260
    = Ok (mkBall 530 400 (-1) 0 30, true).
Proof.
  assert (Hd : hypot (530 - 300) (400 - 400) = 230).
  { apply hypot_unique; lra. }
  unfold Futbol13.collide_wall, Futbol12.collide_wall, Futbol14.collide_wall,
    collide_wall_always, collide_wall_plain, collide_wall_gated,
    Futbol13.BOUNCE_DAMPING, Futbol14.BOUNCE_DAMPING.
  cbn [x y vx vy radius]. rewrite Hd.
  destruct (Rge_dec (230 + 30) 260); [| exfalso; lra].
  rewrite !pydiv_ok by lra. cbn [bind set_vel set_pos x y vx vy radius].
  destruct (Rgt_dec (-1 * ((530 - 300) / 230) + 0 * ((400 - 400) / 230)) 0);
    [exfalso; lra |].
  cbn [x y vx vy radius].
  repeat split; do 2 f_equal; apply ball_eq; simpl; lra.
Qed.

(** ** Pairwise collision *)

(** The clamped distance of [resolve_collisions] is never zero. *)
Lemma clamped_nonzero (d : R) : (if Req_dec_T d 0 then 1 / 10 else d) <> 0.
Proof. destruct (Req_dec_T d 0); lra. Qed.

(** What [resolve_collisions] returns for an overlapping pair. *)
Lemma resolve_overlapping (E : R) (b1 b2 : Ball) :
  let dx := x b2 - x b1 in
  let dy := y b2 - y b1 in
  let dist := if Req_dec_T (hypot dx dy) 0 then 1 / 10 else hypot dx dy in
  let nx := dx / dist in
  let ny := dy / dist in
  let overlap := radius b1 + radius b2 - dist in
  let vel_normal := (vx b1 - vx b2) * nx + (vy b1 - vy b2) * ny in
  let j := - (1 + E) * vel_normal / 2 in
  hypot dx dy < radius b1 + radius b2 ->
  resolve_collisions_with E b1 b2 =
  Ok (mkBall (x b1 - nx * overlap * (5 / 10)) (y b1 - ny * overlap * (5 / 10))
             (if Rgt_dec vel_normal 0 then vx b1 else vx b1 + j * nx)
             (if Rgt_dec vel_normal 0 then vy b1 else vy b1 + j * ny)
             (radius b1),
      mkBall (x b2 + nx * overlap * (5 / 10)) (y b2 + ny * overlap * (5 / 10))
             (if Rgt_dec vel_normal 0 then vx b2 else vx b2 - j * nx)
             (if Rgt_dec vel_normal 0 then vy b2 else vy b2 - j * ny)
             (radius b2)).
Proof.
  intros dx dy dist nx ny overlap vel_normal j Hov.
  unfold resolve_collisions_with. fold dx dy.
  destruct (Rlt_dec (hypot dx dy) (radius b1 + radius b2)); [| contradiction].
  fold dist. rewrite !pydiv_ok by apply clamped_nonzero.
  cbn [bind set_pos set_vel x y vx vy radius].
  fold nx ny overlap vel_normal.
  destruct (Rgt_dec vel_normal 0); reflexivity.
Qed.

(** A pair whose centres are at least the sum of the radii apart is returned
    as it is, by each of the three pairwise functions. *)
Lemma resolve_separated (E : R) (b1 b2 : Ball) :
  hypot (x b2 - x b1) (y b2 - y b1) >= radius b1 + radius b2 ->
  resolve_collisions_with E b1 b2 = Ok (b1, b2) /\
  check_ball_collision b1 b2 = Ok (b1, b2) /\
  check_collision b1 b2 = Ok (b1, b2).
Proof.
  intros Hsep.
  unfold resolve_collisions_with, check_ball_collision, check_collision.
  destruct (Rlt_dec (hypot (x b2 - x b1) (y b2 - y b1)) (radius b1 + radius b2));
    [exfalso; lra | repeat split].
Qed.

Lemma resolve_total (E : R) (b1 b2 : Ball) :
  exists r, resolve_collisions_with E b1 b2 = Ok r.
Proof.
  destruct (Rlt_dec (hypot (x b2 - x b1) (y b2 - y b1)) (radius b1 + radius b2))
    as [Hov | Hsep].
  - eexists. apply resolve_overlapping, Hov.
  - exists (b1, b2). apply resolve_separated. lra.
Qed.

(** C9. One application of the pairwise resolver leaves the sum of the two
    velocities unchanged, component by component: [resolve_collisions] of
    futbol 1.3 and 1.4 always returns, with the sum preserved;
    [check_ball_collision] of futbol 1.1 preserves the sum whenever it
    returns, and it fails to return only for coinciding centres. *)
Theorem momentum_conserved (E : R) (b1 b2 : Ball) :
  (exists b1' b2',
      resolve_collisions_with E b1 b2 = Ok (b1', b2') /\
      vx b1' + vx b2' = vx b1 + vx b2 /\
      vy b1' + vy b2' = vy b1 + vy b2) /\
  match check_ball_collision b1 b2 with
  | Ok (b1', b2') =>
      vx b1' + vx b2' = vx b1 + vx b2 /\ vy b1' + vy b2' = vy b1 + vy b2
  | ZeroDivisionError => hypot (x b2 - x b1) (y b2 - y b1) = 0
  end.
Proof.
  split.
  - destruct (Rlt_dec (hypot (x b2 - x b1) (y b2 - y b1)) (radius b1 + radius b2))
      as [Hov | Hsep].
    + do 2 eexists. split; [apply resolve_overlapping, Hov |].
      cbn [vx vy].
      match goal with |- context [Rgt_dec ?a 0] => destruct (Rgt_dec a 0) end;
        split; ring.
    + exists b1, b2. split; [apply resolve_separated; lra | split; reflexivity].
  - unfold check_ball_collision.
    set (d := hypot (x b2 - x b1) (y b2 - y b1)).
    destruct (Rlt_dec d (radius b1 + radius b2)); [| split; reflexivity].
    destruct (Req_dec_T d 0) as [Hz | Hnz].
    + unfold pydiv at 1.
      destruct (Req_dec_T d 0); [simpl; exact Hz | contradiction].
    + rewrite !pydiv_ok by exact Hnz. cbn [bind].
      match goal with |- context [Rlt_dec ?a 0] => destruct (Rlt_dec a 0) end;
        cbn [vx vy]; split; ring.
Qed.

(** *** Closing and diverging pairs *)

Lemma gap_sq_expand (b1 b2 : Ball) (t : R) :
  gap_sq b1 b2 t =
  gap_sq b1 b2 0 - 2 * t * approach b1 b2
  + t * t * ((vx b1 - vx b2) ^ 2 + (vy b1 - vy b2) ^ 2).
Proof. unfold gap_sq, approach. ring. Qed.

Lemma approach_pos_closing (b1 b2 : Ball) : 0 < approach b1 b2 -> closing b1 b2.
Proof.
  intros Ha. set (s := (vx b1 - vx b2) ^ 2 + (vy b1 - vy b2) ^ 2).
  assert (Hs : 0 <= s)
    by (unfold s; apply Rplus_le_le_0_compat; apply pow2_ge_0).
  exists (approach b1 b2 / (s + 1)). split.
  - apply Rdiv_lt_0_compat; lra.
  - intros t [Ht0 Ht]. rewrite (gap_sq_expand b1 b2 t). fold s.
    assert (Hts : t * (s + 1) < approach b1 b2).
    { apply Rmult_lt_compat_r with (r := s + 1) in Ht; [| lra].
      unfold Rdiv in Ht. rewrite Rmult_assoc, Rinv_l, Rmult_1_r in Ht; lra. }
    nra.
Qed.

Lemma approach_neg_diverging (b1 b2 : Ball) : approach b1 b2 < 0 -> diverging b1 b2.
Proof.
  intros Ha. exists 1. split; [lra |].
  intros t [Ht0 _]. rewrite (gap_sq_expand b1 b2 t).
  set (s := (vx b1 - vx b2) ^ 2 + (vy b1 - vy b2) ^ 2).
  assert (Hs : 0 <= s)
    by (unfold s; apply Rplus_le_le_0_compat; apply pow2_ge_0).
  set (a := approach b1 b2) in *.
  assert (0 < t * - a) by (apply Rmult_lt_0_compat; lra).
  assert (0 <= t * t * s) by (apply Rmult_le_pos; [nra | exact Hs]).
  lra.
Qed.

(** The normal relative velocity of the pairwise functions is [approach]
    divided by the distance. *)
Lemma vel_normal_approach (b1 b2 : Ball) (d : R) :
  d <> 0 ->
  (vx b1 - vx b2) * ((x b2 - x b1) / d) + (vy b1 - vy b2) * ((y b2 - y b1) / d)
  = approach b1 b2 / d.
Proof. intros Hd. unfold approach. field. exact Hd. Qed.

(** [resolve_collisions] (1.3, 1.4) on an overlapping pair that is closing:
    the impulse is skipped, both velocities are returned as they were. *)
Lemma resolve_skips_closing (E : R) (b1 b2 : Ball) :
  0 < hypot (x b2 - x b1) (y b2 - y b1) < radius b1 + radius b2 ->
  0 < approach b1 b2 ->
  closing b1 b2 /\
  exists b1' b2',
    resolve_collisions_with E b1 b2 = Ok (b1', b2') /\
    vx b1' = vx b1 /\ vy b1' = vy b1 /\ vx b2' = vx b2 /\ vy b2' = vy b2.
Proof.
  intros [Hpos Hov] Ha. split; [now apply approach_pos_closing |].
  do 2 eexists. split; [apply resolve_overlapping, Hov |].
  cbn [vx vy].
  destruct (Req_dec_T (hypot (x b2 - x b1) (y b2 - y b1)) 0); [lra |].
  rewrite vel_normal_approach by lra.
  assert (0 < approach b1 b2 / hypot (x b2 - x b1) (y b2 - y b1))
    by (apply Rdiv_lt_0_compat; lra).
  destruct (Rgt_dec (approach b1 b2 / hypot (x b2 - x b1) (y b2 - y b1)) 0);
    [repeat split | exfalso; lra].
Qed.

(** [check_ball_collision] (1.1) leaves an overlapping diverging pair as it
    is. *)
Lemma check_ball_collision_skips_diverging (b1 b2 : Ball) :
  0 < hypot (x b2 - x b1) (y b2 - y b1) < radius b1 + radius b2 ->
  approach b1 b2 < 0 ->
  diverging b1 b2 /\ check_ball_collision b1 b2 = Ok (b1, b2).
Proof.
  intros [Hpos Hov] Ha. split; [now apply approach_neg_diverging |].
  unfold check_ball_collision.
  destruct (Rlt_dec (hypot (x b2 - x b1) (y b2 - y b1)) (radius b1 + radius b2));
    [| contradiction].
  rewrite !pydiv_ok by lra. cbn [bind].
  rewrite vel_normal_approach by lra.
  assert (approach b1 b2 / hypot (x b2 - x b1) (y b2 - y b1) < 0).
  { unfold Rdiv.
    assert (0 < / hypot (x b2 - x b1) (y b2 - y b1))
      by (apply Rinv_0_lt_compat; lra).
    nra. }
  destruct (Rlt_dec (approach b1 b2 / hypot (x b2 - x b1) (y b2 - y b1)) 0);
    [reflexivity | contradiction].
Qed.

(** C7 on futbol 1.3.  Two bodies of radius 30 at (300, 400) and (359, 400)
    overlap by 1.  With velocities (5, 0) and (-5, 0) they are closing:
    [check_ball_collision] of 1.1 exchanges the normal velocities, whereas
    [resolve_collisions] of 1.3 separates them and skips the impulse.  With
    velocities (-5, 0) and (5, 0) they are diverging: 1.1 leaves the pair
    alone, whereas 1.3 applies an impulse that turns the velocities to
    (4.75, 0) and (-4.75, 0). *)
Theorem resolve_impulse_gate_inverted :
  let b1 := mkBall 300 400 5 0 30 in
  let b2 := mkBall 359 400 (-5) 0 30 in
  let c1 := mkBall 300 400 (-5) 0 30 in
  let c2 := mkBall 359 400 5 0 30 in
  (closing b1 b2 /\
   Futbol13.resolve_collisions b1 b2
     = Ok (mkBall (599 / 2) 400 5 0 30, mkBall (719 / 2) 400 (-5) 0 30) /\
   Futbol11.check_ball_collision b1 b2
     = Ok (mkBall (599 / 2) 400 (-5) 0 30, mkBall (719 / 2) 400 5 0 30)) /\
  (diverging c1 c2 /\
   Futbol13.resolve_collisions c1 c2
     = Ok (mkBall (599 / 2) 400 (19 / 4) 0 30, mkBall (719 / 2) 400 (-19 / 4) 0 30) /\
   Futbol11.check_ball_collision c1 c2 = Ok (c1, c2)).
Proof.
  intros b1 b2 c1 c2.
  assert (Hd : hypot (359 - 300) (400 - 400) = 59) by (apply hypot_unique; lra).
  assert (Hb : 0 < hypot (x b2 - x b1) (y b2 - y b1) < radius b1 + radius b2)
    by (simpl; rewrite Hd; lra).
  assert (Hc : 0 < hypot (x c2 - x c1) (y c2 - y c1) < radius c1 + radius c2)
    by (simpl; rewrite Hd; lra).
  split; [split; [| split] | split; [| split]].
  - apply approach_pos_closing. unfold approach. simpl. lra.
  - unfold Futbol13.resolve_collisions.
    rewrite resolve_overlapping by apply Hb.
    cbn [x y vx vy radius b1 b2]. rewrite Hd.
    destruct (Req_dec_T 59 0); [exfalso; lra |].
    match goal with |- context [Rgt_dec ?a 0] =>
      destruct (Rgt_dec a 0); [| exfalso; lra] end.
    do 2 f_equal; apply ball_eq; simpl; lra.
  - unfold Futbol11.check_ball_collision, check_ball_collision.
    cbn [x y vx vy radius b1 b2]. rewrite Hd.
    destruct (Rlt_dec 59 (30 + 30)); [| exfalso; lra].
    rewrite !pydiv_ok by lra. cbn [bind].
    match goal with |- context [Rlt_dec ?a 0] =>
      destruct (Rlt_dec a 0); [exfalso; lra |] end.
    do 2 f_equal; apply ball_eq; simpl; lra.
  - apply approach_neg_diverging. unfold approach. simpl. lra.
  - unfold Futbol13.resolve_collisions, Futbol13.ELASTICITY.
    rewrite resolve_overlapping by apply Hc.
    cbn [x y vx vy radius c1 c2]. rewrite Hd.
    destruct (Req_dec_T 59 0); [exfalso; lra |].
    match goal with |- context [Rgt_dec ?a 0] =>
      destruct (Rgt_dec a 0); [exfalso; lra |] end.
    do 2 f_equal; apply ball_eq; simpl; lra.
  - apply check_ball_collision_skips_diverging; [apply Hc |].
    unfold approach. simpl. lra.
Qed.

(** ** Degenerate geometry *)

Lemma hypot_origin : hypot 0 0 = 0.
Proof. apply hypot_unique; lra. Qed.

(** Coinciding centres: the clamped distance 0.1 makes the normal the zero
    vector, so [resolve_collisions] returns the pair as it is. *)
Lemma resolve_coincident (E : R) (b1 b2 : Ball) :
  x b2 = x b1 -> y b2 = y b1 -> resolve_collisions_with E b1 b2 = Ok (b1, b2).
Proof.
  intros Hx Hy.
  destruct (Rlt_dec (hypot (x b2 - x b1) (y b2 - y b1)) (radius b1 + radius b2))
    as [Hov | Hsep].
  - rewrite resolve_overlapping by exact Hov.
    replace (x b2 - x b1) with 0 by lra. replace (y b2 - y b1) with 0 by lra.
    rewrite hypot_origin.
    destruct (Req_dec_T 0 0) as [_ | Hn]; [| now elim Hn].
    match goal with |- context [Rgt_dec ?a 0] => destruct (Rgt_dec a 0) end;
      do 2 f_equal; apply ball_eq; simpl; lra.
  - apply resolve_separated. lra.
Qed.

(** Idempotent separation: whatever [resolve_collisions] returns, a second
    application returns it unchanged.  An overlapping off-centre pair leaves
    the first application with its centres exactly [r1 + r2] apart. *)
Lemma resolve_twice (E : R) (b1 b2 b1' b2' : Ball) :
  resolve_collisions_with E b1 b2 = Ok (b1', b2') ->
  resolve_collisions_with E b1' b2' = Ok (b1', b2').
Proof.
  set (d := hypot (x b2 - x b1) (y b2 - y b1)).
  destruct (Rlt_dec d (radius b1 + radius b2)) as [Hov | Hsep].
  - destruct (Req_dec_T d 0) as [Hz | Hnz].
    + destruct (hypot_zero _ _ Hz) as [Hx Hy].
      rewrite resolve_coincident by lra. intros E0. injection E0 as <- <-.
      apply resolve_coincident; lra.
    + rewrite resolve_overlapping by exact Hov. fold d.
      destruct (Req_dec_T d 0); [contradiction |].
      intros E0. injection E0 as <- <-.
      apply resolve_separated. cbn [x y radius].
      pose proof (hypot_nonneg (x b2 - x b1) (y b2 - y b1)) as Hnn. fold d in Hnn.
      replace (x b2 + (x b2 - x b1) / d * (radius b1 + radius b2 - d) * (5 / 10)
               - (x b1 - (x b2 - x b1) / d * (radius b1 + radius b2 - d) * (5 / 10)))
        with ((radius b1 + radius b2) / d * (x b2 - x b1)) by (field; lra).
      replace (y b2 + (y b2 - y b1) / d * (radius b1 + radius b2 - d) * (5 / 10)
               - (y b1 - (y b2 - y b1) / d * (radius b1 + radius b2 - d) * (5 / 10)))
        with ((radius b1 + radius b2) / d * (y b2 - y b1)) by (field; lra).
      rewrite hypot_scale. fold d.
      rewrite Rabs_pos_eq.
      * right. field. lra.
      * apply Rmult_le_pos; [lra |]. apply Rlt_le, Rinv_0_lt_compat. lra.
  - rewrite (proj1 (resolve_separated E b1 b2 (Rnot_lt_ge _ _ Hsep))).
    intros E0. injection E0 as <- <-. apply resolve_separated. fold d. lra.
Qed.

(** A body smaller than the arena that meets the wall test is off the
    centre. *)
Lemma touching_off_centre (b : Ball) (cx cy R_ : R) :
  radius b < R_ ->
  hypot (x b - cx) (y b - cy) + radius b >= R_ ->
  hypot (x b - cx) (y b - cy) <> 0.
Proof. intros Hr Ht. lra. Qed.

Lemma collide_wall_total (D : R) (b : Ball) (cx cy R_ : R) :
  radius b < R_ ->
  (exists r, collide_wall_plain b cx cy R_ = Ok r) /\
  (exists r, collide_wall_always D b cx cy R_ = Ok r) /\
  (exists r, collide_wall_gated D b cx cy R_ = Ok r).
Proof.
  intros Hr.
  unfold collide_wall_plain, collide_wall_always, collide_wall_gated.
  destruct (Rge_dec (hypot (x b - cx) (y b - cy) + radius b) R_) as [Ht | Hn].
  - pose proof (touching_off_centre b cx cy R_ Hr Ht) as Hd.
    rewrite !pydiv_ok by exact Hd. cbn [bind].
    repeat split; eexists; reflexivity.
  - repeat split; eexists; reflexivity.
Qed.

Lemma collide_wall_at_centre (D : R) (b : Ball) (cx cy R_ : R) :
  radius b < R_ -> x b = cx -> y b = cy ->
  collide_wall_plain b cx cy R_ = Ok (b, false) /\
  collide_wall_always D b cx cy R_ = Ok (b, false) /\
  collide_wall_gated D b cx cy R_ = Ok (b, false).
Proof.
  intros Hr Hx Hy.
  unfold collide_wall_plain, collide_wall_always, collide_wall_gated.
  replace (x b - cx) with 0 by lra. replace (y b - cy) with 0 by lra.
  rewrite hypot_origin.
  destruct (Rge_dec (0 + radius b) R_); [exfalso; lra | repeat split].
Qed.

(** C3, as stated, fails: [collide_wall] of futbol 1.2 substitutes no
    normal at distance 0, and divides by that distance as soon as the wall
    test holds there, which it does for a body as large as the arena; the
    pairwise [check_collision] of the same variant divides by the distance
    of two coinciding centres. *)
Lemma wall_collision_divides_by_zero :
  Futbol12.collide_wall (mkBall 300 400 0 0 30) 300 400 30 = ZeroDivisionError /\
  Futbol12.check_collision (mkBall 300 400 1 0 30) (mkBall 300 400 0 0 30)
    = ZeroDivisionError.
Proof.
  unfold Futbol12.collide_wall, collide_wall_plain,
    Futbol12.check_collision, check_collision.
  cbn [x y vx vy radius].
  replace (300 - 300) with 0 by lra. replace (400 - 400) with 0 by lra.
  rewrite hypot_origin.
  destruct (Rge_dec (0 + 30) 30); [| exfalso; lra].
  destruct (Rlt_dec 0 (30 + 30)); [| exfalso; lra].
  rewrite !pydiv_zero. split; reflexivity.
Qed.

(** C3, amended.  For a body smaller than the arena, [collide_wall] (futbol
    1.2) returns without error: a body at distance exactly 0 from the centre
    fails the wall test and is returned unchanged, no normal being computed
    or substituted.  [resolve_collisions] (futbol 1.3, 1.4) returns without
    error for every pair: a zero distance between overlapping centres is
    replaced by 0.1, and a coinciding pair is returned unchanged. *)
Theorem degenerate_geometry_total (E : R) (b b1 b2 : Ball) (cx cy R_ : R) :
  radius b < R_ ->
  (exists r, Futbol12.collide_wall b cx cy R_ = Ok r) /\
  (x b = cx -> y b = cy -> Futbol12.collide_wall b cx cy R_ = Ok (b, false)) /\
  (exists r, resolve_collisions_with E b1 b2 = Ok r) /\
  (x b2 = x b1 -> y b2 = y b1 -> resolve_collisions_with E b1 b2 = Ok (b1, b2)).
Proof.
  intros Hr. repeat split.
  - apply (collide_wall_total 1 b cx cy R_ Hr).
  - intros Hx Hy. apply (collide_wall_at_centre 1 b cx cy R_ Hr Hx Hy).
  - apply resolve_total.
  - apply resolve_coincident.
Qed.

Lemma degenerate_geometry_total_witness :
  (30 < 260) /\
  Futbol12.collide_wall (mkBall 300 400 1 0 30) 300 400 260
    = Ok (mkBall 300 400 1 0 30, false) /\
  Futbol13.resolve_collisions (mkBall 300 400 1 0 30) (mkBall 300 400 0 1 30)
    = Ok (mkBall 300 400 1 0 30, mkBall 300 400 0 1 30).
Proof.
  assert (H : 30 < 260) by lra.
  destruct (degenerate_geometry_total Futbol13.ELASTICITY
              (mkBall 300 400 1 0 30) (mkBall 300 400 1 0 30)
              (mkBall 300 400 0 1 30) 300 400 260 H) as (_ & Hc & _ & Hp).
  split; [exact H | split].
  - apply Hc; reflexivity.
  - apply Hp; reflexivity.
Defined.

(** ** Angular distance *)

Lemma PI_gt_3 : 3 < PI.
Proof. pose proof PI2_3_2. lra. Qed.

(** A value in [[0, pi]] at distance [r] from [t] modulo [2 * pi] is the
    least such distance. *)
Lemma nearest_multiple (t r : R) (k0 : Z) :
  0 <= r <= PI -> r = Rabs (t - 2 * PI * IZR k0) ->
  forall k : Z, r <= Rabs (t - 2 * PI * IZR k).
Proof.
  intros Hr Hk0 k. pose proof PI_gt_3 as Hpi.
  destruct (Z.eq_dec k k0) as [-> | Hne]; [lra |].
  assert (Hm : IZR k0 - IZR k >= 1 \/ IZR k0 - IZR k <= -1).
  { destruct (Z_lt_le_dec k k0) as [Hlt | Hle].
    - left. rewrite <- minus_IZR. apply Rle_ge, IZR_le. lia.
    - right. rewrite <- minus_IZR. apply IZR_le. lia. }
  set (u := IZR k0) in *. set (v := IZR k) in *.
  assert (Hp : PI * (u - v) >= PI \/ PI * (u - v) <= - PI) by (destruct Hm; [left | right]; nra).
  revert Hk0. unfold Rabs.
  destruct (Rcase_abs (t - 2 * PI * u)), (Rcase_abs (t - 2 * PI * v));
    intros Hk0; destruct Hp; nra.
Qed.

Lemma abs_abs_shift (t : R) (k : Z) :
  exists k', Rabs (Rabs t - 2 * PI * IZR k) = Rabs (t - 2 * PI * IZR k').
Proof.
  unfold Rabs at 2. destruct (Rcase_abs t).
  - exists (- k)%Z. rewrite opp_IZR.
    replace (- t - 2 * PI * IZR k) with (- (t - 2 * PI * - IZR k)) by ring.
    apply Rabs_Ropp.
  - exists k. reflexivity.
Qed.

(** The loop stops within [S n] iterations on an input below
    [pi + 2 * pi * n], on a value of [[0, pi]] that differs from the input
    by a multiple of [2 * pi], up to sign. *)
Lemma wrap_loop_terminates (n : nat) (d : R) :
  0 <= d <= PI + 2 * PI * INR n ->
  exists r,
    (forall fuel, (S n <= fuel)%nat -> wrap_loop fuel d = Some r) /\
    0 <= r <= PI /\
    exists k : Z, r = Rabs (d - 2 * PI * IZR k).
Proof.
  pose proof PI_gt_3 as Hpi.
  revert d. induction n as [| n IH]; intros d Hd.
  - simpl in Hd. exists d. split; [| split].
    + intros [| fuel] Hf; [lia |]. simpl.
      destruct (Rgt_dec d PI); [exfalso; lra | reflexivity].
    + lra.
    + exists 0%Z. rewrite Rmult_0_r, Rminus_0_r, Rabs_pos_eq; lra.
  - destruct (Rgt_dec d PI) as [Hbig | Hsmall].
    + rewrite S_INR in Hd.
      assert (Hd' : 0 <= Rabs (d - 2 * PI) <= PI + 2 * PI * INR n).
      { split; [apply Rabs_pos |]. unfold Rabs.
        destruct (Rcase_abs (d - 2 * PI)); pose proof (pos_INR n); nra. }
      destruct (IH _ Hd') as (r & Hfuel & Hr & k & Hk).
      exists r. split; [| split; [exact Hr |]].
      * intros [| fuel] Hf; [lia |]. simpl.
        destruct (Rgt_dec d PI); [| contradiction]. apply Hfuel. lia.
      * destruct (abs_abs_shift (d - 2 * PI) k) as [k' Hk'].
        exists (k' + 1)%Z. rewrite Hk, Hk', plus_IZR. f_equal. ring.
    + exists d. split; [| split].
      * intros [| fuel] Hf; [lia |]. simpl.
        destruct (Rgt_dec d PI); [contradiction | reflexivity].
      * lra.
      * exists 0%Z. rewrite Rmult_0_r, Rminus_0_r, Rabs_pos_eq; lra.
Qed.

(** [wrap_fuel] iterations are enough. *)
Lemma wrap_fuel_enough (d : R) :
  0 <= d -> d <= PI + 2 * PI * INR (Z.to_nat (up (d / (2 * PI)))).
Proof.
  intros Hd. pose proof PI_gt_3 as Hpi.
  destruct (archimed (d / (2 * PI))) as [Hup _].
  assert (Hq : 0 <= d / (2 * PI)).
  { apply Rmult_le_pos; [exact Hd |]. apply Rlt_le, Rinv_0_lt_compat. lra. }
  assert (Hz : (0 <= up (d / (2 * PI)))%Z).
  { apply le_IZR. lra. }
  rewrite INR_IZR_INZ, Z2Nat.id by exact Hz.
  assert (d = d / (2 * PI) * (2 * PI)) by (field; lra).
  nra.
Qed.

Lemma wrap_spec (d : R) :
  0 <= d ->
  (forall fuel, (wrap_fuel d <= fuel)%nat -> wrap_loop fuel d = Some (wrap d)) /\
  0 <= wrap d <= PI /\
  exists k : Z, wrap d = Rabs (d - 2 * PI * IZR k).
Proof.
  intros Hd.
  destruct (wrap_loop_terminates (Z.to_nat (up (d / (2 * PI)))) d)
    as (r & Hfuel & Hr & Hk).
  { split; [exact Hd | now apply wrap_fuel_enough]. }
  assert (Hw : wrap d = r).
  { unfold wrap. rewrite (Hfuel (wrap_fuel d)); [reflexivity |].
    unfold wrap_fuel. lia. }
  rewrite Hw. split; [| split; assumption].
  intros fuel Hf. apply Hfuel. exact Hf.
Qed.

Lemma wrap_small (d : R) : d <= PI -> wrap d = d.
Proof.
  intros Hd. unfold wrap, wrap_fuel. simpl.
  destruct (Rgt_dec d PI); [exfalso; lra | reflexivity].
Qed.

(** The two forms of the goal test compute the same angular distance: the
    reduction modulo [2 * pi] of futbol 1.3 and 1.4 shifts both angles by
    multiples of [2 * pi]. *)
Lemma angle_diff_spec (b a : R) :
  0 <= angle_diff b a <= PI /\
  (exists k : Z, angle_diff b a = Rabs (a - b - 2 * PI * IZR k)) /\
  (forall k : Z, angle_diff b a <= Rabs (a - b - 2 * PI * IZR k)).
Proof.
  unfold angle_diff.
  destruct (wrap_spec (Rabs (b - a)) (Rabs_pos _)) as (_ & Hr & k & Hk).
  assert (Hex : exists k : Z, wrap (Rabs (b - a)) = Rabs (a - b - 2 * PI * IZR k)).
  { rewrite Rabs_minus_sym in Hk |- *. rewrite Hk. apply abs_abs_shift. }
  split; [exact Hr | split; [exact Hex |]].
  destruct Hex as [k0 Hk0]. now apply nearest_multiple with (k0 := k0).
Qed.

Lemma angle_diff_norm_spec (b a : R) :
  0 <= angle_diff_norm b a <= PI /\
  (exists k : Z, angle_diff_norm b a = Rabs (a - b - 2 * PI * IZR k)) /\
  (forall k : Z, angle_diff_norm b a <= Rabs (a - b - 2 * PI * IZR k)).
Proof.
  unfold angle_diff_norm, pymod.
  set (kb := Int_part (b / (2 * PI))). set (ka := Int_part (a / (2 * PI))).
  set (d := Rabs (b - 2 * PI * IZR kb - (a - 2 * PI * IZR ka))).
  destruct (wrap_spec d (Rabs_pos _)) as (_ & Hr & k & Hk).
  assert (Hex : exists k : Z, wrap d = Rabs (a - b - 2 * PI * IZR k)).
  { unfold d in Hk |- *. rewrite Rabs_minus_sym in Hk |- *. rewrite Hk.
    destruct (abs_abs_shift (a - 2 * PI * IZR ka - (b - 2 * PI * IZR kb)) k)
      as [k' Hk'].
    exists (k' + ka - kb)%Z. rewrite Hk', minus_IZR, plus_IZR. f_equal. ring. }
  split; [exact Hr | split; [exact Hex |]].
  destruct Hex as [k0 Hk0]. now apply nearest_multiple with (k0 := k0).
Qed.

Lemma angle_diff_norm_eq (b a : R) : angle_diff_norm b a = angle_diff b a.
Proof.
  destruct (angle_diff_spec b a) as (_ & [k1 H1] & M1).
  destruct (angle_diff_norm_spec b a) as (_ & [k2 H2] & M2).
  apply Rle_antisym.
  - rewrite H1. apply M2.
  - rewrite H2. apply M1.
Qed.

(** C5. The angular-distance computation of the goal test
    ([diff = abs (a - b)], then the loop) terminates for every zone angle
    [a] and point angle [b]; its value lies in [[0, pi]] and is the least
    [|a - b - 2 k pi|] over the integers [k].  The variant that first
    reduces both angles modulo [2 pi] returns the same value.  For zone
    angle 0.05 and point angle -0.05 both return 0.1. *)
Theorem angular_distance_correct (a b : R) :
  (forall fuel, (wrap_fuel (Rabs (b - a)) <= fuel)%nat ->
     wrap_loop fuel (Rabs (b - a)) = Some (angle_diff b a)) /\
  0 <= angle_diff b a <= PI /\
  (exists k : Z, angle_diff b a = Rabs (a - b - 2 * PI * IZR k)) /\
  (forall k : Z, angle_diff b a <= Rabs (a - b - 2 * PI * IZR k)) /\
  angle_diff_norm b a = angle_diff b a /\
  angle_diff (- (5 / 100)) (5 / 100) = 1 / 10 /\
  angle_diff_norm (- (5 / 100)) (5 / 100) = 1 / 10.
Proof.
  pose proof PI_gt_3 as Hpi.
  assert (Hsmall : angle_diff (- (5 / 100)) (5 / 100) = 1 / 10).
  { unfold angle_diff.
    replace (- (5 / 100) - 5 / 100) with (- (1 / 10)) by lra.
    rewrite Rabs_Ropp, Rabs_pos_eq by lra. apply wrap_small. lra. }
  split; [| split; [| split; [| split; [| split; [| split]]]]].
  - intros fuel Hf. unfold angle_diff.
    apply (proj1 (wrap_spec (Rabs (b - a)) (Rabs_pos _))), Hf.
  - apply angle_diff_spec.
  - apply angle_diff_spec.
  - apply angle_diff_spec.
  - apply angle_diff_norm_eq.
  - exact Hsmall.
  - rewrite angle_diff_norm_eq. exact Hsmall.
Qed.

Lemma angular_distance_correct_witness :
  wrap_loop (wrap_fuel (Rabs (- (5 / 100) - 5 / 100)))
            (Rabs (- (5 / 100) - 5 / 100))
  = Some (angle_diff (- (5 / 100)) (5 / 100)).
Proof.
  apply (proj1 (angular_distance_correct (5 / 100) (- (5 / 100)))).
  apply le_n.
Defined.

(** ** Match clock *)

Lemma chain_rank_cases (st : string) :
  chain_rank st <> None ->
  st = "FIRST_HALF"%string \/ st = "HALFTIME"%string \/
  st = "SECOND_HALF"%string \/ st = "FULLTIME"%string.
Proof.
  unfold chain_rank.
  destruct (String.eqb_spec st "FIRST_HALF"); [tauto |].
  destruct (String.eqb_spec st "HALFTIME"); [tauto |].
  destruct (String.eqb_spec st "SECOND_HALF"); [tauto |].
  destruct (String.eqb_spec st "FULLTIME"); [tauto |].
  intros H. now elim H.
Qed.

(** The timer of futbol 1.2 and 1.3 moves the state along the chain: it
    keeps it, or takes FirstHalf to HalfTime, or SecondHalf to FullTime. *)
Lemma timer_follows_chain (c : Clock) :
  chain_rank (state c) <> None ->
  chain_step (state c) (state (Futbol12.timer c)).
Proof.
  intros Hc. destruct c as [st fc a1 a2 dsp sm]. simpl in *.
  destruct (chain_rank_cases st Hc) as [-> | [-> | [-> | ->]]];
    unfold Futbol12.timer, timer_logic; simpl;
    repeat match goal with
      | |- context [(?a <=? ?b)%Z] => destruct (a <=? b)%Z
      end; simpl; unfold chain_step; simpl; auto.
Qed.

(** So does the block that ends halftime. *)
Lemma halftime_follows_chain (c : Clock) :
  chain_rank (state c) <> None ->
  chain_step (state c) (state (halftime_transition c)).
Proof.
  intros Hc. destruct c as [st fc a1 a2 dsp sm]. simpl in *.
  destruct (chain_rank_cases st Hc) as [-> | [-> | [-> | ->]]];
    unfold halftime_transition, chain_step; simpl; auto.
Qed.

Lemma chain_step_on_chain (st st' : string) :
  chain_step st st' -> chain_rank st' <> None.
Proof.
  unfold chain_step. destruct (chain_rank st); [| tauto].
  destruct (chain_rank st'); [discriminate | tauto].
Qed.

(** Futbol 1.2: every assignment to [state] in a run follows the chain,
    its rank never decreases, and FullTime is never left. *)
Lemma clock12_monotone (c : Clock) :
  chain_rank (state c) <> None ->
  chain_step (state c) (state (Futbol12.timer c)) /\
  chain_step (state (Futbol12.timer c)) (state (Futbol12.clock_tick c)) /\
  (state c = "FULLTIME"%string -> Futbol12.clock_tick c = c).
Proof.
  intros Hc. pose proof (timer_follows_chain c Hc) as H1.
  split; [exact H1 | split].
  - apply halftime_follows_chain. exact (chain_step_on_chain _ _ H1).
  - intros Hft. destruct c as [st fc a1 a2 dsp sm]. simpl in Hft. subst st.
    reflexivity.
Qed.

(** The clock of futbol 1.3 is that of futbol 1.2. *)
Lemma clock13_as_clock12 (c : Clock) :
  Futbol13.clock_tick c = Futbol12.clock_tick c.
Proof. reflexivity. Qed.

Lemma clock14_stuck (c : Clock) :
  state c = Futbol14.HALF_LABEL -> Futbol14.clock_tick c = c.
Proof.
  intros H. destruct c as [st fc a1 a2 dsp sm]. simpl in H. subst st.
  reflexivity.
Qed.

Lemma clock14_run_stuck (n : nat) (c : Clock) :
  state c = Futbol14.HALF_LABEL -> Futbol14.clock_run n c = c.
Proof.
  intros H. induction n as [| n IH]; [reflexivity |].
  simpl. rewrite clock14_stuck by exact H. exact IH.
Qed.

Lemma chain_step_le (st st' : string) : chain_step st st' -> chain_le st st'.
Proof.
  unfold chain_step, chain_le.
  destruct (chain_rank st); [| tauto]. destruct (chain_rank st'); [| tauto].
  lia.
Qed.

Lemma chain_le_trans (a b c : string) : chain_le a b -> chain_le b c -> chain_le a c.
Proof.
  unfold chain_le.
  destruct (chain_rank a); [| tauto]. destruct (chain_rank b); [| tauto].
  destruct (chain_rank c); [| tauto]. lia.
Qed.

(** Futbol 1.2 over a whole run: the state stays on the chain and never
    moves backward. *)
Lemma clock12_run_monotone (n : nat) (c : Clock) :
  chain_rank (state c) <> None ->
  chain_le (state c) (state (Futbol12.clock_run n c)).
Proof.
  revert c. induction n as [| n IH]; intros c Hc.
  - simpl. unfold chain_le. destruct (chain_rank (state c)); [lia | tauto].
  - simpl. destruct (clock12_monotone c Hc) as (S1 & S2 & _).
    apply chain_le_trans with (state (Futbol12.clock_tick c)).
    + apply chain_le_trans with (state (Futbol12.timer c));
        now apply chain_step_le.
    + apply IH. exact (chain_step_on_chain _ _ S2).
Qed.

(** C6 on futbol 1.4.  With one minute of added time the first half ends
    at iteration 1380.  Futbol 1.2 then passes through "HALFTIME" to
    "SECOND_HALF"; futbol 1.4 assigns a string that is none of the four
    states of the chain and that no later test recognises, so the state
    never changes again and neither SecondHalf nor FullTime is reached. *)
Theorem clock14_leaves_chain :
  let c0 := Futbol14.init_clock 1 2 in
  state (Futbol14.clock_run 1379 c0) = "FIRST_HALF"%string /\
  state (Futbol14.clock_run 1380 c0) = Futbol14.HALF_LABEL /\
  chain_rank Futbol14.HALF_LABEL = None /\
  ~ chain_step "FIRST_HALF" Futbol14.HALF_LABEL /\
  (forall n, state (Futbol14.clock_run (1380 + n) c0) = Futbol14.HALF_LABEL) /\
  state (Futbol12.timer (Futbol12.clock_run 1379 c0)) = "HALFTIME"%string /\
  state (Futbol12.clock_run 1380 c0) = "SECOND_HALF"%string.
Proof.
  intros c0.
  assert (H80 : state (Futbol14.clock_run 1380 c0) = Futbol14.HALF_LABEL)
    by (vm_compute; reflexivity).
  split; [vm_compute; reflexivity |].
  split; [exact H80 |].
  split; [vm_compute; reflexivity |].
  split; [unfold chain_step; vm_compute; tauto |].
  split; [| split; vm_compute; reflexivity].
  intros n.
  assert (Hrun : forall a b c, Futbol14.clock_run (a + b) c
                   = Futbol14.clock_run b (Futbol14.clock_run a c)).
  { induction a as [| a IH]; intros; [reflexivity | simpl; apply IH]. }
  rewrite Hrun, clock14_run_stuck; exact H80.
Qed.

(** ** Goal detection *)

Lemma atan2_axis_up (v : R) : 0 < v -> atan2 v 0 = PI / 2.
Proof.
  intros Hv. unfold atan2.
  destruct (Rlt_dec 0 0); [exfalso; lra |].
  destruct (Rlt_dec 0 v); [reflexivity | contradiction].
Qed.

Lemma atan2_axis_right (u : R) : 0 < u -> atan2 0 u = 0.
Proof.
  intros Hu. unfold atan2.
  destruct (Rlt_dec 0 u); [| contradiction].
  unfold Rdiv. rewrite Rmult_0_l. apply atan_0.
Qed.

Lemma atan2_axis_left (u : R) : u < 0 -> atan2 0 u = PI.
Proof.
  intros Hu. unfold atan2.
  destruct (Rlt_dec 0 u); [exfalso; lra |].
  destruct (Rlt_dec u 0); [| contradiction].
  destruct (Rle_dec 0 0); [| exfalso; lra].
  unfold Rdiv. rewrite Rmult_0_l, atan_0. ring.
Qed.

Lemma angle_diff_norm_same (a : R) : angle_diff_norm a a = 0.
Proof.
  unfold angle_diff_norm. rewrite Rminus_diag, Rabs_R0.
  apply wrap_small. pose proof PI_gt_3. lra.
Qed.

Lemma centre12 : Futbol12.center_x = 300 /\ Futbol12.center_y = 400.
Proof. split; reflexivity. Qed.

Lemma centre14 : Futbol14.center_x = 300 /\ Futbol14.center_y = 400.
Proof. split; reflexivity. Qed.

(** *** futbol 1.2 *)

Lemma goal_check12_hit (o : Oracle) (b : Slot) (p : Pitch) :
  Futbol12.in_goal b p -> Futbol12.goal_check o b p = Futbol12.goal o b p.
Proof.
  intros [Hd Ha]. unfold Futbol12.goal_check.
  destruct (Rgt_dec _ _); [| contradiction].
  destruct (Rlt_dec _ _); [reflexivity | contradiction].
Qed.

Lemma goal_check12_miss (o : Oracle) (b : Slot) (p : Pitch) :
  ~ Futbol12.in_goal b p -> Futbol12.goal_check o b p = p.
Proof.
  intros Hn. unfold Futbol12.goal_check.
  destruct (Rgt_dec _ _) as [Hd |]; [| reflexivity].
  destruct (Rlt_dec _ _) as [Ha |]; [| reflexivity].
  elim Hn. split; assumption.
Qed.

(** After the reset of futbol 1.2 neither body meets the goal condition:
    both sit on the horizontal through the centre, a quarter turn away from
    the goal, which is put back at [pi / 2]. *)
Lemma reset12_not_in_goal (o : Oracle) (b b' : Slot) (p : Pitch) :
  ~ Futbol12.in_goal b' (Futbol12.goal o b p).
Proof.
  pose proof PI_gt_3 as Hpi. destruct centre12 as [Ex Ey].
  unfold Futbol12.in_goal, Futbol12.goal. intros [_ Ha]. revert Ha.
  unfold Futbol12.GOAL_WIDTH_RADIANS.
  destruct b'; cbn [ball_of ball1 ball2 x y goal_angle];
    rewrite Rminus_diag.
  - replace (Futbol12.center_x - 60 - Futbol12.center_x) with (-60) by ring.
    rewrite atan2_axis_left by lra. unfold angle_diff.
    replace (PI - PI / 2) with (PI / 2) by field.
    rewrite Rabs_pos_eq, wrap_small by lra. lra.
  - replace (Futbol12.center_x + 60 - Futbol12.center_x) with 60 by ring.
    rewrite atan2_axis_right by lra. unfold angle_diff.
    replace (0 - PI / 2) with (- (PI / 2)) by ring.
    rewrite Rabs_Ropp, Rabs_pos_eq, wrap_small by lra. lra.
Qed.

Lemma in_goal12_dec (b : Slot) (p : Pitch) :
  {Futbol12.in_goal b p} + {~ Futbol12.in_goal b p}.
Proof.
  unfold Futbol12.in_goal.
  destruct (Rgt_dec (hypot (x (ball_of b p) - Futbol12.center_x)
                           (y (ball_of b p) - Futbol12.center_y))
                    (Futbol12.ARENA_RADIUS - radius (ball_of b p) - 5));
    [| right; tauto].
  destruct (Rlt_dec (angle_diff (atan2 (y (ball_of b p) - Futbol12.center_y)
                                       (x (ball_of b p) - Futbol12.center_x))
                                (goal_angle p))
                    (Futbol12.GOAL_WIDTH_RADIANS / 2));
    [left | right]; tauto.
Qed.

(** The goal loop of futbol 1.2 by cases. *)
Lemma goal_detection12_cases (o : Oracle) (p : Pitch) :
  (Futbol12.in_goal B1 p ->
   Futbol12.goal_detection o p = Futbol12.goal o B1 p) /\
  (~ Futbol12.in_goal B1 p -> Futbol12.in_goal B2 p ->
   Futbol12.goal_detection o p = Futbol12.goal o B2 p) /\
  (~ Futbol12.in_goal B1 p -> ~ Futbol12.in_goal B2 p ->
   Futbol12.goal_detection o p = p).
Proof.
  unfold Futbol12.goal_detection. simpl. repeat split.
  - intros H1. rewrite (goal_check12_hit o B1 p H1).
    apply goal_check12_miss, reset12_not_in_goal.
  - intros H1 H2. rewrite (goal_check12_miss o B1 p H1).
    now apply goal_check12_hit.
  - intros H1 H2. rewrite (goal_check12_miss o B1 p H1).
    now apply goal_check12_miss.
Qed.

(** *** futbol 1.4 *)

Lemma goal_check14_hit (o : Oracle) (b : Slot) (w : Futbol14.World) :
  Futbol14.in_goal b w -> Futbol14.goal_check o b w = Futbol14.goal o b w.
Proof.
  intros [Hd Ha]. unfold Futbol14.goal_check.
  destruct (Rgt_dec _ _); [| contradiction].
  destruct (Rlt_dec _ _); [reflexivity | contradiction].
Qed.

Lemma goal_check14_miss (o : Oracle) (b : Slot) (w : Futbol14.World) :
  ~ Futbol14.in_goal b w -> Futbol14.goal_check o b w = w.
Proof.
  intros Hn. unfold Futbol14.goal_check.
  destruct (Rgt_dec _ _) as [Hd |]; [| reflexivity].
  destruct (Rlt_dec _ _) as [Ha |]; [| reflexivity].
  elim Hn. split; assumption.
Qed.

(** A goal by the first body leaves the second where it is, and the goal
    where it is: the second body meets the goal condition after it exactly
    when it did before. *)
Lemma goal14_keeps_other (o : Oracle) (w : Futbol14.World) :
  Futbol14.in_goal B2 (Futbol14.goal o B1 w) <-> Futbol14.in_goal B2 w.
Proof. unfold Futbol14.in_goal, Futbol14.goal. simpl. tauto. Qed.

Lemma goal_detection14_both (o : Oracle) (w : Futbol14.World) :
  Futbol14.in_goal B1 w -> Futbol14.in_goal B2 w ->
  Futbol14.goal_detection o w = Futbol14.goal o B2 (Futbol14.goal o B1 w).
Proof.
  intros H1 H2. unfold Futbol14.goal_detection. simpl.
  rewrite (goal_check14_hit o B1 w H1).
  apply goal_check14_hit, goal14_keeps_other, H2.
Qed.

Lemma stacked_in_goal (b : Slot) (w : Futbol14.World) :
  x (ball_of b (Futbol14.pitch w)) = 300 -> y (ball_of b (Futbol14.pitch w)) = 620 ->
  radius (ball_of b (Futbol14.pitch w)) = 40 -> goal_angle (Futbol14.pitch w) = PI / 2 ->
  Futbol14.in_goal b w.
Proof.
  intros Hx Hy Hr Hg. unfold Futbol14.in_goal. cbv zeta.
  rewrite Hx, Hy, Hr, Hg.
  change Futbol14.center_x with 300. change Futbol14.center_y with 400.
  unfold Futbol14.ARENA_RADIUS, Futbol14.GOAL_WIDTH_RADIANS.
  replace (300 - 300) with 0 by ring. replace (620 - 400) with 220 by ring.
  rewrite hypot_axis_y, Rabs_pos_eq by lra.
  rewrite atan2_axis_up by lra. rewrite angle_diff_norm_same.
  split; lra.
Qed.

(** A ball at rest on the wall, straight below the centre of futbol 1.4, is
    left where it is by [move] and by the wall check. *)
Lemma stacked_ball_fixed :
  let b := mkBall 300 620 0 0 40 in
  Futbol14.move b = b /\
  Futbol14.collide_wall b Futbol14.center_x Futbol14.center_y
                        Futbol14.ARENA_RADIUS = Ok (b, true).
Proof.
  intros b. split.
  - unfold Futbol14.move, move_with, Futbol14.GRAVITY, Futbol14.FRICTION.
    apply ball_eq; simpl; lra.
  - unfold Futbol14.collide_wall, Futbol14.ARENA_RADIUS.
    change Futbol14.center_x with 300. change Futbol14.center_y with 400.
    assert (Hd : hypot (x b - 300) (y b - 400) = 220).
    { apply hypot_unique; simpl; lra. }
    rewrite collide_wall_gated_touching by (rewrite Hd; simpl; lra).
    rewrite Hd. cbn [x y vx vy radius b].
    match goal with |- context [Rgt_dec ?a 0] =>
      destruct (Rgt_dec a 0); [exfalso; lra |] end.
    do 2 f_equal. apply ball_eq; simpl; lra.
Qed.

Lemma stacked_solver (n : nat) :
  let b := mkBall 300 620 0 0 40 in
  Futbol14.solver n (b, b) = Ok (b, b).
Proof.
  intros b. induction n as [| n IH]; [reflexivity |].
  destruct stacked_ball_fixed as [_ Hw]. fold b in Hw.
  simpl. unfold Futbol14.solver_pass. cbn [fst snd].
  rewrite Hw. cbn [bind]. unfold Futbol14.resolve_collisions.
  rewrite resolve_coincident by reflexivity. cbn [bind]. exact IH.
Qed.

(** The physics block of futbol 1.4 on [stacked_world]: nothing moves, and
    the goal loop then finds both balls in the goal. *)
Lemma stacked_physics (o : Oracle) (c : Clock) :
  Futbol14.physics o
    (Futbol14.mkWorld c (Futbol14.pitch stacked_world) 0 [] [])
  = Ok (Futbol14.goal o B2
          (Futbol14.goal o B1
             (Futbol14.mkWorld c (Futbol14.pitch stacked_world) 0 [] []))).
Proof.
  destruct stacked_ball_fixed as [Hm _].
  unfold Futbol14.physics, stacked_world.
  cbn [rotate_goal goal_rotating ball1 ball2 Futbol14.goll_timer
       Futbol14.clock Futbol14.goal_events_1 Futbol14.goal_events_2
       Futbol14.pitch].
  rewrite Hm, stacked_solver. cbn [bind Z.ltb Z.compare].
  f_equal. apply goal_detection14_both; apply stacked_in_goal; reflexivity.
Qed.

(** An iteration of the main loop of futbol 1.4 from [stacked_world]: the
    physics block runs and the halftime block is not entered. *)
Lemma stacked_tick_result (fuel : nat) (o : Oracle) (d : Dice) :
  Futbol14.tick fuel o d stacked_world
  = Some (Ok (Futbol14.goal o B2
                (Futbol14.goal o B1
                   (Futbol14.mkWorld
                      (Futbol14.timer (Futbol14.clock stacked_world))
                      (Futbol14.pitch stacked_world) 0 [] [])))).
Proof.
  unfold Futbol14.tick.
  change (playing (state (Futbol14.clock stacked_world))) with true.
  cbv iota.
  change (Futbol14.goll_timer stacked_world) with 0%Z.
  change (Futbol14.goal_events_1 stacked_world) with (@nil Futbol14.TimeMark).
  change (Futbol14.goal_events_2 stacked_world) with (@nil Futbol14.TimeMark).
  rewrite stacked_physics. reflexivity.
Qed.

(** C4, as stated, fails on futbol 1.4.  From [stacked_world] one iteration
    of the main loop records two goals: both scores go from 0 to 1 and each
    team's event list receives an entry. *)
Lemma two_goals_in_one_tick :
  Futbol14.in_goal B1 stacked_world /\ Futbol14.in_goal B2 stacked_world /\
  exists w',
    Futbol14.tick 1 sample_oracle sample_dice stacked_world = Some (Ok w') /\
    score1 (Futbol14.pitch stacked_world) = 0%Z /\ score2 (Futbol14.pitch stacked_world) = 0%Z /\
    score1 (Futbol14.pitch w') = 1%Z /\ score2 (Futbol14.pitch w') = 1%Z /\
    List.length (Futbol14.goal_events_1 w') = 1%nat /\
    List.length (Futbol14.goal_events_2 w') = 1%nat.
Proof.
  split; [apply stacked_in_goal; reflexivity |].
  split; [apply stacked_in_goal; reflexivity |].
  eexists. split.
  - apply stacked_tick_result.
  - repeat split.
Qed.

Lemma in_goal14_dec (b : Slot) (w : Futbol14.World) :
  {Futbol14.in_goal b w} + {~ Futbol14.in_goal b w}.
Proof.
  unfold Futbol14.in_goal. cbv zeta.
  match goal with |- {?a > ?b /\ _} + {_} => destruct (Rgt_dec a b) end;
    [| right; tauto].
  match goal with |- {_ /\ ?a < ?b} + {_} => destruct (Rlt_dec a b) end;
    [left | right]; tauto.
Qed.

(** The goal loop of futbol 1.4 by cases: each body is judged on its own
    position, whatever the other has done. *)
Lemma goal_detection14_cases (o : Oracle) (w : Futbol14.World) :
  (Futbol14.in_goal B1 w -> Futbol14.in_goal B2 w ->
   Futbol14.goal_detection o w = Futbol14.goal o B2 (Futbol14.goal o B1 w)) /\
  (Futbol14.in_goal B1 w -> ~ Futbol14.in_goal B2 w ->
   Futbol14.goal_detection o w = Futbol14.goal o B1 w) /\
  (~ Futbol14.in_goal B1 w -> Futbol14.in_goal B2 w ->
   Futbol14.goal_detection o w = Futbol14.goal o B2 w) /\
  (~ Futbol14.in_goal B1 w -> ~ Futbol14.in_goal B2 w ->
   Futbol14.goal_detection o w = w).
Proof.
  repeat split.
  - apply goal_detection14_both.
  - intros H1 H2. unfold Futbol14.goal_detection. simpl.
    rewrite (goal_check14_hit o B1 w H1). apply goal_check14_miss.
    intros H. apply H2, (goal14_keeps_other o w), H.
  - intros H1 H2. unfold Futbol14.goal_detection. simpl.
    rewrite (goal_check14_miss o B1 w H1). now apply goal_check14_hit.
  - intros H1 H2. unfold Futbol14.goal_detection. simpl.
    rewrite (goal_check14_miss o B1 w H1). now apply goal_check14_miss.
Qed.

Lemma goal_mouth_in_goal : Futbol12.in_goal B1 goal_mouth_pitch.
Proof.
  pose proof PI_gt_3 as Hpi.
  unfold Futbol12.in_goal, goal_mouth_pitch. cbn [ball_of ball1 x y radius goal_angle].
  change Futbol12.center_x with 300. change Futbol12.center_y with 400.
  unfold Futbol12.ARENA_RADIUS, Futbol12.GOAL_WIDTH_RADIANS.
  replace (300 - 300) with 0 by ring. replace (630 - 400) with 230 by ring.
  rewrite hypot_axis_y, Rabs_pos_eq by lra.
  rewrite atan2_axis_up by lra. unfold angle_diff.
  rewrite Rminus_diag, Rabs_R0, wrap_small by lra. split; lra.
Qed.

(** C4, amended.  The goal loop checks the two bodies in the order ball1,
    ball2 and has no early exit.  In futbol 1.2 a goal resets both bodies to
    the kick-off positions, where neither meets the goal condition: the first
    qualifying body in iteration order scores and at most one goal is
    recorded per tick.  In futbol 1.4 a goal respawns the scorer only: the
    second body is still judged on its own position, so one goal is recorded
    for each body that meets the goal condition. *)
Theorem goals_per_tick (o : Oracle) (p : Pitch) (w : Futbol14.World) :
  ((Futbol12.in_goal B1 p ->
    Futbol12.goal_detection o p = Futbol12.goal o B1 p) /\
   (~ Futbol12.in_goal B1 p -> Futbol12.in_goal B2 p ->
    Futbol12.goal_detection o p = Futbol12.goal o B2 p) /\
   (~ Futbol12.in_goal B1 p -> ~ Futbol12.in_goal B2 p ->
    Futbol12.goal_detection o p = p)) /\
  (score1 (Futbol12.goal_detection o p) + score2 (Futbol12.goal_detection o p)
   <= score1 p + score2 p + 1)%Z /\
  ((Futbol14.in_goal B1 w -> Futbol14.in_goal B2 w ->
    Futbol14.goal_detection o w = Futbol14.goal o B2 (Futbol14.goal o B1 w) /\
    score1 (Futbol14.pitch (Futbol14.goal_detection o w))
      = (score1 (Futbol14.pitch w) + 1)%Z /\
    score2 (Futbol14.pitch (Futbol14.goal_detection o w))
      = (score2 (Futbol14.pitch w) + 1)%Z) /\
   (Futbol14.in_goal B1 w -> ~ Futbol14.in_goal B2 w ->
    Futbol14.goal_detection o w = Futbol14.goal o B1 w) /\
   (~ Futbol14.in_goal B1 w -> Futbol14.in_goal B2 w ->
    Futbol14.goal_detection o w = Futbol14.goal o B2 w) /\
   (~ Futbol14.in_goal B1 w -> ~ Futbol14.in_goal B2 w ->
    Futbol14.goal_detection o w = w)).
Proof.
  pose proof (goal_detection12_cases o p) as (C1 & C2 & C3).
  pose proof (goal_detection14_cases o w) as (D1 & D2 & D3 & D4).
  split; [repeat split; assumption | split].
  - destruct (in_goal12_dec B1 p) as [H1 | H1].
    + rewrite (C1 H1). simpl. lia.
    + destruct (in_goal12_dec B2 p) as [H2 | H2].
      * rewrite (C2 H1 H2). simpl. lia.
      * rewrite (C3 H1 H2). lia.
  - split; [| repeat split; assumption].
    intros H1 H2. rewrite (D1 H1 H2). repeat split.
Qed.

Lemma goals_per_tick_witness :
  Futbol12.in_goal B1 goal_mouth_pitch /\
  Futbol12.goal_detection sample_oracle goal_mouth_pitch
    = Futbol12.goal sample_oracle B1 goal_mouth_pitch /\
  Futbol14.in_goal B1 stacked_world /\ Futbol14.in_goal B2 stacked_world /\
  score1 (Futbol14.pitch (Futbol14.goal_detection sample_oracle stacked_world))
    = (score1 (Futbol14.pitch stacked_world) + 1)%Z /\
  score2 (Futbol14.pitch (Futbol14.goal_detection sample_oracle stacked_world))
    = (score2 (Futbol14.pitch stacked_world) + 1)%Z.
Proof.
  pose proof goal_mouth_in_goal as G.
  assert (S1 : Futbol14.in_goal B1 stacked_world)
    by (apply stacked_in_goal; reflexivity).
  assert (S2 : Futbol14.in_goal B2 stacked_world)
    by (apply stacked_in_goal; reflexivity).
  destruct (goals_per_tick sample_oracle goal_mouth_pitch stacked_world)
    as ((T1 & _ & _) & _ & (T2 & _)).
  destruct (T2 S1 S2) as (_ & E1 & E2).
  exact (conj G (conj (T1 G) (conj S1 (conj S2 (conj E1 E2))))).
Defined.

(** ** Containment *)

(** The positional correction of the wall check puts the body exactly on
    the wall. *)
Lemma pushed_to_wall (dx dy r R_ : R) :
  hypot dx dy <> 0 -> r <= R_ ->
  hypot (dx - dx / hypot dx dy * (hypot dx dy + r - R_))
        (dy - dy / hypot dx dy * (hypot dx dy + r - R_)) = R_ - r.
Proof.
  intros Hd Hr. set (d := hypot dx dy) in *.
  assert (Hpos : 0 < d) by (pose proof (hypot_nonneg dx dy); fold d in H; lra).
  replace (dx - dx / d * (d + r - R_)) with ((R_ - r) / d * dx) by (field; lra).
  replace (dy - dy / d * (d + r - R_)) with ((R_ - r) / d * dy) by (field; lra).
  rewrite hypot_scale. fold d.
  rewrite Rabs_pos_eq.
  - field. lra.
  - apply Rmult_le_pos; [lra |]. apply Rlt_le, Rinv_0_lt_compat, Hpos.
Qed.



Section WallPass.
Variables (cx cy R_ : R) (b b' : Ball) (hit : bool).
Hypothesis radius_fits : radius b <= R_.

Lemma wall_pass_shape (vx' vy' : R) :
  hypot (x b - cx) (y b - cy) <> 0 ->
  hypot (x b - cx) (y b - cy) + radius b >= R_ ->
  let d := hypot (x b - cx) (y b - cy) in
  let q := mkBall (x b - (x b - cx) / d * (d + radius b - R_))
                  (y b - (y b - cy) / d * (d + radius b - R_))
                  vx' vy' (radius b) in
  radius q = radius b /\ contained 0 cx cy R_ q.
Proof.
  intros Hd Ht d q. split; [reflexivity |].
  unfold contained, dist_to, q. cbn [x y radius].
  replace (x b - (x b - cx) / d * (d + radius b - R_) - cx)
    with ((x b - cx) - (x b - cx) / d * (d + radius b - R_)) by ring.
  replace (y b - (y b - cy) / d * (d + radius b - R_) - cy)
    with ((y b - cy) - (y b - cy) / d * (d + radius b - R_)) by ring.
  unfold d. rewrite pushed_to_wall by assumption. lra.
Qed.

Lemma wall_pass_untouched :
  ~ hypot (x b - cx) (y b - cy) + radius b >= R_ -> contained 0 cx cy R_ b.
Proof. intros Hn. unfold contained, dist_to. lra. Qed.


Lemma collide_wall_always_inside (D : R) :
  collide_wall_always D b cx cy R_ = Ok (b', hit) ->
  radius b' = radius b /\ contained 0 cx cy R_ b'.
Proof.
  unfold collide_wall_always.
  destruct (Rge_dec _ _) as [Ht | Hn].
  - destruct (Req_dec_T (hypot (x b - cx) (y b - cy)) 0) as [Hz | Hnz].
    + unfold pydiv at 1. destruct (Req_dec_T _ 0); [discriminate | contradiction].
    + rewrite !pydiv_ok by exact Hnz. cbn [bind]. intros E.
      injection E as <- _. now apply wall_pass_shape.
  - intros E. injection E as <- _. split; [reflexivity |].
    now apply wall_pass_untouched.
Qed.

End WallPass.






(** *** The physics block of futbol 1.2 on [squeezed_pitch] *)

Ltac hypot_is v :=
  match goal with
  | |- context [hypot ?a ?b] =>
      replace (hypot a b) with v by (symmetry; apply hypot_unique; lra)
  end.

Lemma squeezed_moves :
  Futbol12.move_and_collide (ball1 squeezed_pitch)
    = Ok (mkBall 500 400 (- (9 / 2)) 0 30) /\
  Futbol12.move_and_collide (ball2 squeezed_pitch)
    = Ok (mkBall 529 400 (9 / 2) 0 30).
Proof.
  unfold Futbol12.move_and_collide, Futbol12.collide_wall, collide_wall_plain,
    Futbol12.move, move_plain, set_pos, squeezed_pitch, Futbol12.ARENA_RADIUS.
  change Futbol12.center_x with 300. change Futbol12.center_y with 400.
  cbn [ball1 ball2 x y vx vy radius]. split.
  - hypot_is 200. destruct (Rge_dec (200 + 30) 260); [exfalso; lra |].
    cbn [bind]. f_equal. apply ball_eq; simpl; lra.
  - hypot_is 229. destruct (Rge_dec (229 + 30) 260); [exfalso; lra |].
    cbn [bind]. f_equal. apply ball_eq; simpl; lra.
Qed.

Lemma squeezed_pair :
  Futbol12.check_collision (mkBall 500 400 (- (9 / 2)) 0 30)
                           (mkBall 529 400 (9 / 2) 0 30)
  = Ok (ball1 squeezed_after, ball2 squeezed_after).
Proof.
  unfold Futbol12.check_collision, check_collision, squeezed_after.
  cbn [ball1 ball2 x y vx vy radius].
  hypot_is 29. destruct (Rlt_dec 29 (30 + 30)); [| exfalso; lra].
  rewrite !pydiv_ok by lra. cbn [bind].
  match goal with |- context [Rgt_dec ?a 0] =>
    destruct (Rgt_dec a 0); [exfalso; lra |] end.
  do 2 f_equal; apply ball_eq; simpl; lra.
Qed.

Lemma squeezed_no_goal (b : Slot) : ~ Futbol12.in_goal b squeezed_after.
Proof.
  pose proof PI_gt_3 as Hpi.
  unfold Futbol12.in_goal, squeezed_after, Futbol12.ARENA_RADIUS,
    Futbol12.GOAL_WIDTH_RADIANS.
  change Futbol12.center_x with 300. change Futbol12.center_y with 400.
  destruct b; cbn [ball_of ball1 ball2 x y radius goal_angle];
    rewrite Rminus_diag.
  - intros [Hd _]. revert Hd.
    replace (969 / 2 - 300) with (369 / 2) by lra.
    rewrite hypot_axis_x, Rabs_pos_eq by lra. lra.
  - intros [_ Ha]. revert Ha.
    replace (1089 / 2 - 300) with (489 / 2) by lra.
    rewrite atan2_axis_right by lra. unfold angle_diff.
    replace (0 - PI / 2) with (- (PI / 2)) by ring.
    rewrite Rabs_Ropp, Rabs_pos_eq, wrap_small by lra. lra.
Qed.

Lemma squeezed_physics (o : Oracle) (c : Clock) :
  playing (state c) = true ->
  Futbol12.physics o c squeezed_pitch = Ok squeezed_after.
Proof.
  intros Hc. destruct squeezed_moves as [M1 M2].
  unfold Futbol12.physics. rewrite Hc.
  unfold Futbol12.collisions.
  change (rotate_goal Futbol12.goal_rot_speed squeezed_pitch) with squeezed_pitch.
  rewrite M1. cbn [bind]. rewrite M2. cbn [bind].
  rewrite squeezed_pair. cbn [bind].
  change (set_balls squeezed_pitch (ball1 squeezed_after) (ball2 squeezed_after))
    with squeezed_after.
  f_equal. apply goal_detection12_cases; apply squeezed_no_goal.
Qed.



(** *** The bound that does hold *)








(** *** futbol 1.4: every solver pass halves the excess

    A solver pass is the wall check of each ball followed by the pairwise
    step.  The pairwise step pushes each ball by half the overlap [dl]; the
    next wall check pulls a ball back by its excess [e] beyond the wall, and
    the pull shortens the distance between the centres by at most [dl], so
    the next overlap is at most [dl] and the next push at most [dl / 2]. *)

















(** *** The pressed pair of futbol 1.4 *)











(** * Further properties of the code *)

(** ** Wall check: mirror, damping, gate *)

(** The three wall checks answer [True] exactly when the wall test holds,
    and then the centre is off the arena centre. *)
Lemma wall_hit_touching (D : R) (b b' : Ball) (cx cy R_ : R) :
  collide_wall_plain b cx cy R_ = Ok (b', true) \/
  collide_wall_always D b cx cy R_ = Ok (b', true) \/
  collide_wall_gated D b cx cy R_ = Ok (b', true) ->
  dist_to b cx cy + radius b >= R_ /\ dist_to b cx cy <> 0.
Proof.
  unfold collide_wall_plain, collide_wall_always, collide_wall_gated, dist_to.
  intros H.
  destruct (Rge_dec (hypot (x b - cx) (y b - cy) + radius b) R_) as [Ht | Hn].
  - split; [exact Ht |]. intros Hz. rewrite Hz in H.
    rewrite !pydiv_zero in H. simpl in H.
    destruct H as [H | [H | H]]; discriminate.
  - destruct H as [H | [H | H]]; discriminate.
Qed.

(** The same position update, whatever the velocity: the body keeps its
    direction from the centre and lands at distance [R_ - radius]. *)
Lemma wall_landing (D : R) (b b' : Ball) (cx cy R_ : R) :
  radius b <= R_ ->
  collide_wall_plain b cx cy R_ = Ok (b', true) \/
  collide_wall_always D b cx cy R_ = Ok (b', true) \/
  collide_wall_gated D b cx cy R_ = Ok (b', true) ->
  x b' - cx = (R_ - radius b) / dist_to b cx cy * (x b - cx) /\
  y b' - cy = (R_ - radius b) / dist_to b cx cy * (y b - cy) /\
  radius b' = radius b.
Proof.
  intros Hr H. destruct (wall_hit_touching D b b' cx cy R_ H) as [Ht Hd].
  unfold dist_to in *.
  assert (Hb : exists u v,
    b' = mkBall (x b - (x b - cx) / hypot (x b - cx) (y b - cy)
                       * (hypot (x b - cx) (y b - cy) + radius b - R_))
                (y b - (y b - cy) / hypot (x b - cx) (y b - cy)
                       * (hypot (x b - cx) (y b - cy) + radius b - R_))
                u v (radius b)).
  { destruct H as [H | [H | H]].
    - unfold collide_wall_plain in H.
      destruct (Rge_dec _ _); [| contradiction].
      rewrite !pydiv_ok in H by exact Hd. cbn [bind] in H.
      injection H as <-. do 2 eexists. reflexivity.
    - unfold collide_wall_always in H.
      destruct (Rge_dec _ _); [| contradiction].
      rewrite !pydiv_ok in H by exact Hd. cbn [bind] in H.
      injection H as <-. do 2 eexists. reflexivity.
    - rewrite collide_wall_gated_touching in H by assumption.
      injection H as <-. do 2 eexists. reflexivity. }
  destruct Hb as (u & v & ->). cbn [x y radius].
  repeat split; field; exact Hd.
Qed.

Lemma normal_sq (dx dy : R) :
  hypot dx dy <> 0 ->
  dx / hypot dx dy * (dx / hypot dx dy) + dy / hypot dx dy * (dy / hypot dx dy) = 1.
Proof.
  intros Hd. pose proof (hypot_sq dx dy) as Hs.
  replace (dx / hypot dx dy * (dx / hypot dx dy)
           + dy / hypot dx dy * (dy / hypot dx dy))
    with ((dx * dx + dy * dy) / (hypot dx dy * hypot dx dy)) by (field; exact Hd).
  rewrite <- Hs. field. exact Hd.
Qed.

Lemma along_dir (A B dx dy d : R) :
  d <> 0 -> A * dx + B * dy = d * (A * (dx / d) + B * (dy / d)).
Proof. intros Hd. field. exact Hd. Qed.

Lemma reflect_speed (u v nx ny : R) :
  nx * nx + ny * ny = 1 ->
  (u - 2 * (u * nx + v * ny) * nx) * (u - 2 * (u * nx + v * ny) * nx)
  + (v - 2 * (u * nx + v * ny) * ny) * (v - 2 * (u * nx + v * ny) * ny)
  = u * u + v * v.
Proof.
  intros H.
  replace ((u - 2 * (u * nx + v * ny) * nx) * (u - 2 * (u * nx + v * ny) * nx)
           + (v - 2 * (u * nx + v * ny) * ny) * (v - 2 * (u * nx + v * ny) * ny))
    with (u * u + v * v
          - 4 * (u * nx + v * ny) * (u * nx + v * ny) * (1 - (nx * nx + ny * ny)))
    by ring.
  rewrite H. ring.
Qed.

Lemma reflect_dot (u v nx ny : R) :
  nx * nx + ny * ny = 1 ->
  (u - 2 * (u * nx + v * ny) * nx) * nx + (v - 2 * (u * nx + v * ny) * ny) * ny
  = - (u * nx + v * ny).
Proof.
  intros H.
  replace ((u - 2 * (u * nx + v * ny) * nx) * nx
           + (v - 2 * (u * nx + v * ny) * ny) * ny)
    with ((u * nx + v * ny) * (1 - 2 * (nx * nx + ny * ny))) by ring.
  rewrite H. ring.
Qed.

(** X2. When the wall check of futbol 1.2 or 1.3 answers [True], the
    velocity is mirrored in the wall and scaled by the damping factor [D]
    (1 in futbol 1.2): the squared speed is multiplied by [D * D], and the
    component along the direction from the arena centre to the body is
    reversed and multiplied by [D]. *)
Theorem wall_reflection_mirror (D : R) (b b' : Ball) (cx cy R_ : R) :
  (collide_wall_plain b cx cy R_ = Ok (b', true) ->
   speed_sq b' = speed_sq b /\
   vx b' * (x b - cx) + vy b' * (y b - cy) = - outward b cx cy) /\
  (collide_wall_always D b cx cy R_ = Ok (b', true) ->
   speed_sq b' = D * D * speed_sq b /\
   vx b' * (x b - cx) + vy b' * (y b - cy) = - D * outward b cx cy).
Proof.
  split; intros H.
  - destruct (wall_hit_touching D b b' cx cy R_ (or_introl H)) as [Ht Hd].
    unfold dist_to in Hd. unfold collide_wall_plain in H.
    destruct (Rge_dec _ _); [| contradiction].
    rewrite !pydiv_ok in H by exact Hd. cbn [bind] in H. injection H as <-.
    pose proof (normal_sq _ _ Hd) as Hn.
    set (d := hypot (x b - cx) (y b - cy)) in *.
    unfold speed_sq, outward. cbn [vx vy]. split.
    + apply reflect_speed, Hn.
    + pose proof (reflect_dot (vx b) (vy b) _ _ Hn) as Hdot.
      etransitivity; [apply (along_dir _ _ _ _ d Hd) |].
      rewrite Hdot, (along_dir (vx b) (vy b) (x b - cx) (y b - cy) d Hd). ring.
  - destruct (wall_hit_touching D b b' cx cy R_ (or_intror (or_introl H)))
      as [Ht Hd].
    unfold dist_to in Hd. unfold collide_wall_always in H.
    destruct (Rge_dec _ _); [| contradiction].
    rewrite !pydiv_ok in H by exact Hd. cbn [bind] in H. injection H as <-.
    pose proof (normal_sq _ _ Hd) as Hn.
    set (d := hypot (x b - cx) (y b - cy)) in *.
    unfold speed_sq, outward. cbn [vx vy]. split.
    + pose proof (reflect_speed (vx b) (vy b) _ _ Hn) as Hs. nra.
    + pose proof (reflect_dot (vx b) (vy b) _ _ Hn) as Hdot.
      etransitivity; [apply (along_dir _ _ _ _ d Hd) |].
      match goal with
      | |- d * (?a * D * ?n1 + ?c * D * ?n2) = _ =>
          replace (a * D * n1 + c * D * n2) with (D * (a * n1 + c * n2)) by ring
      end.
      rewrite Hdot, (along_dir (vx b) (vy b) (x b - cx) (y b - cy) d Hd). ring.
Qed.

Lemma wall13_sample :
  collide_wall_always Futbol13.BOUNCE_DAMPING (mkBall 530 400 (-1) 0 30)
                      300 400 260
  = Ok (mkBall 530 400 (995 / 1000) 0 30, true).
Proof.
  assert (Hd : hypot (530 - 300) (400 - 400) = 230)
    by (apply hypot_unique; lra).
  unfold collide_wall_always, Futbol13.BOUNCE_DAMPING.
  cbn [x y vx vy radius]. rewrite Hd.
  destruct (Rge_dec (230 + 30) 260); [| exfalso; lra].
  rewrite !pydiv_ok by lra. cbn [bind].
  do 2 f_equal. apply ball_eq; simpl; lra.
Qed.

Lemma wall_reflection_mirror_witness :
  speed_sq (mkBall 530 400 (995 / 1000) 0 30)
  = Futbol13.BOUNCE_DAMPING * Futbol13.BOUNCE_DAMPING
    * speed_sq (mkBall 530 400 (-1) 0 30).
Proof.
  exact (proj1 (proj2 (wall_reflection_mirror Futbol13.BOUNCE_DAMPING
                         (mkBall 530 400 (-1) 0 30)
                         (mkBall 530 400 (995 / 1000) 0 30) 300 400 260)
                      wall13_sample)).
Defined.

(** X3. The gated wall check of futbol 1.4, with a damping factor in
    [[0, 1]]: when it answers [True] the returned body does not move
    outward, its speed has not increased, and a body that was not moving
    outward keeps its velocity. *)
Theorem wall_gate_never_outward (D : R) (b b' : Ball) (cx cy R_ : R) :
  0 <= D <= 1 -> radius b <= R_ ->
  collide_wall_gated D b cx cy R_ = Ok (b', true) ->
  outward b' cx cy <= 0 /\
  speed_sq b' <= speed_sq b /\
  (outward b cx cy <= 0 -> vx b' = vx b /\ vy b' = vy b).
Proof.
  intros HD Hr H.
  assert (H3 : collide_wall_plain b cx cy R_ = Ok (b', true) \/
               collide_wall_always D b cx cy R_ = Ok (b', true) \/
               collide_wall_gated D b cx cy R_ = Ok (b', true))
    by (right; right; exact H).
  destruct (wall_hit_touching D b b' cx cy R_ H3) as [Ht Hd].
  destruct (wall_landing D b b' cx cy R_ Hr H3) as (Ex & Ey & _).
  unfold dist_to in *.
  pose proof (hypot_nonneg (x b - cx) (y b - cy)) as Hnn.
  set (d := hypot (x b - cx) (y b - cy)) in *.
  assert (Hk : 0 <= (R_ - radius b) / d).
  { apply Rmult_le_pos; [lra |]. apply Rlt_le, Rinv_0_lt_compat. lra. }
  assert (Hinv : 0 < / d) by (apply Rinv_0_lt_compat; lra).
  rewrite collide_wall_gated_touching in H by assumption.
  fold d in H. injection H as Hb.
  pose proof (normal_sq _ _ Hd) as Hn. fold d in Hn.
  set (nx := (x b - cx) / d) in *. set (ny := (y b - cy) / d) in *.
  set (dot := vx b * nx + vy b * ny) in *.
  assert (Hout : outward b cx cy = d * dot).
  { unfold outward, dot, nx, ny. field. exact Hd. }
  assert (Hvel : vx b' * nx + vy b' * ny <= 0 /\ speed_sq b' <= speed_sq b /\
                 (dot <= 0 -> vx b' = vx b /\ vy b' = vy b)).
  { rewrite <- Hb. unfold speed_sq. cbn [vx vy].
    destruct (Rgt_dec dot 0) as [Hpos | Hneg].
    - pose proof (reflect_dot (vx b) (vy b) nx ny Hn) as Hdot.
      pose proof (reflect_speed (vx b) (vy b) nx ny Hn) as Hsp.
      fold dot in Hdot, Hsp.
      set (rx := vx b - 2 * dot * nx) in *. set (ry := vy b - 2 * dot * ny) in *.
      split; [| split].
      + replace (rx * D * nx + ry * D * ny) with (D * (rx * nx + ry * ny)) by ring.
        rewrite Hdot. assert (0 <= D * dot) by (apply Rmult_le_pos; lra). lra.
      + replace (rx * D * (rx * D) + ry * D * (ry * D))
          with (D * D * (rx * rx + ry * ry)) by ring.
        rewrite Hsp. set (S := vx b * vx b + vy b * vy b).
        assert (0 <= S) by (unfold S; nra).
        assert (D * D <= 1) by nra.
        assert (D * D * S <= 1 * S) by (apply Rmult_le_compat_r; assumption).
        lra.
      + intros Hle. exfalso. lra.
    - repeat split; try lra. unfold dot in Hneg. lra. }
  destruct Hvel as (V1 & V2 & V3).
  split; [| split; [exact V2 |]].
  - unfold outward. rewrite Ex, Ey. fold nx ny.
    replace (vx b' * ((R_ - radius b) / d * (x b - cx))
             + vy b' * ((R_ - radius b) / d * (y b - cy)))
      with ((R_ - radius b) * (vx b' * nx + vy b' * ny))
      by (unfold nx, ny; field; exact Hd).
    nra.
  - intros Ho. apply V3. rewrite Hout in Ho. nra.
Qed.

Lemma wall14_sample :
  collide_wall_gated Futbol14.BOUNCE_DAMPING (mkBall 530 400 (-1) 0 30)
                     300 400 260
  = Ok (mkBall 530 400 (-1) 0 30, true).
Proof.
  assert (Hd : hypot (530 - 300) (400 - 400) = 230)
    by (apply hypot_unique; lra).
  rewrite collide_wall_gated_touching by (cbn [x y radius]; rewrite Hd; lra).
  cbn [x y vx vy radius]. rewrite Hd.
  match goal with |- context [Rgt_dec ?a 0] =>
    destruct (Rgt_dec a 0); [exfalso; lra |] end.
  do 2 f_equal. apply ball_eq; simpl; lra.
Qed.

Lemma wall_gate_never_outward_witness :
  outward (mkBall 530 400 (-1) 0 30) 300 400 <= 0.
Proof.
  assert (HD : 0 <= Futbol14.BOUNCE_DAMPING <= 1)
    by (unfold Futbol14.BOUNCE_DAMPING; lra).
  assert (Hr : radius (mkBall 530 400 (-1) 0 30) <= 260) by (simpl; lra).
  exact (proj1 (wall_gate_never_outward Futbol14.BOUNCE_DAMPING
                  (mkBall 530 400 (-1) 0 30) (mkBall 530 400 (-1) 0 30)
                  300 400 260 HD Hr wall14_sample)).
Defined.

(** ** Pairwise resolver: separation, restitution, energy *)

Lemma resolve13_sample :
  resolve_collisions_with Futbol13.ELASTICITY
    (mkBall 300 400 (-5) 0 30) (mkBall 359 400 5 0 30)
  = Ok (mkBall (599 / 2) 400 (19 / 4) 0 30, mkBall (719 / 2) 400 (-19 / 4) 0 30).
Proof.
  assert (Hd : hypot (359 - 300) (400 - 400) = 59) by (apply hypot_unique; lra).
  unfold Futbol13.ELASTICITY.
  rewrite resolve_overlapping by (cbn [x y radius]; rewrite Hd; lra).
  cbn [x y vx vy radius]. rewrite Hd.
  destruct (Req_dec_T 59 0); [exfalso; lra |].
  match goal with |- context [Rgt_dec ?a 0] =>
    destruct (Rgt_dec a 0); [exfalso; lra |] end.
  do 2 f_equal; apply ball_eq; simpl; lra.
Qed.

Lemma sample_pair_gap :
  gap (mkBall 300 400 (-5) 0 30) (mkBall 359 400 5 0 30) = 59.
Proof. unfold gap. cbn [x y]. apply hypot_unique; lra. Qed.

(** X5. The impulse of [resolve_collisions], for an overlapping pair whose
    centres do not coincide and an elasticity in [[-1, 1]].  The sum of the
    squared speeds never increases.  When the impulse is applied
    ([approach <= 0], the test of the code) the relative velocity along the
    line of centres is reversed and multiplied by the elasticity, and the
    sum of the squared speeds drops by [(1 - E * E) / 2] times the square of
    that relative velocity. *)
Theorem resolve_restitution (E : R) (b1 b2 b1' b2' : Ball) :
  -1 <= E <= 1 ->
  0 < gap b1 b2 < radius b1 + radius b2 ->
  resolve_collisions_with E b1 b2 = Ok (b1', b2') ->
  speed_sq b1' + speed_sq b2' <= speed_sq b1 + speed_sq b2 /\
  (approach b1 b2 <= 0 ->
   approach b1' b2'
     = - E * ((radius b1 + radius b2) / gap b1 b2) * approach b1 b2 /\
   speed_sq b1' + speed_sq b2'
     = speed_sq b1 + speed_sq b2
       - (1 - E * E) / 2 * (approach b1 b2 / gap b1 b2)
                         * (approach b1 b2 / gap b1 b2)) /\
  (0 < approach b1 b2 ->
   vx b1' = vx b1 /\ vy b1' = vy b1 /\ vx b2' = vx b2 /\ vy b2' = vy b2).
Proof.
  unfold gap. intros HE [Hpos Hov].
  rewrite resolve_overlapping by exact Hov.
  set (d := hypot (x b2 - x b1) (y b2 - y b1)) in *.
  assert (Hd : d <> 0) by lra.
  destruct (Req_dec_T d 0); [contradiction |].
  rewrite vel_normal_approach by exact Hd.
  pose proof (normal_sq _ _ Hd) as Hn. fold d in Hn.
  set (nx := (x b2 - x b1) / d) in *. set (ny := (y b2 - y b1) / d) in *.
  set (vn := approach b1 b2 / d).
  assert (Hvn : vn = (vx b1 - vx b2) * nx + (vy b1 - vy b2) * ny).
  { unfold vn, nx, ny. symmetry. apply vel_normal_approach, Hd. }
  assert (Hsign : 0 < / d) by (apply Rinv_0_lt_compat; lra).
  intros H. injection H as <- <-.
  unfold speed_sq, approach. cbn [x y vx vy].
  destruct (Rgt_dec vn 0) as [Hskip | Happly].
  - assert (Ha : 0 < approach b1 b2).
    { unfold vn, Rdiv in Hskip. unfold approach in *.
      apply Rmult_lt_reg_r with (/ d); [exact Hsign | lra]. }
    split; [lra | split].
    + intros Hle. exfalso. unfold approach in Ha. lra.
    + intros _. repeat split.
  - assert (Hle : vn <= 0) by lra.
    set (j := - (1 + E) * vn / 2).
    assert (Hen :
      (vx b1 + j * nx) * (vx b1 + j * nx) + (vy b1 + j * ny) * (vy b1 + j * ny)
      + ((vx b2 - j * nx) * (vx b2 - j * nx) + (vy b2 - j * ny) * (vy b2 - j * ny))
      = vx b1 * vx b1 + vy b1 * vy b1 + (vx b2 * vx b2 + vy b2 * vy b2)
        - (1 - E * E) / 2 * vn * vn).
    { replace ((vx b1 + j * nx) * (vx b1 + j * nx)
               + (vy b1 + j * ny) * (vy b1 + j * ny)
               + ((vx b2 - j * nx) * (vx b2 - j * nx)
                  + (vy b2 - j * ny) * (vy b2 - j * ny)))
        with (vx b1 * vx b1 + vy b1 * vy b1 + (vx b2 * vx b2 + vy b2 * vy b2)
              + 2 * j * ((vx b1 - vx b2) * nx + (vy b1 - vy b2) * ny)
              + 2 * j * j * (nx * nx + ny * ny)) by ring.
      rewrite Hn, <- Hvn. unfold j. field. }
    split; [| split].
    + rewrite Hen. assert (0 <= (1 - E * E) / 2 * vn * vn); [| lra].
      assert (0 <= 1 - E * E) by nra. assert (0 <= vn * vn) by nra.
      replace ((1 - E * E) / 2 * vn * vn) with ((1 - E * E) * (vn * vn) / 2)
        by field.
      assert (0 <= (1 - E * E) * (vn * vn)) by (apply Rmult_le_pos; assumption).
      lra.
    + intros _. split.
      * replace (x b2 + nx * (radius b1 + radius b2 - d) * (5 / 10)
                 - (x b1 - nx * (radius b1 + radius b2 - d) * (5 / 10)))
          with ((radius b1 + radius b2) * nx) by (unfold nx; field; exact Hd).
        replace (y b2 + ny * (radius b1 + radius b2 - d) * (5 / 10)
                 - (y b1 - ny * (radius b1 + radius b2 - d) * (5 / 10)))
          with ((radius b1 + radius b2) * ny) by (unfold ny; field; exact Hd).
        replace ((vx b1 - vx b2) * (x b2 - x b1) + (vy b1 - vy b2) * (y b2 - y b1))
          with (d * ((vx b1 - vx b2) * nx + (vy b1 - vy b2) * ny))
          by (unfold nx, ny; field; exact Hd).
        replace ((vx b1 + j * nx - (vx b2 - j * nx)) * ((radius b1 + radius b2) * nx)
                 + (vy b1 + j * ny - (vy b2 - j * ny)) * ((radius b1 + radius b2) * ny))
          with ((radius b1 + radius b2)
                * ((vx b1 - vx b2) * nx + (vy b1 - vy b2) * ny
                   + 2 * j * (nx * nx + ny * ny))) by ring.
        rewrite Hn, <- Hvn. unfold j. field. exact Hd.
      * rewrite Hen. fold (approach b1 b2). fold vn. field.
    + intros Ha. exfalso.
      assert (0 < vn); [| lra].
      unfold vn, Rdiv. apply Rmult_lt_0_compat; assumption.
Qed.

Lemma resolve_restitution_witness :
  speed_sq (mkBall (599 / 2) 400 (19 / 4) 0 30)
  + speed_sq (mkBall (719 / 2) 400 (-19 / 4) 0 30)
  <= speed_sq (mkBall 300 400 (-5) 0 30) + speed_sq (mkBall 359 400 5 0 30).
Proof.
  refine (proj1 (resolve_restitution Futbol13.ELASTICITY
                   (mkBall 300 400 (-5) 0 30) (mkBall 359 400 5 0 30)
                   _ _ _ _ resolve13_sample)).
  - unfold Futbol13.ELASTICITY. lra.
  - rewrite sample_pair_gap. simpl. lra.
Defined.

(** X7. [check_ball_collision] (futbol 1.1) on an overlapping pair that is
    not moving apart ([0 <= approach], centres distinct): the two bodies
    exchange their velocity components along the line of centres (the line
    through the centres before the separation), and the sum of the squared
    speeds is unchanged. *)
Theorem check_ball_collision_exchange (b1 b2 b1' b2' : Ball) :
  0 < gap b1 b2 < radius b1 + radius b2 ->
  0 <= approach b1 b2 ->
  check_ball_collision b1 b2 = Ok (b1', b2') ->
  vx b1' * (x b2 - x b1) + vy b1' * (y b2 - y b1)
    = vx b2 * (x b2 - x b1) + vy b2 * (y b2 - y b1) /\
  vx b2' * (x b2 - x b1) + vy b2' * (y b2 - y b1)
    = vx b1 * (x b2 - x b1) + vy b1 * (y b2 - y b1) /\
  speed_sq b1' + speed_sq b2' = speed_sq b1 + speed_sq b2.
Proof.
  unfold gap. intros [Hpos Hov] Ha. unfold check_ball_collision.
  set (d := hypot (x b2 - x b1) (y b2 - y b1)) in *.
  assert (Hd : d <> 0) by lra.
  destruct (Rlt_dec d (radius b1 + radius b2)); [| contradiction].
  rewrite !pydiv_ok by exact Hd. cbn [bind].
  rewrite vel_normal_approach by exact Hd.
  assert (Hinv : 0 < / d) by (apply Rinv_0_lt_compat; lra).
  assert (Hvn : 0 <= approach b1 b2 / d)
    by (apply Rmult_le_pos; [exact Ha | lra]).
  destruct (Rlt_dec (approach b1 b2 / d) 0); [exfalso; lra |].
  intros H. injection H as <- <-.
  pose proof (normal_sq _ _ Hd) as Hn. fold d in Hn.
  unfold speed_sq. cbn [x y vx vy].
  set (nx := (x b2 - x b1) / d) in *. set (ny := (y b2 - y b1) / d) in *.
  set (vn := approach b1 b2 / d).
  assert (Hvn' : vn = (vx b1 - vx b2) * nx + (vy b1 - vy b2) * ny).
  { unfold vn, nx, ny. symmetry. apply vel_normal_approach, Hd. }
  assert (Ex : x b2 - x b1 = d * nx) by (unfold nx; field; exact Hd).
  assert (Ey : y b2 - y b1 = d * ny) by (unfold ny; field; exact Hd).
  split; [| split].
  - rewrite Ex, Ey.
    replace ((vx b1 - vn * nx) * (d * nx) + (vy b1 - vn * ny) * (d * ny))
      with (d * (vx b1 * nx + vy b1 * ny - vn * (nx * nx + ny * ny))) by ring.
    rewrite Hn, Hvn'. ring.
  - rewrite Ex, Ey.
    replace ((vx b2 + vn * nx) * (d * nx) + (vy b2 + vn * ny) * (d * ny))
      with (d * (vx b2 * nx + vy b2 * ny + vn * (nx * nx + ny * ny))) by ring.
    rewrite Hn, Hvn'. ring.
  - replace ((vx b1 - vn * nx) * (vx b1 - vn * nx)
             + (vy b1 - vn * ny) * (vy b1 - vn * ny)
             + ((vx b2 + vn * nx) * (vx b2 + vn * nx)
                + (vy b2 + vn * ny) * (vy b2 + vn * ny)))
      with (vx b1 * vx b1 + vy b1 * vy b1 + (vx b2 * vx b2 + vy b2 * vy b2)
            - 2 * vn * ((vx b1 - vx b2) * nx + (vy b1 - vy b2) * ny)
            + 2 * vn * vn * (nx * nx + ny * ny)) by ring.
    rewrite Hn, <- Hvn'. ring.
Qed.

Lemma check11_sample :
  check_ball_collision (mkBall 300 400 5 0 30) (mkBall 359 400 (-5) 0 30)
  = Ok (mkBall (599 / 2) 400 (-5) 0 30, mkBall (719 / 2) 400 5 0 30).
Proof.
  assert (Hd : hypot (359 - 300) (400 - 400) = 59) by (apply hypot_unique; lra).
  unfold check_ball_collision. cbn [x y vx vy radius]. rewrite Hd.
  destruct (Rlt_dec 59 (30 + 30)); [| exfalso; lra].
  rewrite !pydiv_ok by lra. cbn [bind].
  match goal with |- context [Rlt_dec ?a 0] =>
    destruct (Rlt_dec a 0); [exfalso; lra |] end.
  do 2 f_equal; apply ball_eq; simpl; lra.
Qed.

Lemma check_ball_collision_exchange_witness :
  speed_sq (mkBall (599 / 2) 400 (-5) 0 30) + speed_sq (mkBall (719 / 2) 400 5 0 30)
  = speed_sq (mkBall 300 400 5 0 30) + speed_sq (mkBall 359 400 (-5) 0 30).
Proof.
  refine (proj2 (proj2
            (check_ball_collision_exchange
               (mkBall 300 400 5 0 30) (mkBall 359 400 (-5) 0 30) _ _ _ _
               check11_sample))).
  - unfold gap. cbn [x y radius].
    replace (hypot (359 - 300) (400 - 400)) with 59
      by (symmetry; apply hypot_unique; lra). lra.
  - unfold approach. simpl. lra.
Defined.

(** ** Match clock: the schedule of futbol 1.2 *)

Lemma minute_reached (k b : Z) : ((b <=? k / 30) = (30 * b <=? k))%Z.
Proof.
  destruct (Z.leb_spec b (k / 30)), (Z.leb_spec (30 * b) k);
    try reflexivity; exfalso; Z.to_euclidean_division_equations; lia.
Qed.

Lemma first_half_step (c : Clock) :
  state c = "FIRST_HALF"%string -> (0 <= added_time_1 c)%Z ->
  Futbol12.clock_tick c =
  if (30 * (45 + added_time_1 c) <=? frame_counter c + 1)%Z
  then mkClock "SECOND_HALF" 0 (added_time_1 c) (added_time_2 c) false
               ((frame_counter c + 1) / 30)
  else mkClock "FIRST_HALF" (frame_counter c + 1) (added_time_1 c)
               (added_time_2 c) (45 <=? (frame_counter c + 1) / 30)%Z
               ((frame_counter c + 1) / 30).
Proof.
  destruct c as [st fc a1 a2 dsp sm].
  cbn [state frame_counter added_time_1 added_time_2]. intros -> Ha.
  unfold Futbol12.clock_tick, Futbol12.timer, timer_logic,
    Futbol12.FRAMES_PER_SIM_MINUTE.
  cbn -[Z.mul Z.add Z.div Z.leb].
  rewrite <- (minute_reached (fc + 1) (45 + a1)).
  destruct (Z.leb_spec 45 ((fc + 1) / 30)) as [H45 | H45].
  - destruct (Z.leb_spec (45 + a1) ((fc + 1) / 30)); reflexivity.
  - destruct (Z.leb_spec (45 + a1) ((fc + 1) / 30)); [lia | reflexivity].
Qed.

Lemma second_half_step (c : Clock) :
  state c = "SECOND_HALF"%string -> (0 <= added_time_2 c)%Z ->
  Futbol12.clock_tick c =
  if (30 * (45 + added_time_2 c) <=? frame_counter c + 1)%Z
  then mkClock "FULLTIME" (frame_counter c + 1) (added_time_1 c)
               (added_time_2 c) true (45 + (frame_counter c + 1) / 30)
  else mkClock "SECOND_HALF" (frame_counter c + 1) (added_time_1 c)
               (added_time_2 c) (90 <=? 45 + (frame_counter c + 1) / 30)%Z
               (45 + (frame_counter c + 1) / 30).
Proof.
  destruct c as [st fc a1 a2 dsp sm].
  cbn [state frame_counter added_time_1 added_time_2]. intros -> Ha.
  unfold Futbol12.clock_tick, Futbol12.timer, timer_logic,
    Futbol12.FRAMES_PER_SIM_MINUTE.
  cbn -[Z.mul Z.add Z.div Z.leb].
  rewrite <- (minute_reached (fc + 1) (45 + a2)).
  destruct (Z.leb_spec 90 (45 + (fc + 1) / 30)) as [H90 | H90].
  - destruct (Z.leb_spec (90 + a2) (45 + (fc + 1) / 30)),
             (Z.leb_spec (45 + a2) ((fc + 1) / 30)); try reflexivity; lia.
  - destruct (Z.leb_spec (45 + a2) ((fc + 1) / 30)); [lia | reflexivity].
Qed.

Lemma full_time_step (c : Clock) :
  state c = "FULLTIME"%string -> Futbol12.clock_tick c = c.
Proof.
  destruct c as [st fc a1 a2 dsp sm]. simpl. intros ->. reflexivity.
Qed.

Lemma clock_run_snoc (n : nat) (c : Clock) :
  Futbol12.clock_run (S n) c = Futbol12.clock_tick (Futbol12.clock_run n c).
Proof.
  revert c. induction n as [| n IH]; intros c; [reflexivity |].
  change (Futbol12.clock_run (S (S n)) c)
    with (Futbol12.clock_run (S n) (Futbol12.clock_tick c)).
  rewrite IH. reflexivity.
Qed.

(** The state, the frame counter and the added times after [n] iterations
    of the clock of futbol 1.2. *)
Lemma clock_run_schedule (a1 a2 : Z) (n : nat) :
  (0 <= a1)%Z -> (0 <= a2)%Z ->
  added_time_1 (Futbol12.clock_run n (Futbol12.init_clock a1 a2)) = a1 /\
  added_time_2 (Futbol12.clock_run n (Futbol12.init_clock a1 a2)) = a2 /\
  ((Z.of_nat n < 30 * (45 + a1))%Z ->
   state (Futbol12.clock_run n (Futbol12.init_clock a1 a2))
     = "FIRST_HALF"%string /\
   frame_counter (Futbol12.clock_run n (Futbol12.init_clock a1 a2))
     = Z.of_nat n) /\
  ((30 * (45 + a1) <= Z.of_nat n < 30 * (45 + a1) + 30 * (45 + a2))%Z ->
   state (Futbol12.clock_run n (Futbol12.init_clock a1 a2))
     = "SECOND_HALF"%string /\
   frame_counter (Futbol12.clock_run n (Futbol12.init_clock a1 a2))
     = (Z.of_nat n - 30 * (45 + a1))%Z) /\
  ((30 * (45 + a1) + 30 * (45 + a2) <= Z.of_nat n)%Z ->
   state (Futbol12.clock_run n (Futbol12.init_clock a1 a2))
     = "FULLTIME"%string).
Proof.
  intros Ha1 Ha2.
  induction n as [| n IH].
  - cbn [Futbol12.clock_run Futbol12.init_clock state frame_counter
         added_time_1 added_time_2 Z.of_nat].
    repeat split; try reflexivity; intros; lia.
  - rewrite clock_run_snoc.
    set (c := Futbol12.clock_run n (Futbol12.init_clock a1 a2)) in *.
    destruct IH as (E1 & E2 & F & S & T).
    rewrite Nat2Z.inj_succ.
    destruct (Z_lt_le_dec (Z.of_nat n) (30 * (45 + a1))) as [Hf | Hf].
    + destruct (F Hf) as [St Fc].
      rewrite (first_half_step c St) by lia. rewrite E1, E2, Fc.
      destruct (Z.leb_spec (30 * (45 + a1)) (Z.of_nat n + 1));
        cbn [state frame_counter added_time_1 added_time_2];
        repeat split; try reflexivity; intros; lia.
    + destruct (Z_lt_le_dec (Z.of_nat n) (30 * (45 + a1) + 30 * (45 + a2)))
        as [Hs | Hs].
      * destruct (S (conj Hf Hs)) as [St Fc].
        rewrite (second_half_step c St) by lia. rewrite E1, E2, Fc.
        destruct (Z.leb_spec (30 * (45 + a2))
                             (Z.of_nat n - 30 * (45 + a1) + 1));
          cbn [state frame_counter added_time_1 added_time_2];
          repeat split; try reflexivity; intros; lia.
      * rewrite (full_time_step c (T Hs)).
        repeat split; try assumption; intros; try lia. now apply T.
Qed.

(** X8. The schedule of the match clock of futbol 1.2 and 1.3, for added
    times [a1, a2 >= 0] and 30 frames per simulated minute: the state is
    FIRST_HALF during the first [30 * (45 + a1)] iterations, with the frame
    counter equal to the number of iterations; it is SECOND_HALF during the
    next [30 * (45 + a2)] iterations, the counter having restarted from 0;
    and it is FULLTIME from then on. *)
Theorem match_schedule (a1 a2 : Z) (n : nat) :
  (0 <= a1)%Z -> (0 <= a2)%Z ->
  let c := Futbol12.clock_run n (Futbol12.init_clock a1 a2) in
  ((Z.of_nat n < 30 * (45 + a1))%Z ->
   state c = "FIRST_HALF"%string /\ frame_counter c = Z.of_nat n) /\
  ((30 * (45 + a1) <= Z.of_nat n < 30 * (45 + a1) + 30 * (45 + a2))%Z ->
   state c = "SECOND_HALF"%string /\
   frame_counter c = (Z.of_nat n - 30 * (45 + a1))%Z) /\
  ((30 * (45 + a1) + 30 * (45 + a2) <= Z.of_nat n)%Z ->
   state c = "FULLTIME"%string).
Proof.
  intros Ha1 Ha2. cbv zeta.
  destruct (clock_run_schedule a1 a2 n Ha1 Ha2) as (_ & _ & F & S & T).
  split; [exact F |]. split; [exact S | exact T].
Qed.

Lemma match_schedule_witness :
  state (Futbol12.clock_run 1409 (Futbol12.init_clock 2 5))
    = "FIRST_HALF"%string /\
  state (Futbol12.clock_run 1410 (Futbol12.init_clock 2 5))
    = "SECOND_HALF"%string.
Proof.
  assert (H2 : (0 <= 2)%Z) by lia. assert (H5 : (0 <= 5)%Z) by lia.
  split.
  - apply (proj1 (match_schedule 2 5 1409 H2 H5)). lia.
  - apply (proj1 (proj2 (match_schedule 2 5 1410 H2 H5))). lia.
Defined.

Lemma clock_tick_keeps_added_times (c : Clock) :
  added_time_1 (Futbol12.clock_tick c) = added_time_1 c /\
  added_time_2 (Futbol12.clock_tick c) = added_time_2 c.
Proof.
  destruct c as [st fc a1 a2 dsp sm].
  unfold Futbol12.clock_tick, Futbol12.timer, timer_logic, halftime_transition,
    playing.
  cbn [state frame_counter added_time_1 added_time_2 existsb].
  destruct (st =? "FIRST_HALF")%string, (st =? "SECOND_HALF")%string;
    cbn [orb state added_time_1 added_time_2];
    repeat match goal with
      | |- context [if ?t then _ else _] => destruct t
      end; cbn [state added_time_1 added_time_2]; split; reflexivity.
Qed.

Lemma clock_run_keeps_added_times (n : nat) (c : Clock) :
  added_time_1 (Futbol12.clock_run n c) = added_time_1 c /\
  added_time_2 (Futbol12.clock_run n c) = added_time_2 c.
Proof.
  revert c. induction n as [| n IH]; intros c; [split; reflexivity |].
  simpl. destruct (IH (Futbol12.clock_tick c)) as [E1 E2].
  destruct (clock_tick_keeps_added_times c) as [T1 T2].
  rewrite E1, E2, T1, T2. split; reflexivity.
Qed.

(** X9. The minute shown by the clock of futbol 1.2 and 1.3.  After [n >= 1]
    iterations of the first half the simulated minute is [n // 30] and the
    added-time flag is set exactly when that minute has reached 45; [m >= 1]
    iterations into the second half the minute is [45 + m // 30] and the flag
    is set exactly when it has reached 90.  The added times themselves never
    change. *)
Theorem clock_minute (a1 a2 : Z) (n : nat) :
  (0 <= a1)%Z -> (0 <= a2)%Z ->
  let k := Z.of_nat (S n) in
  let c := Futbol12.clock_run (S n) (Futbol12.init_clock a1 a2) in
  (added_time_1 c = a1 /\ added_time_2 c = a2) /\
  ((k < 30 * (45 + a1))%Z ->
   sim_minute c = (k / 30)%Z /\
   display_added_time c = (45 <=? k / 30)%Z) /\
  ((30 * (45 + a1) < k < 30 * (45 + a1) + 30 * (45 + a2))%Z ->
   sim_minute c = (45 + (k - 30 * (45 + a1)) / 30)%Z /\
   display_added_time c = (90 <=? 45 + (k - 30 * (45 + a1)) / 30)%Z).
Proof.
  intros Ha1 Ha2. cbv zeta.
  split; [apply (clock_run_keeps_added_times (S n) (Futbol12.init_clock a1 a2)) |].
  rewrite clock_run_snoc, Nat2Z.inj_succ. unfold Z.succ.
  set (c := Futbol12.clock_run n (Futbol12.init_clock a1 a2)).
  destruct (clock_run_keeps_added_times n (Futbol12.init_clock a1 a2)) as [E1 E2].
  fold c in E1, E2. cbn [Futbol12.init_clock added_time_1 added_time_2] in E1, E2.
  destruct (clock_run_schedule a1 a2 n Ha1 Ha2) as (_ & _ & F & S & _).
  fold c in F, S.
  split.
  - intros Hk. destruct F as [St Fc]; [lia |].
    rewrite (first_half_step c St) by lia. rewrite E1, E2, Fc.
    destruct (Z.leb_spec (30 * (45 + a1)) (Z.of_nat n + 1)); [lia |].
    split; reflexivity.
  - intros Hk. destruct S as [St Fc]; [lia |].
    rewrite (second_half_step c St) by lia. rewrite E1, E2, Fc.
    destruct (Z.leb_spec (30 * (45 + a2)) (Z.of_nat n - 30 * (45 + a1) + 1));
      [lia |].
    cbn [sim_minute display_added_time].
    replace (Z.of_nat n + 1 - 30 * (45 + a1))%Z
      with (Z.of_nat n - 30 * (45 + a1) + 1)%Z by lia.
    split; reflexivity.
Qed.

Lemma clock_minute_witness :
  sim_minute (Futbol12.clock_run 1380 (Futbol12.init_clock 2 5)) = 46%Z /\
  display_added_time (Futbol12.clock_run 1380 (Futbol12.init_clock 2 5)) = true.
Proof.
  assert (H2 : (0 <= 2)%Z) by lia. assert (H5 : (0 <= 5)%Z) by lia.
  destruct (clock_minute 2 5 1379 H2 H5) as (_ & F & _).
  destruct F as [M D]; [lia |].
  split; [rewrite M | rewrite D]; reflexivity.
Defined.

(** ** Scoreboard and goal angle across a tick *)

Lemma rotate_goal_frame (v : R) (p : Pitch) :
  ball1 (rotate_goal v p) = ball1 p /\ ball2 (rotate_goal v p) = ball2 p /\
  score1 (rotate_goal v p) = score1 p /\ score2 (rotate_goal v p) = score2 p /\
  goal_rotating (rotate_goal v p) = goal_rotating p.
Proof.
  unfold rotate_goal. destruct (goal_rotating p) eqn:G;
    repeat split; try reflexivity; exact G.
Qed.

Lemma collisions12_frame (p p1 : Pitch) :
  Futbol12.collisions p = Ok p1 ->
  score1 p1 = score1 p /\ score2 p1 = score2 p /\
  goal_angle p1 = goal_angle p /\ goal_rotating p1 = goal_rotating p.
Proof.
  unfold Futbol12.collisions.
  destruct (Futbol12.move_and_collide (ball1 p)); [| discriminate]. cbn [bind].
  destruct (Futbol12.move_and_collide (ball2 p)); [| discriminate]. cbn [bind].
  destruct (Futbol12.check_collision _ _) as [[c1 c2] |]; [| discriminate].
  cbn [bind]. intros E. injection E as <-. repeat split; reflexivity.
Qed.

(** What a tick of futbol 1.2 does to the pitch: nothing, or the collisions
    of the rotated pitch followed by the goal loop. *)
Lemma tick12_cases (o : Oracle) (c c' : Clock) (p p' : Pitch) :
  Futbol12.tick o (c, p) = Ok (c', p') ->
  p' = p \/
  exists p1,
    Futbol12.collisions (rotate_goal Futbol12.goal_rot_speed p) = Ok p1 /\
    p' = Futbol12.goal_detection o p1.
Proof.
  unfold Futbol12.tick, Futbol12.physics. cbn [fst snd].
  destruct (playing (state (Futbol12.timer c))).
  - destruct (Futbol12.collisions _) as [p1 |] eqn:C; [| discriminate].
    cbn [bind]. intros E. injection E as _ <-. right. exists p1. now split.
  - cbn [bind]. intros E. injection E as _ <-. now left.
Qed.

(** The kick-off respawn keeps the scoreboard, the goal and the events. *)
Lemma kickoff14_frame (fuel : nat) (d : Dice) (w w' : Futbol14.World) :
  Futbol14.kickoff fuel d w = Some w' ->
  score1 (Futbol14.pitch w') = score1 (Futbol14.pitch w) /\
  score2 (Futbol14.pitch w') = score2 (Futbol14.pitch w) /\
  goal_angle (Futbol14.pitch w') = goal_angle (Futbol14.pitch w) /\
  goal_rotating (Futbol14.pitch w') = goal_rotating (Futbol14.pitch w) /\
  Futbol14.goal_events_1 w' = Futbol14.goal_events_1 w /\
  Futbol14.goal_events_2 w' = Futbol14.goal_events_2 w.
Proof.
  unfold Futbol14.kickoff. cbv zeta.
  destruct (Futbol14.get_random_spawn fuel d _ _ _ _) as [[[rx1 ry1] n1] |];
    [| discriminate].
  destruct (Futbol14.get_random_spawn fuel d n1 _ _ _) as [[[rx2 ry2] n2] |];
    [| discriminate].
  intros E. injection E as <-. repeat split.
Qed.

(** What a tick of futbol 1.4 does to scoreboard, goal and events: they are
    those of the world [v] that the physics block leaves, which is the
    world at the start when the block is skipped. *)
Lemma tick14_cases (fuel : nat) (o : Oracle) (d : Dice)
    (w w' : Futbol14.World) :
  Futbol14.tick fuel o d w = Some (Ok w') ->
  exists v,
    (v = w \/
     exists b1 b2 c g,
       v = Futbol14.goal_detection o
             (Futbol14.mkWorld c
                (set_balls (rotate_goal Futbol14.goal_rot_speed
                                        (Futbol14.pitch w)) b1 b2)
                g (Futbol14.goal_events_1 w) (Futbol14.goal_events_2 w))) /\
    score1 (Futbol14.pitch w') = score1 (Futbol14.pitch v) /\
    score2 (Futbol14.pitch w') = score2 (Futbol14.pitch v) /\
    goal_angle (Futbol14.pitch w') = goal_angle (Futbol14.pitch v) /\
    goal_rotating (Futbol14.pitch w') = goal_rotating (Futbol14.pitch v) /\
    Futbol14.goal_events_1 w' = Futbol14.goal_events_1 v /\
    Futbol14.goal_events_2 w' = Futbol14.goal_events_2 v.
Proof.
  unfold Futbol14.tick.
  assert (Hclose : forall v,
    (if (state (Futbol14.clock v) =? "HALFTIME")%string
     then option_map Ok (Futbol14.kickoff fuel d v)
     else Some (Ok v)) = Some (Ok w') ->
    score1 (Futbol14.pitch w') = score1 (Futbol14.pitch v) /\
    score2 (Futbol14.pitch w') = score2 (Futbol14.pitch v) /\
    goal_angle (Futbol14.pitch w') = goal_angle (Futbol14.pitch v) /\
    goal_rotating (Futbol14.pitch w') = goal_rotating (Futbol14.pitch v) /\
    Futbol14.goal_events_1 w' = Futbol14.goal_events_1 v /\
    Futbol14.goal_events_2 w' = Futbol14.goal_events_2 v).
  { intros v. destruct (state (Futbol14.clock v) =? "HALFTIME")%string.
    - destruct (Futbol14.kickoff fuel d v) as [v' |] eqn:K; [| discriminate].
      cbn [option_map]. intros E. injection E as <-.
      exact (kickoff14_frame fuel d v v' K).
    - intros E. injection E as <-. repeat split. }
  destruct (playing (state (Futbol14.clock w))).
  - unfold Futbol14.physics.
    cbn [Futbol14.pitch Futbol14.clock Futbol14.goll_timer
         Futbol14.goal_events_1 Futbol14.goal_events_2].
    destruct (Futbol14.solver 8 _) as [[b1 b2] |]; [| discriminate].
    cbn [bind]. intros E. eexists. split; [| exact (Hclose _ E)].
    right. do 4 eexists. reflexivity.
  - intros E. exists w. split; [now left | exact (Hclose _ E)].
Qed.

Lemma goal_check14_clock (o : Oracle) (b : Slot) (w : Futbol14.World) :
  Futbol14.clock (Futbol14.goal_check o b w) = Futbol14.clock w.
Proof.
  unfold Futbol14.goal_check. cbv zeta.
  destruct (Rgt_dec _ _); [| reflexivity].
  destruct (Rlt_dec _ _); reflexivity.
Qed.

(** The clock after an iteration of the main loop of futbol 1.4 is what
    [clock_tick] makes of the clock before it. *)
Lemma tick14_clock (fuel : nat) (o : Oracle) (d : Dice)
    (w w' : Futbol14.World) :
  Futbol14.tick fuel o d w = Some (Ok w') ->
  Futbol14.clock w' = Futbol14.clock_tick (Futbol14.clock w).
Proof.
  unfold Futbol14.tick, Futbol14.clock_tick.
  assert (Hclose : forall v,
    (if (state (Futbol14.clock v) =? "HALFTIME")%string
     then option_map Ok (Futbol14.kickoff fuel d v)
     else Some (Ok v)) = Some (Ok w') ->
    Futbol14.clock w' = halftime_transition (Futbol14.clock v)).
  { intros v. unfold halftime_transition.
    destruct (state (Futbol14.clock v) =? "HALFTIME")%string.
    - unfold Futbol14.kickoff. cbv zeta.
      destruct (Futbol14.get_random_spawn fuel d _ _ _ _) as [[[rx1 ry1] n1] |];
        [| discriminate].
      destruct (Futbol14.get_random_spawn fuel d n1 _ _ _) as [[[rx2 ry2] n2] |];
        [| discriminate].
      cbn [option_map]. intros E. injection E as <-. reflexivity.
    - intros E. injection E as <-. reflexivity. }
  destruct (playing (state (Futbol14.clock w))).
  - unfold Futbol14.physics.
    cbn [Futbol14.pitch Futbol14.clock Futbol14.goll_timer
         Futbol14.goal_events_1 Futbol14.goal_events_2].
    destruct (Futbol14.solver 8 _) as [[b1 b2] |]; [| discriminate].
    cbn [bind]. intros E. rewrite (Hclose _ E).
    unfold Futbol14.goal_detection. cbn [fold_left].
    rewrite !goal_check14_clock. reflexivity.
  - intros E. exact (Hclose _ E).
Qed.

Lemma goal_check14_tally (o : Oracle) (b : Slot) (w : Futbol14.World) :
  tally_matches w ->
  tally_matches (Futbol14.goal_check o b w) /\
  (score1 (Futbol14.pitch w)
   <= score1 (Futbol14.pitch (Futbol14.goal_check o b w)))%Z /\
  (score2 (Futbol14.pitch w)
   <= score2 (Futbol14.pitch (Futbol14.goal_check o b w)))%Z.
Proof.
  intros [T1 T2]. destruct (in_goal14_dec b w) as [Hin | Hout].
  - rewrite goal_check14_hit by exact Hin.
    unfold tally_matches, Futbol14.goal.
    cbn [Futbol14.pitch Futbol14.goal_events_1 Futbol14.goal_events_2
         score1 score2].
    destruct b; rewrite ?length_app; cbn [List.length];
      rewrite ?Nat2Z.inj_add; repeat split; try assumption; lia.
  - rewrite goal_check14_miss by exact Hout. repeat split; try assumption; lia.
Qed.

(** X10. Scoreboard of futbol 1.4: an iteration of the main loop that
    returns keeps each team's tally equal to the number of its recorded goal
    events, and never lowers a tally. *)
Theorem scoreboard_matches_events (fuel : nat) (o : Oracle) (d : Dice)
    (w w' : Futbol14.World) :
  Futbol14.tick fuel o d w = Some (Ok w') ->
  tally_matches w ->
  tally_matches w' /\
  (score1 (Futbol14.pitch w) <= score1 (Futbol14.pitch w'))%Z /\
  (score2 (Futbol14.pitch w) <= score2 (Futbol14.pitch w'))%Z.
Proof.
  intros Ht Hw.
  destruct (tick14_cases fuel o d w w' Ht)
    as (v & [-> | H] & P1 & P2 & _ & _ & E1 & E2).
  - unfold tally_matches in *. rewrite P1, P2, E1, E2.
    repeat split; try tauto; lia.
  - destruct H as (b1 & b2 & c & g & ->).
    set (w0 := Futbol14.mkWorld c
                 (set_balls (rotate_goal Futbol14.goal_rot_speed
                                         (Futbol14.pitch w)) b1 b2)
                 g (Futbol14.goal_events_1 w) (Futbol14.goal_events_2 w)) in *.
    change (Futbol14.goal_detection o w0)
      with (Futbol14.goal_check o B2 (Futbol14.goal_check o B1 w0))
      in P1, P2, E1, E2.
    assert (H0 : tally_matches w0 /\
                 score1 (Futbol14.pitch w0) = score1 (Futbol14.pitch w) /\
                 score2 (Futbol14.pitch w0) = score2 (Futbol14.pitch w)).
    { unfold tally_matches, w0.
      cbn [Futbol14.pitch Futbol14.goal_events_1 Futbol14.goal_events_2
           set_balls score1 score2].
      destruct (rotate_goal_frame Futbol14.goal_rot_speed (Futbol14.pitch w))
        as (_ & _ & S1 & S2 & _).
      rewrite S1, S2. destruct Hw. repeat split; assumption. }
    destruct H0 as (T0 & S1 & S2).
    destruct (goal_check14_tally o B1 w0 T0) as (Ta & M1 & M2).
    destruct (goal_check14_tally o B2 _ Ta) as (Tb & N1 & N2).
    unfold tally_matches in *. rewrite P1, P2, E1, E2.
    split; [exact Tb | split; lia].
Qed.

Lemma stacked_tick :
  exists w',
    Futbol14.tick 1 sample_oracle sample_dice stacked_world = Some (Ok w').
Proof. eexists. apply stacked_tick_result. Qed.

Lemma scoreboard_matches_events_witness :
  exists w',
    Futbol14.tick 1 sample_oracle sample_dice stacked_world = Some (Ok w') /\
    tally_matches w'.
Proof.
  assert (T0 : tally_matches stacked_world) by (split; reflexivity).
  destruct stacked_tick as [w' Ht].
  exists w'. split; [exact Ht |].
  exact (proj1 (scoreboard_matches_events 1 sample_oracle sample_dice
                  stacked_world w' Ht T0)).
Defined.

Lemma goal12_rotates (o : Oracle) (b : Slot) (p : Pitch) :
  rotates_once_scored p -> rotates_once_scored (Futbol12.goal o b p).
Proof.
  intros (S1 & S2 & _). unfold rotates_once_scored, Futbol12.goal.
  cbn [score1 score2 goal_rotating].
  destruct b;
    match goal with |- context [(1 <=? ?t)%Z] => destruct (Z.leb_spec 1 t) end;
    repeat split; intros; try lia; try reflexivity.
Qed.

Lemma goal14_rotates (o : Oracle) (b : Slot) (w : Futbol14.World) :
  rotates_once_scored (Futbol14.pitch w) ->
  rotates_once_scored (Futbol14.pitch (Futbol14.goal o b w)).
Proof.
  intros (S1 & S2 & _). unfold rotates_once_scored, Futbol14.goal.
  cbn [Futbol14.pitch score1 score2 goal_rotating].
  destruct b;
    match goal with |- context [(1 <=? ?t)%Z] => destruct (Z.leb_spec 1 t) end;
    repeat split; intros; try lia; try reflexivity.
Qed.

Lemma rotates_frame (p q : Pitch) :
  score1 q = score1 p -> score2 q = score2 p ->
  goal_rotating q = goal_rotating p ->
  rotates_once_scored p -> rotates_once_scored q.
Proof.
  unfold rotates_once_scored. intros -> -> ->. tauto.
Qed.

(** X11. The goal starts to rotate with the first goal: in futbol 1.2 and
    1.4 an iteration of the main loop that returns keeps the scores
    non-negative and keeps [goal_rotating] true exactly when the total score
    is at least 1. *)
Theorem goal_rotates_once_scored
    (fuel : nat) (o : Oracle) (d : Dice) (c c' : Clock) (p p' : Pitch)
    (w w' : Futbol14.World) :
  (Futbol12.tick o (c, p) = Ok (c', p') ->
   rotates_once_scored p -> rotates_once_scored p') /\
  (Futbol14.tick fuel o d w = Some (Ok w') ->
   rotates_once_scored (Futbol14.pitch w) ->
   rotates_once_scored (Futbol14.pitch w')).
Proof.
  split.
  - intros Ht Hp. destruct (tick12_cases o c c' p p' Ht) as [-> | (p1 & C & ->)];
      [exact Hp |].
    destruct (collisions12_frame _ _ C) as (S1 & S2 & _ & G).
    destruct (rotate_goal_frame Futbol12.goal_rot_speed p)
      as (_ & _ & R1 & R2 & RG).
    assert (H1 : rotates_once_scored p1).
    { apply (rotates_frame p); [congruence | congruence | congruence | exact Hp]. }
    destruct (goal_detection12_cases o p1) as (C1 & C2 & C3).
    destruct (in_goal12_dec B1 p1) as [I1 | I1].
    + rewrite (C1 I1). now apply goal12_rotates.
    + destruct (in_goal12_dec B2 p1) as [I2 | I2].
      * rewrite (C2 I1 I2). now apply goal12_rotates.
      * rewrite (C3 I1 I2). exact H1.
  - intros Ht Hw.
    destruct (tick14_cases fuel o d w w' Ht)
      as (v & Hv & P1 & P2 & _ & PR & _).
    apply (rotates_frame (Futbol14.pitch v)); [exact P1 | exact P2 | exact PR |].
    destruct Hv as [-> | (b1 & b2 & c0 & g & ->)]; [exact Hw |].
    set (w0 := Futbol14.mkWorld c0 _ g _ _).
    assert (H0 : rotates_once_scored (Futbol14.pitch w0)).
    { destruct (rotate_goal_frame Futbol14.goal_rot_speed (Futbol14.pitch w))
        as (_ & _ & R1 & R2 & RG).
      apply (rotates_frame (Futbol14.pitch w)); try assumption. }
    assert (Hstep : forall b v,
      rotates_once_scored (Futbol14.pitch v) ->
      rotates_once_scored (Futbol14.pitch (Futbol14.goal_check o b v))).
    { intros b v Hv. destruct (in_goal14_dec b v) as [I | I].
      - rewrite goal_check14_hit by exact I. now apply goal14_rotates.
      - rewrite goal_check14_miss by exact I. exact Hv. }
    unfold Futbol14.goal_detection. cbn [fold_left].
    apply Hstep, Hstep, H0.
Qed.

Lemma squeezed_tick :
  Futbol12.tick sample_oracle (Futbol12.init_clock 1 2, squeezed_pitch)
  = Ok (halftime_transition (Futbol12.timer (Futbol12.init_clock 1 2)),
        squeezed_after).
Proof.
  unfold Futbol12.tick. cbn [fst snd].
  rewrite squeezed_physics by reflexivity. reflexivity.
Qed.

Lemma goal_rotates_once_scored_witness :
  rotates_once_scored squeezed_after /\
  exists w',
    Futbol14.tick 1 sample_oracle sample_dice stacked_world = Some (Ok w') /\
    rotates_once_scored (Futbol14.pitch w').
Proof.
  assert (R0 : forall p, score1 p = 0%Z -> score2 p = 0%Z ->
                         goal_rotating p = false -> rotates_once_scored p).
  { intros p E1 E2 G. unfold rotates_once_scored. rewrite E1, E2, G.
    repeat split; intros; try lia; discriminate. }
  destruct stacked_tick as [w' Ht].
  destruct (goal_rotates_once_scored 1 sample_oracle sample_dice
              (Futbol12.init_clock 1 2)
              (halftime_transition (Futbol12.timer (Futbol12.init_clock 1 2)))
              squeezed_pitch squeezed_after stacked_world w') as [T12 T14].
  split.
  - apply T12; [exact squeezed_tick | apply R0; reflexivity].
  - exists w'. split; [exact Ht |]. apply T14; [exact Ht | apply R0; reflexivity].
Defined.





(** ** bouncing_ball.py: speed at a bounce *)

Lemma side_checks_speed (c : BouncingBall.Rect) (rad : R) (s : BouncingBall.State) :
  Rabs (BouncingBall.vel_x
          (BouncingBall.left_check c rad (BouncingBall.right_check c rad s)))
    <= Rabs (BouncingBall.vel_x s) /\
  BouncingBall.vel_y
    (BouncingBall.left_check c rad (BouncingBall.right_check c rad s))
    = BouncingBall.vel_y s.
Proof.
  assert (Hb : forall v, Rabs (- v * BouncingBall.BOUNCE_FACTOR) <= Rabs v).
  { intros v. unfold BouncingBall.BOUNCE_FACTOR.
    rewrite Rabs_mult, Rabs_Ropp, (Rabs_pos_eq (95 / 100)) by lra.
    pose proof (Rabs_pos v). lra. }
  unfold BouncingBall.left_check, BouncingBall.right_check.
  destruct (Rgt_dec _ _); cbn [BouncingBall.ball_x BouncingBall.vel_x];
    destruct (Rlt_dec _ _); cbn [BouncingBall.vel_x BouncingBall.vel_y];
    split; try reflexivity; try lra; try apply Hb.
  eapply Rle_trans; [apply Hb | apply Hb].
Qed.

Lemma vertical_checks_speed (c : BouncingBall.Rect) (rad : R) (s : BouncingBall.State) :
  Rabs (BouncingBall.vel_y
          (BouncingBall.ceiling_check c rad (BouncingBall.floor_check c rad s)))
    <= Rabs (BouncingBall.vel_y s) /\
  BouncingBall.vel_x
    (BouncingBall.ceiling_check c rad (BouncingBall.floor_check c rad s))
    = BouncingBall.vel_x s.
Proof.
  assert (Hb : forall v, Rabs (- v * BouncingBall.BOUNCE_FACTOR) <= Rabs v).
  { intros v. unfold BouncingBall.BOUNCE_FACTOR.
    rewrite Rabs_mult, Rabs_Ropp, (Rabs_pos_eq (95 / 100)) by lra.
    pose proof (Rabs_pos v). lra. }
  unfold BouncingBall.ceiling_check, BouncingBall.floor_check.
  destruct (Rgt_dec _ _); cbn [BouncingBall.ball_y BouncingBall.vel_y];
    destruct (Rlt_dec _ _); cbn [BouncingBall.vel_x BouncingBall.vel_y];
    split; try reflexivity; try lra; try apply Hb.
  eapply Rle_trans; [apply Hb | apply Hb].
Qed.

(** X13. [bouncing_ball.py] never gains speed at a wall: over any number of
    iterations the horizontal speed does not exceed the initial one, and in
    each iteration the vertical speed after the wall checks does not exceed
    the speed the ball had after gravity was added. *)
Theorem bounce_never_gains_speed (n : nat) (s : BouncingBall.State) :
  Rabs (BouncingBall.vel_x (BouncingBall.run n s))
    <= Rabs (BouncingBall.vel_x s) /\
  Rabs (BouncingBall.vel_y (BouncingBall.tick s))
    <= Rabs (BouncingBall.vel_y s + BouncingBall.GRAVITY).
Proof.
  assert (Htick : forall t,
    Rabs (BouncingBall.vel_x (BouncingBall.tick t)) <= Rabs (BouncingBall.vel_x t) /\
    Rabs (BouncingBall.vel_y (BouncingBall.tick t))
      <= Rabs (BouncingBall.vel_y t + BouncingBall.GRAVITY)).
  { intros t. unfold BouncingBall.tick, BouncingBall.cage_collision.
    destruct (side_checks_speed BouncingBall.cage_rect BouncingBall.BALL_RADIUS
                (BouncingBall.ceiling_check BouncingBall.cage_rect
                   BouncingBall.BALL_RADIUS
                   (BouncingBall.floor_check BouncingBall.cage_rect
                      BouncingBall.BALL_RADIUS (BouncingBall.physics t))))
      as [Sx Sy].
    destruct (vertical_checks_speed BouncingBall.cage_rect
                BouncingBall.BALL_RADIUS (BouncingBall.physics t)) as [Vy Vx].
    rewrite Sy. rewrite Vx in Sx. split; [exact Sx | exact Vy]. }
  split; [| apply Htick].
  revert s. induction n as [| n IH]; intros s; [simpl; lra |].
  simpl. eapply Rle_trans; [apply IH | apply Htick].
Qed.

(** ** Direction of an offset *)

Lemma hypot_pos (a b : R) : ~ (a = 0 /\ b = 0) -> 0 < hypot a b.
Proof.
  intros H. destruct (hypot_nonneg a b) as [Hp | He]; [exact Hp |].
  exfalso. apply H. apply hypot_zero. symmetry. exact He.
Qed.

Lemma atan_dir (u v : R) :
  0 < u ->
  cos (atan (v / u)) = u / hypot u v /\ sin (atan (v / u)) = v / hypot u v.
Proof.
  intros Hu.
  assert (Hh : 0 < hypot u v) by (apply hypot_pos; intros [E _]; lra).
  assert (Hs : sqrt (1 + (v / u)²) = hypot u v / u).
  { apply sqrt_lem_1.
    - unfold Rsqr. nra.
    - apply Rlt_le, Rdiv_lt_0_compat; assumption.
    - unfold Rsqr. pose proof (hypot_sq u v) as Hq.
      replace (hypot u v / u * (hypot u v / u))
        with (hypot u v * hypot u v / (u * u)) by (field; lra).
      rewrite Hq. field. lra. }
  rewrite cos_atan, sin_atan, Hs. split; field; lra.
Qed.

Lemma atan2_dir (dx dy : R) :
  ~ (dx = 0 /\ dy = 0) ->
  cos (atan2 dy dx) = dx / hypot dx dy /\
  sin (atan2 dy dx) = dy / hypot dx dy.
Proof.
  intros Hnz. pose proof (hypot_pos dx dy Hnz) as Hh.
  unfold atan2.
  destruct (Rlt_dec 0 dx) as [Hx | Hx]; [apply atan_dir; exact Hx |].
  destruct (Rlt_dec dx 0) as [Hx' | Hx'].
  - assert (Hm : cos (atan (dy / dx)) = - dx / hypot dx dy /\
                 sin (atan (dy / dx)) = - dy / hypot dx dy).
    { replace (dy / dx) with (- dy / - dx) by (field; lra).
      replace (hypot dx dy) with (hypot (- dx) (- dy)).
      - apply atan_dir. lra.
      - unfold hypot. f_equal. ring. }
    destruct Hm as [Hc Hs].
    destruct (Rle_dec 0 dy).
    + rewrite neg_cos, neg_sin, Hc, Hs. split; field; lra.
    + replace (atan (dy / dx) - PI) with (- (- atan (dy / dx) + PI)) by ring.
      rewrite cos_neg, sin_neg, neg_cos, neg_sin, cos_neg, sin_neg, Hc, Hs.
      split; field; lra.
  - assert (dx = 0) by lra. subst dx.
    destruct (Rlt_dec 0 dy) as [Hy | Hy].
    + rewrite cos_PI2, sin_PI2, hypot_axis_y, Rabs_pos_eq by lra.
      split; field; lra.
    + destruct (Rlt_dec dy 0) as [Hy' | Hy'].
      * rewrite cos_neg, sin_neg, cos_PI2, sin_PI2, hypot_axis_y,
          Rabs_left by lra.
        split; field; lra.
      * exfalso. apply Hnz. split; lra.
Qed.

Lemma dir_unit (a : R) : cos a * cos a + sin a * sin a = 1.
Proof. pose proof (sin2_cos2 a) as H. unfold Rsqr in H. lra. Qed.

(** ** The wall check of the marble programs *)

Lemma trig_wall_inside (D : R) (b : Ball) (cx cy R_ : R) :
  dist_to b cx cy + radius b <= R_ ->
  check_wall_collision_with D b cx cy R_ = b.
Proof.
  intros H. unfold check_wall_collision_with, dist_to in *.
  destruct (Rgt_dec _ _) as [G | G]; [lra | reflexivity].
Qed.

Lemma trig_wall_hit (D : R) (b : Ball) (cx cy R_ : R) :
  R_ < dist_to b cx cy + radius b ->
  check_wall_collision_with D b cx cy R_ =
  let a := atan2 (y b - cy) (x b - cx) in
  let overlap := dist_to b cx cy + radius b - R_ in
  let dot := vx b * cos a + vy b * sin a in
  mkBall (x b - cos a * overlap) (y b - sin a * overlap)
         ((vx b - 2 * dot * cos a) * D) ((vy b - 2 * dot * sin a) * D)
         (radius b).
Proof.
  intros H. unfold check_wall_collision_with, dist_to in *.
  destruct (Rgt_dec _ _) as [G | G]; [reflexivity | lra].
Qed.

Lemma trig_wall_radius (D : R) (b : Ball) (cx cy R_ : R) :
  radius (check_wall_collision_with D b cx cy R_) = radius b.
Proof.
  unfold check_wall_collision_with.
  destruct (Rgt_dec _ _); reflexivity.
Qed.

Lemma trig_wall_speed (D : R) (b : Ball) (cx cy R_ : R) :
  R_ < dist_to b cx cy + radius b ->
  speed_sq (check_wall_collision_with D b cx cy R_) = D * D * speed_sq b.
Proof.
  intros H. rewrite trig_wall_hit by exact H. cbv zeta.
  unfold speed_sq. cbn [vx vy].
  set (a := atan2 _ _).
  pose proof (reflect_speed (vx b) (vy b) (cos a) (sin a) (dir_unit a)) as E.
  rewrite <- E. ring.
Qed.

Lemma trig_wall_reverses (D : R) (b : Ball) (cx cy R_ : R) :
  R_ < dist_to b cx cy + radius b ->
  vx (check_wall_collision_with D b cx cy R_) * (x b - cx)
  + vy (check_wall_collision_with D b cx cy R_) * (y b - cy)
  = - D * outward b cx cy.
Proof.
  intros H. rewrite trig_wall_hit by exact H. cbv zeta. cbn [vx vy].
  unfold outward.
  set (u := x b - cx). set (v := y b - cy).
  destruct (Req_dec_T (hypot u v) 0) as [Z | NZ].
  - destruct (hypot_zero _ _ Z) as [-> ->]. ring.
  - assert (Hnz : ~ (u = 0 /\ v = 0)).
    { intros [E1 E2]. rewrite E1, E2, hypot_origin in NZ. lra. }
    destruct (atan2_dir _ _ Hnz) as [Hc Hs]. rewrite Hc, Hs.
    pose proof (hypot_sq u v) as Hq.
    set (d := hypot u v) in *.
    replace ((vx b - 2 * (vx b * (u / d) + vy b * (v / d)) * (u / d)) * D * u
             + (vy b - 2 * (vx b * (u / d) + vy b * (v / d)) * (v / d)) * D * v)
      with (D * ((vx b * u + vy b * v)
                 - 2 * (vx b * u + vy b * v) * ((u * u + v * v) / (d * d))))
      by (field; exact NZ).
    rewrite <- Hq. field. exact NZ.
Qed.

(** X14. The wall check of the marble programs (futbol 1.5, 1.6, 2.1).  It
    divides nothing and so always returns, with the radius unchanged.  A
    body within the wall ([dist + radius <= R_], the test of the code) is
    returned as it is.  For a body across the wall the velocity is mirrored
    and scaled by the loss factor [D]: the squared speed is multiplied by
    [D * D], and the component of the velocity along the offset from the
    arena centre to the body (the offset before the correction) is reversed
    and multiplied by [D]. *)
Theorem trig_wall_check (D : R) (b : Ball) (cx cy R_ : R) :
  radius (check_wall_collision_with D b cx cy R_) = radius b /\
  (dist_to b cx cy + radius b <= R_ ->
   check_wall_collision_with D b cx cy R_ = b) /\
  (R_ < dist_to b cx cy + radius b ->
   speed_sq (check_wall_collision_with D b cx cy R_) = D * D * speed_sq b /\
   vx (check_wall_collision_with D b cx cy R_) * (x b - cx)
   + vy (check_wall_collision_with D b cx cy R_) * (y b - cy)
   = - D * outward b cx cy).
Proof.
  split; [apply trig_wall_radius |]. split.
  - apply trig_wall_inside.
  - intros H. split.
    + apply trig_wall_speed, H.
    + apply trig_wall_reverses, H.
Qed.

Lemma trig_wall_check_witness :
  let b := mkBall 560 450 8 6 30 in
  let b' := check_wall_collision_with (95 / 100) b 300 450 280 in
  speed_sq b' = 95 / 100 * (95 / 100) * speed_sq b /\
  vx b' * (x b - 300) + vy b' * (y b - 450) = - (95 / 100) * outward b 300 450.
Proof.
  cbv zeta.
  apply (trig_wall_check (95 / 100) (mkBall 560 450 8 6 30) 300 450 280).
  unfold dist_to. cbn [x y radius].
  replace (hypot (560 - 300) (450 - 450)) with 260
    by (symmetry; apply hypot_unique; lra).
  lra.
Defined.

(** ** futbol 1.6: the marbles never gain speed *)

Lemma tick16_marble (m : Ball) :
  let m' := Futbol16.check_wall_collision (Futbol16.move m)
              Futbol16.cx Futbol16.cy Futbol16.ARENA_RADIUS in
  radius m' = radius m /\
  (speed_sq m' = speed_sq m \/
   speed_sq m' = 95 / 100 * (95 / 100) * speed_sq m).
Proof.
  cbv zeta. unfold Futbol16.check_wall_collision, Futbol16.move.
  set (m1 := move_plain m).
  assert (R1 : radius m1 = radius m) by reflexivity.
  assert (S1 : speed_sq m1 = speed_sq m) by reflexivity.
  rewrite trig_wall_radius, R1. split; [reflexivity |].
  destruct (Rle_dec (dist_to m1 Futbol16.cx Futbol16.cy + radius m1)
                    Futbol16.ARENA_RADIUS) as [Hin | Hout].
  - rewrite trig_wall_inside by exact Hin. left. exact S1.
  - right. rewrite trig_wall_speed, S1 by lra. reflexivity.
Qed.

(** X15. In futbol 1.6 the marbles never gain speed.  One iteration of the
    main loop (move, then wall check) keeps the squared speed of a marble
    or multiplies it by 0.95 * 0.95; after any number of iterations each
    marble has its radius unchanged and a speed not above its initial
    speed. *)
Theorem marbles_never_gain_speed (n : nat) (mm : Ball * Ball) :
  (let mm' := Futbol16.tick mm in
   (speed_sq (fst mm') = speed_sq (fst mm) \/
    speed_sq (fst mm') = 95 / 100 * (95 / 100) * speed_sq (fst mm)) /\
   (speed_sq (snd mm') = speed_sq (snd mm) \/
    speed_sq (snd mm') = 95 / 100 * (95 / 100) * speed_sq (snd mm))) /\
  (let mm' := Futbol16.run n mm in
   radius (fst mm') = radius (fst mm) /\
   radius (snd mm') = radius (snd mm) /\
   speed_sq (fst mm') <= speed_sq (fst mm) /\
   speed_sq (snd mm') <= speed_sq (snd mm)).
Proof.
  split.
  - destruct mm as [m1 m2]. cbv zeta. cbn [Futbol16.tick fst snd].
    split; apply tick16_marble.
  - revert mm. induction n as [| n IH]; intros [m1 m2]; cbv zeta.
    + cbn [Futbol16.run fst snd]. repeat split; lra.
    + change (Futbol16.run (S n) (m1, m2))
        with (Futbol16.run n (Futbol16.tick (m1, m2))).
      specialize (IH (Futbol16.tick (m1, m2))). cbv zeta in IH.
      cbn [Futbol16.tick fst snd] in IH.
      destruct IH as (A1 & A2 & A3 & A4).
      destruct (tick16_marble m1) as (Ra & Sa).
      destruct (tick16_marble m2) as (Rb & Sb).
      cbv zeta in Ra, Sa, Rb, Sb.
      cbn [Futbol16.tick fst snd].
      assert (0 <= speed_sq m1) by (unfold speed_sq; nra).
      assert (0 <= speed_sq m2) by (unfold speed_sq; nra).
      repeat split; try congruence.
      * destruct Sa as [Sa | Sa]; rewrite Sa in A3; lra.
      * destruct Sb as [Sb | Sb]; rewrite Sb in A4; lra.
Qed.

(** ** futbol 2.1 *)



Lemma accelerate_capped (b p : Futbol21.PhysicsObject) :
  exists q,
    Futbol21.accelerate b p = Ok q /\
    Futbol21.x q = Futbol21.x p /\ Futbol21.y q = Futbol21.y p /\
    Futbol21.radius q = Futbol21.radius p /\
    Futbol21.mass q = Futbol21.mass p /\
    capped b p q.
Proof.
  unfold Futbol21.accelerate, capped, chased. cbn [fst snd].
  set (a := atan2 _ _).
  set (vx1 := Futbol21.vx p + cos a * Futbol21.PLAYER_SPEED).
  set (vy1 := Futbol21.vy p + sin a * Futbol21.PLAYER_SPEED).
  destruct (Rgt_dec (hypot vx1 vy1) Futbol21.MAX_SPEED) as [G | G].
  - unfold Futbol21.MAX_SPEED in *. unfold pydiv.
    destruct (Req_dec_T (hypot vx1 vy1) 0) as [E | E]; [lra |].
    cbn [bind]. eexists. split; [reflexivity |].
    cbn [Futbol21.x Futbol21.y Futbol21.vx Futbol21.vy Futbol21.radius
         Futbol21.mass].
    repeat (split; [reflexivity |]).
    split; [intros; exfalso; lra |].
    intros _. split; [| split; reflexivity].
    split.
    + apply Rdiv_lt_0_compat; lra.
    + apply Rmult_lt_reg_r with (hypot vx1 vy1); [lra |].
      replace (12 / hypot vx1 vy1 * hypot vx1 vy1) with 12 by (field; exact E).
      lra.
  - eexists. split; [reflexivity |].
    cbn [Futbol21.x Futbol21.y Futbol21.vx Futbol21.vy Futbol21.radius
         Futbol21.mass].
    repeat (split; [reflexivity |]).
    split; [intros; split; reflexivity | intros; exfalso; lra].
Qed.

(** X16. [ai_movement] (futbol 2.1) always returns: the division by the
    speed is never a division by zero.  It changes only the velocities of
    the two players.  Each player gets the velocity accelerated towards the
    ball, as it is when its length is at most [MAX_SPEED], and otherwise
    multiplied by [MAX_SPEED / speed], a factor strictly between 0 and
    1. *)
Theorem ai_movement_caps_speed (s : Futbol21.FootballSim) :
  exists s',
    Futbol21.ai_movement s = Ok s' /\
    Futbol21.ball s' = Futbol21.ball s /\
    (Futbol21.x (Futbol21.p1 s') = Futbol21.x (Futbol21.p1 s) /\
     Futbol21.y (Futbol21.p1 s') = Futbol21.y (Futbol21.p1 s) /\
     Futbol21.x (Futbol21.p2 s') = Futbol21.x (Futbol21.p2 s) /\
     Futbol21.y (Futbol21.p2 s') = Futbol21.y (Futbol21.p2 s)) /\
    capped (Futbol21.ball s) (Futbol21.p1 s) (Futbol21.p1 s') /\
    capped (Futbol21.ball s) (Futbol21.p2 s) (Futbol21.p2 s').
Proof.
  destruct (accelerate_capped (Futbol21.ball s) (Futbol21.p1 s))
    as (q1 & E1 & X1 & Y1 & _ & _ & C1).
  destruct (accelerate_capped (Futbol21.ball s) (Futbol21.p2 s))
    as (q2 & E2 & X2 & Y2 & _ & _ & C2).
  unfold Futbol21.ai_movement. rewrite E1, E2. cbn [bind].
  eexists. split; [reflexivity |].
  cbn [Futbol21.ball Futbol21.p1 Futbol21.p2]. tauto.
Qed.


(** What [collide_player] returns on a pair that overlaps, in terms of the
    unit normal [n = (dx, dy) / dist]. *)
Lemma collide_player_hit (b p b' p' : Futbol21.PhysicsObject) :
  gap (Futbol21.body p) (Futbol21.body b)
    < Futbol21.radius b + Futbol21.radius p ->
  Futbol21.collide_player b p = Ok (b', p') ->
  let d := gap (Futbol21.body p) (Futbol21.body b) in
  let nx := (Futbol21.x b - Futbol21.x p) / d in
  let ny := (Futbol21.y b - Futbol21.y p) / d in
  let a := atan2 (Futbol21.y b - Futbol21.y p) (Futbol21.x b - Futbol21.x p) in
  let ov := Futbol21.radius b + Futbol21.radius p - d in
  let imp := (Futbol21.vx b - Futbol21.vx p) * nx
             + (Futbol21.vy b - Futbol21.vy p) * ny in
  d <> 0 /\
  ((0 < imp /\
    b' = Futbol21.mkObject (Futbol21.x b + cos a * ov) (Futbol21.y b + sin a * ov)
           (Futbol21.vx b) (Futbol21.vy b) (Futbol21.radius b) (Futbol21.mass b) /\
    p' = p)
   \/
   (imp <= 0 /\ Futbol21.mass b + Futbol21.mass p <> 0 /\
    let j := 2 * imp / (Futbol21.mass b + Futbol21.mass p) in
    b' = Futbol21.mkObject (Futbol21.x b + cos a * ov) (Futbol21.y b + sin a * ov)
           (Futbol21.vx b - j * Futbol21.mass p * nx)
           (Futbol21.vy b - j * Futbol21.mass p * ny)
           (Futbol21.radius b) (Futbol21.mass b) /\
    p' = Futbol21.mkObject (Futbol21.x p) (Futbol21.y p)
           (Futbol21.vx p + j * Futbol21.mass b * nx)
           (Futbol21.vy p + j * Futbol21.mass b * ny)
           (Futbol21.radius p) (Futbol21.mass p))).
Proof.
  intros Hov. unfold Futbol21.collide_player, gap in *.
  cbn [Futbol21.body x y] in *.
  set (d := hypot _ _) in *.
  destruct (Rlt_dec d _) as [L | L]; [| lra].
  unfold pydiv at 1. destruct (Req_dec_T d 0) as [Z | NZ]; [discriminate |].
  cbn [bind]. unfold pydiv at 1.
  destruct (Req_dec_T d 0) as [Z | _]; [contradiction |].
  cbn [bind].
  destruct (Rgt_dec _ 0) as [G | G].
  - intros H. injection H as <- <-. cbv zeta. split; [exact NZ |].
    left. split; [exact G | split; reflexivity].
  - unfold pydiv.
    destruct (Req_dec_T (Futbol21.mass b + Futbol21.mass p) 0) as [Z | NM];
      [discriminate |].
    cbn [bind]. intros H. injection H as <- <-. cbv zeta.
    split; [exact NZ |]. right.
    split; [lra | split; [exact NM | split; reflexivity]].
Qed.

Lemma collide_player_miss (b p : Futbol21.PhysicsObject) :
  Futbol21.radius b + Futbol21.radius p
    <= gap (Futbol21.body p) (Futbol21.body b) ->
  Futbol21.collide_player b p = Ok (b, p).
Proof.
  intros H. unfold Futbol21.collide_player, gap in *.
  cbn [Futbol21.body x y] in *.
  destruct (Rlt_dec _ _) as [L | L]; [lra | reflexivity].
Qed.

Lemma collide_player_conserves (b p b' p' : Futbol21.PhysicsObject) :
  Futbol21.collide_player b p = Ok (b', p') ->
  (Futbol21.mass b' = Futbol21.mass b /\ Futbol21.mass p' = Futbol21.mass p /\
   Futbol21.radius b' = Futbol21.radius b /\
   Futbol21.radius p' = Futbol21.radius p /\
   Futbol21.x p' = Futbol21.x p /\ Futbol21.y p' = Futbol21.y p) /\
  Futbol21.mass b * Futbol21.vx b' + Futbol21.mass p * Futbol21.vx p'
    = Futbol21.mass b * Futbol21.vx b + Futbol21.mass p * Futbol21.vx p /\
  Futbol21.mass b * Futbol21.vy b' + Futbol21.mass p * Futbol21.vy p'
    = Futbol21.mass b * Futbol21.vy b + Futbol21.mass p * Futbol21.vy p /\
  live_force b' + live_force p' = live_force b + live_force p.
Proof.
  intros H.
  destruct (Rlt_dec (gap (Futbol21.body p) (Futbol21.body b))
                    (Futbol21.radius b + Futbol21.radius p)) as [L | L].
  - destruct (collide_player_hit b p b' p' L H) as (NZ & C). cbv zeta in C.
    unfold gap in NZ, C. cbn [Futbol21.body x y] in NZ, C.
    set (dx := Futbol21.x b - Futbol21.x p) in *.
    set (dy := Futbol21.y b - Futbol21.y p) in *.
    pose proof (normal_sq dx dy NZ) as N.
    set (nx := dx / hypot dx dy) in *. set (ny := dy / hypot dx dy) in *.
    destruct C as [(_ & -> & ->) | (_ & NM & -> & ->)].
    + unfold live_force, speed_sq.
      cbn [Futbol21.body Futbol21.mass Futbol21.radius Futbol21.x Futbol21.y
           Futbol21.vx Futbol21.vy vx vy].
      repeat split; reflexivity.
    + set (imp := (Futbol21.vx b - Futbol21.vx p) * nx
                  + (Futbol21.vy b - Futbol21.vy p) * ny) in *.
      set (M := Futbol21.mass b + Futbol21.mass p) in *.
      assert (HJ : 2 * imp / M * M = 2 * imp) by (field; exact NM).
      set (j := 2 * imp / M) in *.
      unfold live_force, speed_sq.
      cbn [Futbol21.body Futbol21.mass Futbol21.radius Futbol21.x Futbol21.y
           Futbol21.vx Futbol21.vy vx vy].
      split; [repeat split; reflexivity |].
      split; [ring | split; [ring |]].
      set (mb := Futbol21.mass b) in *. set (mp := Futbol21.mass p) in *.
      set (ub := Futbol21.vx b) in *. set (wb := Futbol21.vy b) in *.
      set (up := Futbol21.vx p) in *. set (wp := Futbol21.vy p) in *.
      replace (mb * ((ub - j * mp * nx) * (ub - j * mp * nx)
                     + (wb - j * mp * ny) * (wb - j * mp * ny))
               + mp * ((up + j * mb * nx) * (up + j * mb * nx)
                       + (wp + j * mb * ny) * (wp + j * mb * ny)))
        with (mb * (ub * ub + wb * wb) + mp * (up * up + wp * wp)
              + mb * mp * j * (j * (mb + mp) * (nx * nx + ny * ny)
                               - 2 * ((ub - up) * nx + (wb - wp) * ny)))
        by ring.
      fold M. fold imp. rewrite N, Rmult_1_r, HJ. ring.
  - rewrite collide_player_miss in H by lra.
    injection H as <- <-. repeat split; reflexivity.
Qed.

(** X17. [handle_collisions] (futbol 2.1), when it returns, conserves the
    momentum and the kinetic energy of the three bodies, each weighted by
    its mass, and never moves a player: only the ball is displaced. *)
Theorem handle_collisions_elastic (s s' : Futbol21.FootballSim) :
  Futbol21.handle_collisions s = Ok s' ->
  momentum_x s' = momentum_x s /\ momentum_y s' = momentum_y s /\
  kinetic s' = kinetic s /\
  (Futbol21.x (Futbol21.p1 s') = Futbol21.x (Futbol21.p1 s) /\
   Futbol21.y (Futbol21.p1 s') = Futbol21.y (Futbol21.p1 s) /\
   Futbol21.x (Futbol21.p2 s') = Futbol21.x (Futbol21.p2 s) /\
   Futbol21.y (Futbol21.p2 s') = Futbol21.y (Futbol21.p2 s)).
Proof.
  unfold Futbol21.handle_collisions.
  destruct (Futbol21.collide_player (Futbol21.ball s) (Futbol21.p1 s))
    as [[b1 q1] |] eqn:E1; [| discriminate].
  cbn [bind].
  destruct (Futbol21.collide_player b1 (Futbol21.p2 s))
    as [[b2 q2] |] eqn:E2; [| discriminate].
  cbn [bind]. intros H. injection H as <-.
  destruct (collide_player_conserves _ _ _ _ E1)
    as ((Mb1 & Mq1 & _ & _ & X1 & Y1) & Px1 & Py1 & K1).
  destruct (collide_player_conserves _ _ _ _ E2)
    as ((Mb2 & Mq2 & _ & _ & X2 & Y2) & Px2 & Py2 & K2).
  unfold momentum_x, momentum_y, kinetic.
  cbn [Futbol21.ball Futbol21.p1 Futbol21.p2].
  rewrite Mb1 in Px2, Py2. rewrite Mb2, Mq1, Mq2, Mb1.
  repeat split; try assumption; lra.
Qed.

Lemma object_eq (a b : Futbol21.PhysicsObject) :
  Futbol21.x a = Futbol21.x b -> Futbol21.y a = Futbol21.y b ->
  Futbol21.vx a = Futbol21.vx b -> Futbol21.vy a = Futbol21.vy b ->
  Futbol21.radius a = Futbol21.radius b -> Futbol21.mass a = Futbol21.mass b ->
  a = b.
Proof. destruct a, b; simpl; intros; subst; reflexivity. Qed.

Lemma tackle_first :
  Futbol21.collide_player (Futbol21.ball tackle_sim) (Futbol21.p1 tackle_sim)
  = Ok (Futbol21.ball tackle_after, Futbol21.p1 tackle_after).
Proof.
  unfold Futbol21.collide_player, tackle_sim, tackle_after.
  cbn [Futbol21.ball Futbol21.p1 Futbol21.x Futbol21.y Futbol21.vx Futbol21.vy
       Futbol21.radius Futbol21.mass].
  replace (270 - 270) with 0 by ring. replace (440 - 400) with 40 by ring.
  replace (hypot 0 40) with 40 by (symmetry; apply hypot_unique; lra).
  destruct (Rlt_dec 40 (15 + 30)) as [_ | N]; [| lra].
  rewrite atan2_axis_up by lra. rewrite cos_PI2, sin_PI2.
  unfold pydiv.
  destruct (Req_dec_T 40 0) as [Z | _]; [lra |]. cbn [bind].
  destruct (Rgt_dec _ 0) as [G | _]; [lra |].
  destruct (Req_dec_T (1 + 5) 0) as [Z | _]; [lra |]. cbn [bind].
  f_equal. f_equal; apply object_eq;
    cbn [Futbol21.x Futbol21.y Futbol21.vx Futbol21.vy Futbol21.radius
         Futbol21.mass]; try reflexivity; field.
Qed.

Lemma tackle_handled : Futbol21.handle_collisions tackle_sim = Ok tackle_after.
Proof.
  unfold Futbol21.handle_collisions. rewrite tackle_first. cbn [bind].
  rewrite collide_player_miss; [reflexivity |].
  unfold gap, tackle_sim, tackle_after.
  cbn [Futbol21.ball Futbol21.p2 Futbol21.body Futbol21.radius x y
       Futbol21.x Futbol21.y].
  replace (hypot (270 - 270) (445 - 580)) with 135
    by (symmetry; apply hypot_unique; lra).
  lra.
Qed.

Lemma handle_collisions_elastic_witness :
  Futbol21.handle_collisions tackle_sim = Ok tackle_after /\
  momentum_x tackle_after = momentum_x tackle_sim /\
  momentum_y tackle_after = momentum_y tackle_sim /\
  kinetic tackle_after = kinetic tackle_sim.
Proof.
  split; [exact tackle_handled |].
  destruct (handle_collisions_elastic tackle_sim tackle_after tackle_handled)
    as (A & B & C & _).
  split; [exact A | split; [exact B | exact C]].
Defined.

(** X18. The response of [handle_collisions] (futbol 2.1) to one player
    that the ball overlaps, when it returns.  If the ball approached the
    player ([impact <= 0], the test of the code), its velocity relative to
    the player along the line of centres (the offset from the player to the
    ball before the ball is moved) is reversed; otherwise no velocity
    changes. *)
Theorem player_collision_response (b p b' p' : Futbol21.PhysicsObject) :
  gap (Futbol21.body p) (Futbol21.body b)
    < Futbol21.radius b + Futbol21.radius p ->
  Futbol21.collide_player b p = Ok (b', p') ->
  (impact b p <= 0 ->
   (Futbol21.vx b' - Futbol21.vx p') * (Futbol21.x b - Futbol21.x p)
   + (Futbol21.vy b' - Futbol21.vy p') * (Futbol21.y b - Futbol21.y p)
   = - impact b p) /\
  (0 < impact b p ->
   Futbol21.vx b' = Futbol21.vx b /\ Futbol21.vy b' = Futbol21.vy b /\ p' = p).
Proof.
  intros L H.
  destruct (collide_player_hit b p b' p' L H) as (NZ & C). cbv zeta in C.
  unfold impact. unfold gap in *. cbn [Futbol21.body x y] in *.
  set (dx := Futbol21.x b - Futbol21.x p) in *.
  set (dy := Futbol21.y b - Futbol21.y p) in *.
  pose proof (hypot_nonneg dx dy) as Hd0.
  assert (Hd : 0 < hypot dx dy) by lra.
  pose proof (normal_sq dx dy NZ) as N.
  set (d := hypot dx dy) in *.
  set (nx := dx / d) in *. set (ny := dy / d) in *.
  set (imp := (Futbol21.vx b - Futbol21.vx p) * nx
              + (Futbol21.vy b - Futbol21.vy p) * ny) in *.
  assert (Ex : dx = d * nx) by (unfold nx; field; lra).
  assert (Ey : dy = d * ny) by (unfold ny; field; lra).
  assert (Himp : (Futbol21.vx b - Futbol21.vx p) * dx
                 + (Futbol21.vy b - Futbol21.vy p) * dy = d * imp).
  { rewrite Ex, Ey. unfold imp. ring. }
  rewrite Himp.
  destruct C as [(G & -> & ->) | (G & NM & -> & ->)];
    cbn [Futbol21.x Futbol21.y Futbol21.vx Futbol21.vy].
  - split.
    + intros Hle. exfalso. nra.
    + intros _. repeat split; reflexivity.
  - split.
    + intros _.
      set (M := Futbol21.mass b + Futbol21.mass p) in *.
      rewrite Ex, Ey.
      replace ((Futbol21.vx b - 2 * imp / M * Futbol21.mass p * nx
                - (Futbol21.vx p + 2 * imp / M * Futbol21.mass b * nx))
               * (d * nx)
               + (Futbol21.vy b - 2 * imp / M * Futbol21.mass p * ny
                  - (Futbol21.vy p + 2 * imp / M * Futbol21.mass b * ny))
                 * (d * ny))
        with (d * (imp - 2 * imp / M * M * (nx * nx + ny * ny)))
        by (unfold imp, M; ring).
      rewrite N. field. exact NM.
    + intros Hpos. exfalso. nra.
Qed.

Lemma player_collision_response_witness :
  (Futbol21.vx (Futbol21.ball tackle_after)
   - Futbol21.vx (Futbol21.p1 tackle_after))
  * (Futbol21.x (Futbol21.ball tackle_sim) - Futbol21.x (Futbol21.p1 tackle_sim))
  + (Futbol21.vy (Futbol21.ball tackle_after)
     - Futbol21.vy (Futbol21.p1 tackle_after))
    * (Futbol21.y (Futbol21.ball tackle_sim)
       - Futbol21.y (Futbol21.p1 tackle_sim))
  = - impact (Futbol21.ball tackle_sim) (Futbol21.p1 tackle_sim).
Proof.
  assert (G : gap (Futbol21.body (Futbol21.p1 tackle_sim))
                  (Futbol21.body (Futbol21.ball tackle_sim)) = 40).
  { unfold gap.
    cbn [tackle_sim Futbol21.ball Futbol21.p1 Futbol21.body x y
         Futbol21.x Futbol21.y].
    apply hypot_unique; lra. }
  assert (L : gap (Futbol21.body (Futbol21.p1 tackle_sim))
                  (Futbol21.body (Futbol21.ball tackle_sim))
              < Futbol21.radius (Futbol21.ball tackle_sim)
                + Futbol21.radius (Futbol21.p1 tackle_sim)).
  { rewrite G. cbn [tackle_sim Futbol21.ball Futbol21.p1 Futbol21.radius]. lra. }
  destruct (player_collision_response _ _ _ _ L tackle_first) as (A & _).
  apply A. unfold impact.
  cbn [tackle_sim Futbol21.ball Futbol21.p1 Futbol21.x Futbol21.y
       Futbol21.vx Futbol21.vy].
  lra.
Defined.

Lemma hypot_ge_y (a b : R) : Rabs b <= hypot a b.
Proof.
  pose proof (hypot_nonneg a b) as H0. pose proof (hypot_sq a b) as Hq.
  unfold Rabs. destruct (Rcase_abs b); nra.
Qed.





(** X19. Where [handle_collisions] (futbol 2.1) fails.  For a ball and a
    player whose masses do not cancel, the loop body raises
    [ZeroDivisionError] exactly when their centres coincide while the sum of
    their radii is positive. *)
Theorem player_collision_failure (b p : Futbol21.PhysicsObject) :
  Futbol21.mass b + Futbol21.mass p <> 0 ->
  (Futbol21.collide_player b p = ZeroDivisionError <->
   (Futbol21.x b = Futbol21.x p /\ Futbol21.y b = Futbol21.y p /\
    0 < Futbol21.radius b + Futbol21.radius p)).
Proof.
  intros NM. unfold Futbol21.collide_player.
  set (dx := Futbol21.x b - Futbol21.x p).
  set (dy := Futbol21.y b - Futbol21.y p).
  pose proof (hypot_nonneg dx dy) as Hd0.
  split.
  - destruct (Rlt_dec (hypot dx dy) _) as [L | L]; [| discriminate].
    unfold pydiv at 1.
    destruct (Req_dec_T (hypot dx dy) 0) as [Z | NZ].
    + intros _. destruct (hypot_zero dx dy Z) as [E1 E2].
      unfold dx, dy in E1, E2. repeat split; lra.
    + cbn [bind]. unfold pydiv at 1.
      destruct (Req_dec_T (hypot dx dy) 0) as [Z | _]; [contradiction |].
      cbn [bind]. destruct (Rgt_dec _ 0); [discriminate |].
      unfold pydiv.
      destruct (Req_dec_T (Futbol21.mass b + Futbol21.mass p) 0);
        [contradiction | discriminate].
  - intros (E1 & E2 & Hr).
    assert (Zx : dx = 0) by (unfold dx; lra).
    assert (Zy : dy = 0) by (unfold dy; lra).
    rewrite Zx, Zy, hypot_origin.
    destruct (Rlt_dec 0 _) as [_ | N]; [| lra].
    unfold pydiv at 1. destruct (Req_dec_T 0 0) as [_ | N]; [reflexivity | lra].
Qed.

Lemma player_collision_failure_witness :
  Futbol21.collide_player (Futbol21.mkObject 270 480 5 5 15 1)
                          (Futbol21.mkObject 270 480 0 0 30 5)
  = ZeroDivisionError.
Proof.
  apply player_collision_failure;
    cbn [Futbol21.x Futbol21.y Futbol21.radius Futbol21.mass];
    [lra | repeat split; lra].
Defined.

(** ** futbol 2.1: the main loop *)

Lemma step_paused (o : Oracle) (s : Futbol21.FootballSim) :
  (0 < Futbol21.goal_timer s)%Z ->
  Futbol21.step o s = Ok (with_goal_timer s (Futbol21.goal_timer s - 1)).
Proof.
  intros H. unfold Futbol21.step.
  destruct (Z.ltb_spec 0 (Futbol21.goal_timer s)) as [_ | N]; [| lia].
  reflexivity.
Qed.

(** X20. The goal pause of futbol 2.1: while the goal timer is positive an
    iteration of [run] only counts it down.  From a state whose timer is at
    least [n], [n] iterations return, and leave the bodies, the score, the
    match time and the [random] call count as they were, with the timer
    lowered by [n]. *)
Theorem goal_pause (o : Oracle) (n : nat) (s : Futbol21.FootballSim) :
  (Z.of_nat n <= Futbol21.goal_timer s)%Z ->
  Futbol21.run o n s
  = Ok (with_goal_timer s (Futbol21.goal_timer s - Z.of_nat n)).
Proof.
  revert s. induction n as [| n IH]; intros s H.
  - cbn [Futbol21.run]. f_equal. destruct s. unfold with_goal_timer.
    cbn [Futbol21.ball Futbol21.p1 Futbol21.p2 Futbol21.score_team1
         Futbol21.score_team2 Futbol21.match_time Futbol21.goal_timer
         Futbol21.calls].
    f_equal. cbn [Z.of_nat]. lia.
  - cbn [Futbol21.run]. rewrite step_paused by lia. cbn [bind].
    rewrite IH by (unfold with_goal_timer; cbn [Futbol21.goal_timer]; lia).
    f_equal. unfold with_goal_timer.
    cbn [Futbol21.ball Futbol21.p1 Futbol21.p2 Futbol21.score_team1
         Futbol21.score_team2 Futbol21.match_time Futbol21.goal_timer
         Futbol21.calls].
    f_equal. lia.
Qed.

Lemma goal_pause_witness :
  Futbol21.run sample_oracle 60
    (Futbol21.trigger_goal sample_oracle (Futbol21.init sample_oracle 0))
  = Ok (with_goal_timer
          (Futbol21.trigger_goal sample_oracle (Futbol21.init sample_oracle 0))
          0).
Proof.
  apply (goal_pause sample_oracle 60
           (Futbol21.trigger_goal sample_oracle (Futbol21.init sample_oracle 0))).
  cbn [Futbol21.trigger_goal Futbol21.reset_positions Futbol21.kickoff
       Futbol21.goal_timer Z.of_nat Pos.of_succ_nat Pos.succ]. 
  vm_compute. discriminate.
Defined.






(** ** futbol 1.5: marble against marble *)

Lemma exchange_miss (o1 o2 : Ball) :
  radius o1 + radius o2 <= gap o1 o2 -> exchange_collision o1 o2 = (o1, o2).
Proof.
  intros H. unfold exchange_collision, gap in *.
  destruct (Rlt_dec _ _); [lra | reflexivity].
Qed.

Lemma exchange_hit (o1 o2 : Ball) :
  gap o1 o2 < radius o1 + radius o2 ->
  exchange_collision o1 o2 =
  let a := atan2 (y o2 - y o1) (x o2 - x o1) in
  let overlap := (radius o1 + radius o2 - gap o1 o2) / 2 in
  (mkBall (x o1 - cos a * overlap) (y o1 - sin a * overlap)
          (vx o2) (vy o2) (radius o1),
   mkBall (x o2 + cos a * overlap) (y o2 + sin a * overlap)
          (vx o1) (vy o1) (radius o2)).
Proof.
  intros H. unfold exchange_collision, gap in *.
  destruct (Rlt_dec _ _); [reflexivity | lra].
Qed.

Lemma marble_exchange_radii (o1 o2 : Ball) :
  radius (fst (exchange_collision o1 o2)) = radius o1 /\
  radius (snd (exchange_collision o1 o2)) = radius o2.
Proof.
  unfold exchange_collision. destruct (Rlt_dec _ _); split; reflexivity.
Qed.

Lemma body15_with (m : Futbol15.Marble) (b : Ball) :
  radius b = Futbol15.radius m ->
  Futbol15.body (Futbol15.with_body m b) = b.
Proof.
  destruct b as [x1 y1 u1 v1 r1]. cbn [radius]. intros ->. reflexivity.
Qed.

Lemma collide15_spec (o1 o2 : Futbol15.Marble) :
  let r := Futbol15.collide o1 o2 in
  let e := exchange_collision (Futbol15.body o1) (Futbol15.body o2) in
  Futbol15.body (fst r) = fst e /\ Futbol15.body (snd r) = snd e /\
  Futbol15.radius (fst r) = Futbol15.radius o1 /\
  Futbol15.radius (snd r) = Futbol15.radius o2 /\
  Futbol15.mass (fst r) = Futbol15.mass o1 /\
  Futbol15.mass (snd r) = Futbol15.mass o2 /\
  Futbol15.is_ball (fst r) = Futbol15.is_ball o1 /\
  Futbol15.is_ball (snd r) = Futbol15.is_ball o2.
Proof.
  cbv zeta. unfold Futbol15.collide.
  destruct (marble_exchange_radii (Futbol15.body o1) (Futbol15.body o2))
    as [R1 R2].
  destruct (exchange_collision (Futbol15.body o1) (Futbol15.body o2))
    as [b1 b2].
  cbn [fst snd] in *. cbn [Futbol15.body radius] in R1, R2.
  rewrite !body15_with by assumption.
  destruct b1, b2. repeat split; reflexivity.
Qed.

Lemma collide15_velocities (o1 o2 : Futbol15.Marble) :
  let r := Futbol15.collide o1 o2 in
  (velocity (fst r) = velocity o2 /\ velocity (snd r) = velocity o1) \/
  (velocity (fst r) = velocity o1 /\ velocity (snd r) = velocity o2).
Proof.
  cbv zeta. destruct (collide15_spec o1 o2) as (B1 & B2 & _). cbv zeta in B1, B2.
  destruct (Rlt_dec (gap (Futbol15.body o1) (Futbol15.body o2))
                    (radius (Futbol15.body o1) + radius (Futbol15.body o2)))
    as [L | L].
  - left. rewrite exchange_hit in B1, B2 by exact L. cbv zeta in B1, B2.
    cbn [fst snd] in B1, B2.
    apply (f_equal vx) in B1 as V1. apply (f_equal vy) in B1 as W1.
    apply (f_equal vx) in B2 as V2. apply (f_equal vy) in B2 as W2.
    cbn [Futbol15.body vx vy] in V1, W1, V2, W2.
    unfold velocity. split; congruence.
  - right. rewrite exchange_miss in B1, B2 by lra. cbn [fst snd] in B1, B2.
    apply (f_equal vx) in B1 as V1. apply (f_equal vy) in B1 as W1.
    apply (f_equal vx) in B2 as V2. apply (f_equal vy) in B2 as W2.
    cbn [Futbol15.body vx vy] in V1, W1, V2, W2.
    unfold velocity. split; congruence.
Qed.

(** X24. The marble-to-marble loop of futbol 1.5 over
    [[team1, team2, ball]].  It keeps every radius, mass and [is_ball]
    flag, and it only hands velocities from one marble to another: the
    three velocities after the loop are the three velocities before it, in
    some order. *)
Theorem marble_loop (t1 t2 b t1' t2' b' : Futbol15.Marble) :
  Futbol15.marble_collisions (t1, t2, b) = (t1', t2', b') ->
  (Futbol15.radius t1' = Futbol15.radius t1 /\
   Futbol15.radius t2' = Futbol15.radius t2 /\
   Futbol15.radius b' = Futbol15.radius b) /\
  (Futbol15.mass t1' = Futbol15.mass t1 /\
   Futbol15.mass t2' = Futbol15.mass t2 /\
   Futbol15.mass b' = Futbol15.mass b) /\
  (Futbol15.is_ball t1' = Futbol15.is_ball t1 /\
   Futbol15.is_ball t2' = Futbol15.is_ball t2 /\
   Futbol15.is_ball b' = Futbol15.is_ball b) /\
  Permutation [velocity t1'; velocity t2'; velocity b']
              [velocity t1; velocity t2; velocity b].
Proof.
  unfold Futbol15.marble_collisions.
  pose proof (collide15_spec t1 t2) as S12. cbv zeta in S12.
  pose proof (collide15_velocities t1 t2) as V12. cbv zeta in V12.
  destruct (Futbol15.collide t1 t2) as [u1 u2]. cbn [fst snd] in S12, V12.
  pose proof (collide15_spec u1 b) as S1b. cbv zeta in S1b.
  pose proof (collide15_velocities u1 b) as V1b. cbv zeta in V1b.
  destruct (Futbol15.collide u1 b) as [w1 c]. cbn [fst snd] in S1b, V1b.
  pose proof (collide15_spec u2 c) as S2b. cbv zeta in S2b.
  pose proof (collide15_velocities u2 c) as V2b. cbv zeta in V2b.
  destruct (Futbol15.collide u2 c) as [w2 c2]. cbn [fst snd] in S2b, V2b.
  intros H. injection H as <- <- <-.
  destruct S12 as (_ & _ & Ar1 & Ar2 & Am1 & Am2 & Ai1 & Ai2).
  destruct S1b as (_ & _ & Br1 & Br2 & Bm1 & Bm2 & Bi1 & Bi2).
  destruct S2b as (_ & _ & Cr1 & Cr2 & Cm1 & Cm2 & Ci1 & Ci2).
  split; [repeat split; congruence |].
  split; [repeat split; congruence |].
  split; [repeat split; congruence |].
  destruct V12 as [[A1 A2] | [A1 A2]];
    destruct V1b as [[B1 B2] | [B1 B2]];
    destruct V2b as [[C1 C2] | [C1 C2]];
    rewrite C1, C2, ?B1, ?B2, ?A1, ?A2;
    eauto 6 using Permutation_refl, perm_swap, perm_skip, perm_trans.
Qed.

Lemma marble_loop_witness :
  let t1 := Futbol15.mkMarble 200 500 35 8 8 false 3 in
  let t2 := Futbol15.mkMarble 250 500 35 (- 8) 8 false 3 in
  let b := Futbol15.mkMarble 300 350 20 8 (- 8) true 1 in
  let r := Futbol15.marble_collisions (t1, t2, b) in
  Permutation [velocity (fst (fst r)); velocity (snd (fst r)); velocity (snd r)]
              [velocity t1; velocity t2; velocity b].
Proof.
  cbv zeta.
  destruct (Futbol15.marble_collisions
              (Futbol15.mkMarble 200 500 35 8 8 false 3,
               Futbol15.mkMarble 250 500 35 (- 8) 8 false 3,
               Futbol15.mkMarble 300 350 20 8 (- 8) true 1))
    as [[t1' t2'] b'] eqn:E.
  destruct (marble_loop _ _ _ _ _ _ E) as (_ & _ & _ & P).
  cbn [fst snd]. exact P.
Defined.

(** ** The double pendulum *)

Lemma den1_pos (delta : R) :
  1 <= (Pendulum.m1 + Pendulum.m2) * Pendulum.L1
       - Pendulum.m2 * Pendulum.L1 * cos delta * cos delta.
Proof.
  unfold Pendulum.m1, Pendulum.m2, Pendulum.L1.
  pose proof (dir_unit delta). nra.
Qed.

(** X25. The positions computed from the angles keep the rods rigid: the
    first bob is at distance [L1] from the pivot, the second at distance
    [L2] from the first, and so the second bob is never farther than
    [L1 + L2] from the pivot, inside the axes limits [L1 + L2 + 0.5]. *)
Theorem rods_are_rigid (theta1 theta2 : R) :
  hypot (Pendulum.x1 theta1) (Pendulum.y1 theta1) = Pendulum.L1 /\
  hypot (Pendulum.x2 theta1 theta2 - Pendulum.x1 theta1)
        (Pendulum.y2 theta1 theta2 - Pendulum.y1 theta1) = Pendulum.L2 /\
  hypot (Pendulum.x2 theta1 theta2) (Pendulum.y2 theta1 theta2)
    <= Pendulum.L1 + Pendulum.L2 /\
  Rabs (Pendulum.x2 theta1 theta2) < Pendulum.L1 + Pendulum.L2 + 5 / 10 /\
  Rabs (Pendulum.y2 theta1 theta2) < Pendulum.L1 + Pendulum.L2 + 5 / 10.
Proof.
  pose proof (dir_unit theta1) as U1. pose proof (dir_unit theta2) as U2.
  assert (A : hypot (Pendulum.x1 theta1) (Pendulum.y1 theta1) = Pendulum.L1).
  { unfold Pendulum.x1, Pendulum.y1, Pendulum.L1.
    apply hypot_unique; [lra | nra]. }
  assert (B : hypot (Pendulum.x2 theta1 theta2 - Pendulum.x1 theta1)
                (Pendulum.y2 theta1 theta2 - Pendulum.y1 theta1) = Pendulum.L2).
  { unfold Pendulum.x2, Pendulum.y2, Pendulum.L2.
    apply hypot_unique; [lra | nra]. }
  assert (C : hypot (Pendulum.x2 theta1 theta2) (Pendulum.y2 theta1 theta2)
              <= Pendulum.L1 + Pendulum.L2).
  { rewrite <- A at 1. rewrite <- B.
    replace (Pendulum.x2 theta1 theta2)
      with (Pendulum.x1 theta1
            + (Pendulum.x2 theta1 theta2 - Pendulum.x1 theta1)) at 1 by ring.
    replace (Pendulum.y2 theta1 theta2)
      with (Pendulum.y1 theta1
            + (Pendulum.y2 theta1 theta2 - Pendulum.y1 theta1)) at 1 by ring.
    apply hypot_triangle. }
  split; [exact A | split; [exact B | split; [exact C |]]].
  pose proof (hypot_ge_y (Pendulum.x2 theta1 theta2) (Pendulum.y2 theta1 theta2)).
  pose proof (hypot_ge_y (Pendulum.y2 theta1 theta2) (Pendulum.x2 theta1 theta2))
    as Hx.
  replace (hypot (Pendulum.y2 theta1 theta2) (Pendulum.x2 theta1 theta2))
    with (hypot (Pendulum.x2 theta1 theta2) (Pendulum.y2 theta1 theta2)) in Hx
    by (unfold hypot; f_equal; ring).
  split; lra.
Qed.

Lemma energy_closed (theta1 w1 theta2 w2 : R) :
  energy (theta1, w1, theta2, w2)
  = w1 * w1 + 1 / 2 * (w2 * w2) + w1 * w2 * cos (theta2 - theta1)
    - 2 * Pendulum.g * cos theta1 - Pendulum.g * cos theta2.
Proof.
  unfold energy, Pendulum.y2, Pendulum.y1, Pendulum.m1, Pendulum.m2,
    Pendulum.L1, Pendulum.L2.
  rewrite cos_minus.
  pose proof (dir_unit theta1) as U1. pose proof (dir_unit theta2) as U2.
  replace (1 / 2 * 1 * (1 * cos theta1 * w1 * (1 * cos theta1 * w1)
                        + 1 * sin theta1 * w1 * (1 * sin theta1 * w1)))
    with (1 / 2 * (w1 * w1) * (cos theta1 * cos theta1 + sin theta1 * sin theta1))
    by field.
  replace (1 / 2 * 1 *
           ((1 * cos theta1 * w1 + 1 * cos theta2 * w2)
            * (1 * cos theta1 * w1 + 1 * cos theta2 * w2)
            + (1 * sin theta1 * w1 + 1 * sin theta2 * w2)
              * (1 * sin theta1 * w1 + 1 * sin theta2 * w2)))
    with (1 / 2 * (w1 * w1) * (cos theta1 * cos theta1 + sin theta1 * sin theta1)
          + 1 / 2 * (w2 * w2) * (cos theta2 * cos theta2 + sin theta2 * sin theta2)
          + w1 * w2 * (cos theta2 * cos theta1 + sin theta2 * sin theta1))
    by field.
  rewrite U1, U2. field.
Qed.

Lemma dlim_value (f : R -> R) (x l l' : R) :
  derivable_pt_lim f x l -> l = l' -> derivable_pt_lim f x l'.
Proof. intros H <-. exact H. Qed.

Ltac deriv :=
  lazymatch goal with
  | |- derivable_pt_lim (fun h => @?a h + @?b h) _ _ =>
      apply (derivable_pt_lim_plus a b); deriv
  | |- derivable_pt_lim (fun h => @?a h - @?b h) _ _ =>
      apply (derivable_pt_lim_minus a b); deriv
  | |- derivable_pt_lim (fun h => @?a h * @?b h) _ _ =>
      apply (derivable_pt_lim_mult a b); deriv
  | |- derivable_pt_lim (fun h => cos (@?a h)) _ _ =>
      apply (derivable_pt_lim_comp a cos); [deriv | apply derivable_pt_lim_cos]
  | |- derivable_pt_lim (fun h => h) _ _ => apply derivable_pt_lim_id
  | |- derivable_pt_lim (fun _ => ?c) _ _ => apply (derivable_pt_lim_const c)
  end.

(** X26. The equations of motion that [derivs] hands to [odeint] conserve
    the mechanical energy of the pendulum: at every state, the energy has
    derivative zero along the direction that [derivs] returns.  The
    denominator [den1] of [derivs] is at least 1 at every state, and
    [den2] equals it, so that nothing is divided by zero. *)
Theorem derivs_conserve_energy (state : Pendulum.State) :
  derivable_pt_lim (fun h => energy (advance state h)) 0 0 /\
  (let '(theta1, _, theta2, _) := state in
   1 <= (Pendulum.m1 + Pendulum.m2) * Pendulum.L1
        - Pendulum.m2 * Pendulum.L1 * cos (theta2 - theta1)
          * cos (theta2 - theta1)) /\
  Pendulum.L2 / Pendulum.L1 = 1.
Proof.
  destruct state as [[[theta1 w1] theta2] w2].
  pose proof (den1_pos (theta2 - theta1)) as Hden.
  split; [| split; [exact Hden | unfold Pendulum.L1, Pendulum.L2; field]].
  unfold advance, Pendulum.derivs.
  set (den := (Pendulum.m1 + Pendulum.m2) * Pendulum.L1
              - Pendulum.m2 * Pendulum.L1 * cos (theta2 - theta1)
                * cos (theta2 - theta1)) in *.
  set (a1 := _ / den). set (a2 := _ / (Pendulum.L2 / Pendulum.L1 * den)).
  apply (derivable_pt_lim_ext
           (fun h => (w1 + h * a1) * (w1 + h * a1)
                     + 1 / 2 * ((w2 + h * a2) * (w2 + h * a2))
                     + (w1 + h * a1) * (w2 + h * a2)
                       * cos ((theta2 + h * w2) - (theta1 + h * w1))
                     - 2 * Pendulum.g * cos (theta1 + h * w1)
                     - Pendulum.g * cos (theta2 + h * w2))).
  { intros h. symmetry. apply energy_closed. }
  eapply dlim_value; [deriv |].
  cbv beta.
  replace (theta2 + 0 * w2 - (theta1 + 0 * w1)) with (theta2 - theta1) by ring.
  replace (theta1 + 0 * w1) with theta1 by ring.
  replace (theta2 + 0 * w2) with theta2 by ring.
  unfold a1, a2, den in *.
  unfold Pendulum.m1, Pendulum.m2, Pendulum.L1, Pendulum.L2 in *.
  field. lra.
Qed.

(** ** The trail of the animation *)

Lemma tl_skipn (m : nat) (l : list R) : tl (skipn m l) = skipn (S m) l.
Proof.
  revert l. induction m as [| m IH]; intros [| a l]; try reflexivity.
  change (tl (skipn m l) = skipn (S m) l). apply IH.
Qed.

Lemma firstn_snoc (l : list R) (n : nat) (a : R) :
  nth_error l n = Some a -> firstn (S n) l = firstn n l ++ [a].
Proof.
  revert n. induction l as [| b l IH]; intros [| n] H; try discriminate.
  - cbn in H. injection H as ->. reflexivity.
  - change (b :: firstn (S n) l = b :: (firstn n l ++ [a])).
    f_equal. apply IH. exact H.
Qed.

Lemma last_points_length (k : nat) (l : list R) :
  List.length (last_points k l) = Nat.min k (List.length l).
Proof. unfold last_points. rewrite length_skipn. lia. Qed.

(** Appending a point and dropping the oldest one when the list has grown
    past [k] keeps the last [k] points. *)
Lemma push_last (k : nat) (l : list R) (a : R) :
  (1 <= k)%nat ->
  Nat.ltb k (List.length (last_points k l ++ [a]))
  = Nat.leb k (List.length l) /\
  (Nat.leb k (List.length l) = true ->
   Pendulum.pop0 (last_points k l ++ [a]) = Some (last_points k (l ++ [a]))) /\
  (Nat.leb k (List.length l) = false ->
   last_points k l ++ [a] = last_points k (l ++ [a])).
Proof.
  intros Hk.
  assert (Hlen : List.length (last_points k l ++ [a])
                 = S (Nat.min k (List.length l))).
  { rewrite length_app, last_points_length. cbn [List.length]. lia. }
  rewrite Hlen.
  destruct (Nat.leb_spec k (List.length l)) as [Hge | Hlt].
  - split; [apply Nat.ltb_lt; lia |]. split; [intros _ | discriminate].
    unfold last_points. rewrite length_app. cbn [List.length].
    replace (List.length l + 1 - k)%nat with (S (List.length l - k)) by lia.
    rewrite <- tl_skipn.
    rewrite (skipn_app (List.length l - k) l [a]).
    replace (List.length l - k - List.length l)%nat with 0%nat by lia.
    cbn [skipn].
    destruct (skipn (List.length l - k) l) as [| b t] eqn:E.
    + exfalso. apply (f_equal (@List.length R)) in E.
      rewrite length_skipn in E. cbn [List.length] in E. lia.
    + reflexivity.
  - split; [apply Nat.ltb_ge; lia |]. split; [discriminate | intros _].
    unfold last_points. rewrite length_app. cbn [List.length].
    replace (List.length l - k)%nat with 0%nat by lia.
    replace (List.length l + 1 - k)%nat with 0%nat by lia.
    reflexivity.
Qed.

Lemma frames_trail (solution : list Pendulum.State) (n : nat)
    (history : list R * list R) :
  (n < List.length solution)%nat ->
  Pendulum.frames solution (S n) history
  = Some (last_points Pendulum.history_len (firstn (S n) (Pendulum.x2s solution)),
          last_points Pendulum.history_len (firstn (S n) (Pendulum.y2s solution))).
Proof.
  assert (Lx : List.length (Pendulum.x2s solution) = List.length solution)
    by apply length_map.
  assert (Ly : List.length (Pendulum.y2s solution) = List.length solution)
    by apply length_map.
  induction n as [| n IH]; intros Hn.
  - cbn [Pendulum.frames]. unfold Pendulum.animate.
    destruct (nth_error (Pendulum.x2s solution) 0) as [a |] eqn:Ex;
      [| apply nth_error_None in Ex; lia].
    destruct (nth_error (Pendulum.y2s solution) 0) as [b |] eqn:Ey;
      [| apply nth_error_None in Ey; lia].
    rewrite (firstn_snoc _ _ _ Ex), (firstn_snoc _ _ _ Ey).
    reflexivity.
  - change (Pendulum.frames solution (S (S n)) history)
      with (match Pendulum.frames solution (S n) history with
            | Some h => Pendulum.animate solution (S n) h
            | None => None
            end).
    rewrite IH by lia. unfold Pendulum.animate.
    destruct (nth_error (Pendulum.x2s solution) (S n)) as [a |] eqn:Ex;
      [| apply nth_error_None in Ex; lia].
    destruct (nth_error (Pendulum.y2s solution) (S n)) as [b |] eqn:Ey;
      [| apply nth_error_None in Ey; lia].
    rewrite (firstn_snoc _ _ _ Ex), (firstn_snoc _ _ _ Ey).
    change (Nat.eqb (S n) 0) with false. cbv iota.
    assert (Hk : (1 <= Pendulum.history_len)%nat)
      by (unfold Pendulum.history_len; lia).
    destruct (push_last Pendulum.history_len
                (firstn (S n) (Pendulum.x2s solution)) a Hk) as (Tx & Px & Qx).
    destruct (push_last Pendulum.history_len
                (firstn (S n) (Pendulum.y2s solution)) b Hk) as (_ & Py & Qy).
    rewrite Tx. rewrite length_firstn, Lx in Px, Qx |- *.
    rewrite length_firstn, Ly in Py, Qy.
    case_eq (Nat.leb Pendulum.history_len (Nat.min (S n) (List.length solution)));
      intros T.
    + rewrite (Px T), (Py T). reflexivity.
    + rewrite (Qx T), (Qy T). reflexivity.
Qed.

(** X27. The trail of the pendulum animation.  After the calls
    [animate (0)], ..., [animate (n - 1)], for [1 <= n <= len (solution)]
    and whatever the history lists held before, no call has raised and
    [history_x], [history_y] hold the last [history_len] points of the
    second bob drawn so far, all [n] when there are fewer. *)
Theorem trail_is_last_points (solution : list Pendulum.State) (n : nat)
    (history : list R * list R) :
  (1 <= n <= List.length solution)%nat ->
  exists hx hy,
    Pendulum.frames solution n history = Some (hx, hy) /\
    hx = last_points Pendulum.history_len (firstn n (Pendulum.x2s solution)) /\
    hy = last_points Pendulum.history_len (firstn n (Pendulum.y2s solution)) /\
    List.length hx = Nat.min Pendulum.history_len n /\
    List.length hy = Nat.min Pendulum.history_len n.
Proof.
  intros [H1 H2]. destruct n as [| n]; [lia |].
  eexists. eexists. split; [apply frames_trail; lia |].
  split; [reflexivity | split; [reflexivity |]].
  rewrite !last_points_length, !length_firstn.
  assert (Lx : List.length (Pendulum.x2s solution) = List.length solution)
    by apply length_map.
  assert (Ly : List.length (Pendulum.y2s solution) = List.length solution)
    by apply length_map.
  rewrite Lx, Ly. split; lia.
Qed.

Lemma trail_is_last_points_witness :
  exists hx hy,
    Pendulum.frames [(PI / 2, 0, PI / 2, 0); (PI / 2, 0, PI / 2, 0)] 2
      ([1; 2; 3], [4])
    = Some (hx, hy) /\
    List.length hx = 2%nat /\ List.length hy = 2%nat.
Proof.
  destruct (trail_is_last_points
              [(PI / 2, 0, PI / 2, 0); (PI / 2, 0, PI / 2, 0)] 2
              ([1; 2; 3], [4]))
    as (hx & hy & E & _ & _ & Lx & Ly).
  - cbn [List.length]. lia.
  - exists hx, hy. split; [exact E | split; [exact Lx | exact Ly]].
Defined.

(** ** Random spawn *)

Lemma spawn_returns (BR : R) (fuel : nat) (d : Dice) (n : nat) (cx cy : Z)
    (R_ : R) (k : nat) :
  (k < fuel)%nat ->
  spawn_accepts BR cx cy R_ (spawn_attempt d n cx cy k) ->
  (forall j, (j < k)%nat ->
     ~ spawn_accepts BR cx cy R_ (spawn_attempt d n cx cy j)) ->
  get_random_spawn_with BR fuel d n cx cy R_
  = Some (fst (spawn_attempt d n cx cy k), snd (spawn_attempt d n cx cy k),
          (n + 2 * (k + 1))%nat).
Proof.
  revert n k. induction fuel as [| fuel IH]; intros n k Hk Hin Hout; [lia |].
  cbn [get_random_spawn_with].
  destruct k as [| k].
  - unfold spawn_accepts, spawn_attempt in Hin. cbn [fst snd] in Hin.
    replace (n + 2 * 0)%nat with n in Hin by lia.
    destruct (Rlt_dec _ _) as [_ | N]; [| contradiction].
    unfold spawn_attempt. cbn [fst snd].
    replace (n + 2 * 0)%nat with n by lia.
    replace (n + 2 * (0 + 1))%nat with (n + 2)%nat by lia. reflexivity.
  - assert (H0 : ~ spawn_accepts BR cx cy R_ (spawn_attempt d n cx cy 0))
      by (apply Hout; lia).
    unfold spawn_accepts, spawn_attempt in H0. cbn [fst snd] in H0.
    replace (n + 2 * 0)%nat with n in H0 by lia.
    destruct (Rlt_dec _ _) as [Y | _]; [contradiction |].
    assert (Shift : forall j, spawn_attempt d (n + 2) cx cy j
                              = spawn_attempt d n cx cy (S j)).
    { intros j. unfold spawn_attempt. f_equal; f_equal; lia. }
    rewrite (IH (n + 2)%nat k).
    + rewrite Shift. f_equal. f_equal. lia.
    + lia.
    + rewrite Shift. exact Hin.
    + intros j Hj. rewrite Shift. apply Hout. lia.
Qed.

Lemma spawn_returned (BR : R) (fuel : nat) (d : Dice) (n : nat) (cx cy : Z)
    (R_ : R) (rx ry : Z) (n' : nat) :
  get_random_spawn_with BR fuel d n cx cy R_ = Some (rx, ry, n') ->
  exists k,
    (k < fuel)%nat /\ (rx, ry) = spawn_attempt d n cx cy k /\
    n' = (n + 2 * (k + 1))%nat /\
    spawn_accepts BR cx cy R_ (rx, ry) /\
    forall j, (j < k)%nat ->
      ~ spawn_accepts BR cx cy R_ (spawn_attempt d n cx cy j).
Proof.
  revert n. induction fuel as [| fuel IH]; intros n H; [discriminate |].
  cbn [get_random_spawn_with] in H.
  destruct (Rlt_dec _ _) as [Y | N].
  - injection H as <- <- <-. exists 0%nat.
    unfold spawn_attempt, spawn_accepts. cbn [fst snd].
    replace (n + 2 * 0)%nat with n by lia.
    split; [lia |]. split; [reflexivity |]. split; [lia |].
    split; [exact Y |]. intros j Hj. lia.
  - destruct (IH _ H) as (k & Hk & E & En & Hin & Hout).
    assert (Shift : forall j, spawn_attempt d (n + 2) cx cy j
                              = spawn_attempt d n cx cy (S j)).
    { intros j. unfold spawn_attempt. f_equal; f_equal; lia. }
    exists (S k). split; [lia |]. split; [rewrite <- Shift; exact E |].
    split; [lia |]. split; [exact Hin |].
    intros [| j] Hj.
    + unfold spawn_accepts, spawn_attempt. cbn [fst snd].
      replace (n + 2 * 0)%nat with n by lia. exact N.
    + rewrite <- Shift. apply Hout. lia.
Qed.

(** X28. [get_random_spawn] (futbol 1.3, 1.4) is rejection sampling: it
    returns the first point, in the order of the [random] calls, that lies
    closer to the centre than [r_limit - BALL_RADIUS - 10], having made two
    calls for each point it drew.  With [fuel] passes allowed it returns
    exactly when one of the first [fuel] points is accepted. *)
Theorem spawn_is_first_accepted (BR : R) (fuel : nat) (d : Dice) (n : nat)
    (cx cy : Z) (R_ : R) (rx ry : Z) (n' : nat) :
  get_random_spawn_with BR fuel d n cx cy R_ = Some (rx, ry, n') <->
  exists k,
    (k < fuel)%nat /\ (rx, ry) = spawn_attempt d n cx cy k /\
    n' = (n + 2 * (k + 1))%nat /\
    spawn_accepts BR cx cy R_ (rx, ry) /\
    forall j, (j < k)%nat ->
      ~ spawn_accepts BR cx cy R_ (spawn_attempt d n cx cy j).
Proof.
  split; [apply spawn_returned |].
  intros (k & Hk & E & -> & Hin & Hout).
  rewrite (spawn_returns BR fuel d n cx cy R_ k Hk).
  - rewrite <- E. reflexivity.
  - rewrite <- E. exact Hin.
  - exact Hout.
Qed.

Lemma spawn_is_first_accepted_witness :
  get_random_spawn_with 30 5 far_dice 0 300 400 260 = Some (150, 450, 4%nat)%Z.
Proof.
  apply (proj2 (spawn_is_first_accepted 30 5 far_dice 0 300 400 260 150 450 4)).
  exists 1%nat. split; [lia |]. split; [reflexivity |]. split; [reflexivity |].
  split.
  - unfold spawn_accepts. cbn [fst snd].
    replace (IZR (150 - 300)) with (-150) by (rewrite minus_IZR; ring).
    replace (IZR (450 - 400)) with 50 by (rewrite minus_IZR; ring).
    pose proof (hypot_nonneg (-150) 50) as H0.
    pose proof (hypot_sq (-150) 50) as Hq. nra.
  - intros j Hj. assert (j = 0%nat) by lia. subst j.
    unfold spawn_accepts, spawn_attempt. cbn [fst snd far_dice randint Nat.add
                                               Nat.mul].
    replace (IZR (300 + 150 - 300)) with 150
      by (rewrite minus_IZR, plus_IZR; ring).
    replace (IZR (400 - 200 - 400)) with (-200)
      by (rewrite !minus_IZR; ring).
    replace (hypot 150 (-200)) with 250 by (symmetry; apply hypot_unique; lra).
    lra.
Defined.

(** *** futbol 1.3: the goal loop *)

Lemma goal_check13_miss (fuel : nat) (o : Oracle) (d : Dice) (b : Slot)
    (p : Pitch) :
  ~ Futbol13.in_goal b p -> Futbol13.goal_check fuel o d b p = Some p.
Proof.
  intros H. unfold Futbol13.goal_check, Futbol13.in_goal in *.
  destruct (Rgt_dec _ _); [| reflexivity].
  destruct (Rlt_dec _ _); [tauto | reflexivity].
Qed.

Lemma goal_check13_hit (fuel : nat) (o : Oracle) (d : Dice) (b : Slot)
    (p : Pitch) :
  Futbol13.in_goal b p ->
  Futbol13.goal_check fuel o d b p = Futbol13.goal fuel o d b p.
Proof.
  intros [Hd Ha]. unfold Futbol13.goal_check.
  destruct (Rgt_dec _ _); [| contradiction].
  destruct (Rlt_dec _ _); [reflexivity | contradiction].
Qed.

Lemma in_goal13_dec (b : Slot) (p : Pitch) :
  {Futbol13.in_goal b p} + {~ Futbol13.in_goal b p}.
Proof.
  unfold Futbol13.in_goal.
  destruct (Rgt_dec (hypot (x (ball_of b p) - IZR Futbol13.center_x)
                           (y (ball_of b p) - IZR Futbol13.center_y))
                    (Futbol13.ARENA_RADIUS - radius (ball_of b p) - 10));
    [| right; tauto].
  destruct (Rlt_dec (angle_diff_norm
                       (atan2 (y (ball_of b p) - IZR Futbol13.center_y)
                              (x (ball_of b p) - IZR Futbol13.center_x))
                       (goal_angle p))
                    (Futbol13.GOAL_WIDTH_RADIANS / 2));
    [left | right]; tauto.
Qed.

(** After a goal both balls stand on spawn points, which are out of the
    reach of the goal test. *)
Lemma goal13_not_in_goal (fuel : nat) (o : Oracle) (d : Dice) (b b' : Slot)
    (p q : Pitch) :
  radius (ball1 p) <= Futbol13.BALL_RADIUS ->
  radius (ball2 p) <= Futbol13.BALL_RADIUS ->
  Futbol13.goal fuel o d b p = Some q ->
  ~ Futbol13.in_goal b' q.
Proof.
  intros R1 R2. unfold Futbol13.goal, Futbol13.get_random_spawn.
  destruct (get_random_spawn_with _ fuel d (calls p) _ _ _)
    as [[[rx1 ry1] n1] |] eqn:E1; [| discriminate].
  destruct (get_random_spawn_with _ fuel d n1 _ _ _)
    as [[[rx2 ry2] n2] |] eqn:E2; [| discriminate].
  intros H. injection H as <-.
  destruct (spawn_returned _ _ _ _ _ _ _ _ _ _ E1) as (_ & _ & _ & _ & A1 & _).
  destruct (spawn_returned _ _ _ _ _ _ _ _ _ _ E2) as (_ & _ & _ & _ & A2 & _).
  unfold spawn_accepts in A1, A2. cbn [fst snd] in A1, A2.
  rewrite minus_IZR in A1, A2. rewrite minus_IZR in A1, A2.
  unfold Futbol13.in_goal. intros [Hd _]. revert Hd.
  destruct b'; cbn [ball_of ball1 ball2 x y radius]; lra.
Qed.

(** X29. At most one goal per iteration in futbol 1.3.  The goal loop has
    no early exit, but a goal sends both balls to spawn points, which lie
    deeper inside than the goal test reaches.  So, for balls no larger than
    [BALL_RADIUS], when the loop returns: if the first ball meets the goal
    condition it alone scores; otherwise the second ball scores if it meets
    the condition; otherwise nothing changes.  In all cases the total score
    grows by at most 1. *)
Theorem one_goal_per_tick13 (fuel : nat) (o : Oracle) (d : Dice) (p p' : Pitch) :
  radius (ball1 p) <= Futbol13.BALL_RADIUS ->
  radius (ball2 p) <= Futbol13.BALL_RADIUS ->
  Futbol13.goal_detection fuel o d p = Some p' ->
  (Futbol13.in_goal B1 p ->
   Futbol13.goal fuel o d B1 p = Some p' /\
   score1 p' = (score1 p + 1)%Z /\ score2 p' = score2 p) /\
  (~ Futbol13.in_goal B1 p -> Futbol13.in_goal B2 p ->
   Futbol13.goal fuel o d B2 p = Some p' /\
   score1 p' = score1 p /\ score2 p' = (score2 p + 1)%Z) /\
  (~ Futbol13.in_goal B1 p -> ~ Futbol13.in_goal B2 p -> p' = p) /\
  (score1 p' + score2 p' <= score1 p + score2 p + 1)%Z.
Proof.
  intros R1 R2 H. unfold Futbol13.goal_detection in H.
  assert (Sc : forall b q, Futbol13.goal fuel o d b p = Some q ->
            score1 q = match b with B1 => (score1 p + 1)%Z | B2 => score1 p end /\
            score2 q = match b with B1 => score2 p | B2 => (score2 p + 1)%Z end).
  { intros b q. unfold Futbol13.goal.
    destruct (Futbol13.get_random_spawn fuel d (calls p) _ _ _)
      as [[[rx1 ry1] n1] |]; [| discriminate].
    destruct (Futbol13.get_random_spawn fuel d n1 _ _ _)
      as [[[rx2 ry2] n2] |]; [| discriminate].
    intros E. injection E as <-. cbn [score1 score2]. split; reflexivity. }
  destruct (in_goal13_dec B1 p) as [I1 | I1].
  - rewrite goal_check13_hit in H by exact I1.
    destruct (Futbol13.goal fuel o d B1 p) as [q |] eqn:G; [| discriminate].
    rewrite goal_check13_miss in H
      by (apply (goal13_not_in_goal fuel o d B1 B2 p q R1 R2 G)).
    injection H as <-.
    destruct (Sc B1 q G) as [S1 S2].
    split; [intros _; split; [reflexivity | split; assumption] |].
    split; [intros N; contradiction |].
    split; [intros N; contradiction | lia].
  - rewrite goal_check13_miss in H by exact I1.
    destruct (in_goal13_dec B2 p) as [I2 | I2].
    + rewrite goal_check13_hit in H by exact I2.
      destruct (Sc B2 p' H) as [S1 S2].
      split; [intros Y; contradiction |].
      split; [intros _ _; split; [exact H | split; assumption] |].
      split; [intros _ N; contradiction | lia].
    + rewrite goal_check13_miss in H by exact I2. injection H as <-.
      split; [intros Y; contradiction |].
      split; [intros _ Y; contradiction |].
      split; [reflexivity | lia].
Qed.

Lemma goal_mouth13_scores :
  Futbol13.in_goal B1 goal_mouth13 /\
  exists q, Futbol13.goal 1 sample_oracle sample_dice B1 goal_mouth13 = Some q.
Proof.
  split.
  - unfold Futbol13.in_goal, goal_mouth13. cbv zeta.
    cbn [ball_of ball1 x y radius goal_angle].
    change (IZR Futbol13.center_x) with 300.
    change (IZR Futbol13.center_y) with 400.
    unfold Futbol13.ARENA_RADIUS, Futbol13.GOAL_WIDTH_RADIANS.
    replace (300 - 300) with 0 by ring. replace (630 - 400) with 230 by ring.
    rewrite hypot_axis_y, Rabs_pos_eq by lra.
    rewrite atan2_axis_up by lra. rewrite angle_diff_norm_same.
    split; lra.
  - assert (Sp : forall n, Nat.even n = true ->
              Futbol13.get_random_spawn 1 sample_dice n Futbol13.center_x
                Futbol13.center_y Futbol13.ARENA_RADIUS
              = Some (300, 450, (n + 2)%nat)%Z).
    { intros n En. unfold Futbol13.get_random_spawn.
      cbn [get_random_spawn_with sample_dice randint]. rewrite En.
      replace (Nat.even (n + 1)) with false
        by (rewrite Nat.add_1_r, Nat.even_succ, <- Nat.negb_even, En;
            reflexivity).
      change ((Futbol13.center_x - 150 + (Futbol13.center_x + 150)) / 2)%Z
        with 300%Z.
      change (Futbol13.center_y + 50)%Z with 450%Z.
      change (IZR (300 - Futbol13.center_x)) with 0.
      change (IZR (450 - Futbol13.center_y)) with 50.
      rewrite hypot_axis_y, Rabs_pos_eq by lra.
      unfold Futbol13.ARENA_RADIUS, Futbol13.BALL_RADIUS.
      destruct (Rlt_dec _ _) as [_ | N]; [reflexivity | lra]. }
    unfold Futbol13.goal. cbn [goal_mouth13 calls].
    rewrite (Sp 4%nat) by reflexivity.
    rewrite (Sp (4 + 2)%nat) by reflexivity.
    eexists. reflexivity.
Qed.

Lemma one_goal_per_tick13_witness :
  exists q,
    Futbol13.goal_detection 1 sample_oracle sample_dice goal_mouth13 = Some q /\
    score1 q = 1%Z /\ score2 q = 0%Z.
Proof.
  destruct goal_mouth13_scores as (I1 & q & G).
  assert (R1 : radius (ball1 goal_mouth13) <= Futbol13.BALL_RADIUS)
    by (cbn [goal_mouth13 ball1 radius]; unfold Futbol13.BALL_RADIUS; lra).
  assert (R2 : radius (ball2 goal_mouth13) <= Futbol13.BALL_RADIUS)
    by (cbn [goal_mouth13 ball2 radius]; unfold Futbol13.BALL_RADIUS; lra).
  assert (D : Futbol13.goal_detection 1 sample_oracle sample_dice goal_mouth13
              = Some q).
  { unfold Futbol13.goal_detection.
    rewrite goal_check13_hit by exact I1. rewrite G.
    apply goal_check13_miss.
    apply (goal13_not_in_goal 1 sample_oracle sample_dice B1 B2
             goal_mouth13 q R1 R2 G). }
  exists q. split; [exact D |].
  destruct (one_goal_per_tick13 1 sample_oracle sample_dice goal_mouth13 q
              R1 R2 D) as (A & _).
  destruct (A I1) as (_ & S1 & S2).
  split; [exact S1 | exact S2].
Defined.

(** ** futbol 1.4: the kick-off of the second half *)





